(** * FancyTracker (Firefox port): tracking store, identity keys, block lists

    A shallow embedding of the extension's background script
    (per-tab listener store, identity keys, block matching, tab lifecycle),
    of the popup's block-list export/import, and of the page-side hook on
    [Window.prototype.addEventListener], followed by the properties proved
    about them.

    JavaScript strings are modelled as [string]; every character stands for
    one code unit below 256.  Tab ids are integers ([Z]); the objects used as
    dictionaries keyed by tab id are finite maps ([gmap Z _]) and the
    [Set] of identity keys is a finite set ([gset string]). *)

From stdpp Require Import gmap strings list pretty.
From Stdlib Require Import Ascii ZArith Lia.

#[local] Open Scope string_scope.
#[local] Open Scope list_scope.
#[local] Set Warnings "-register-all,-clear-no-such-hyp".

(* ================================================================== *)
(** * JavaScript string primitives used by the scripts *)
(* ================================================================== *)

Module Js.

(** Truthiness of a possibly missing string: [undefined] and [''] are
    falsy. *)
Definition truthy (o : option string) : bool :=
  match o with
  | Some (String _ _) => true
  | _ => false
  end.

(** [o || d] for a possibly missing string [o]. *)
Definition or_else (o : option string) (d : string) : string :=
  match o with
  | Some (String c s) => String c s
  | _ => d
  end.

(** [s.includes(sub)]. *)
Fixpoint includes (s sub : string) : bool :=
  String.prefix sub s ||
  match s with
  | EmptyString => false
  | String _ s' => includes s' sub
  end.

(** [l.includes(x)] on an array of strings. *)
Definition array_includes (l : list string) (x : string) : bool :=
  existsb (String.eqb x) l.

(** [s.split(sep)[0]]: the part of [s] before the first [sep]. *)
Fixpoint before (sep : ascii) (s : string) : string :=
  match s with
  | EmptyString => EmptyString
  | String c s' => if Ascii.eqb c sep then EmptyString else String c (before sep s')
  end.

(** [s.slice(1, -1)]. *)
Definition slice_1_m1 (s : string) : string :=
  String.substring 1 (String.length s - 2) s.

(** The class [\d]. *)
Definition is_digit (c : ascii) : bool :=
  let n := nat_of_ascii c in (48 <=? n)%nat && (n <=? 57)%nat.

(** The class [\s], for code units below 256. *)
Definition is_space (c : ascii) : bool :=
  let n := nat_of_ascii c in
  ((9 <=? n)%nat && (n <=? 13)%nat) || (n =? 32)%nat || (n =? 160)%nat.

(** Longest prefix of [s] whose characters satisfy [p], and the rest. *)
Fixpoint span (p : ascii -> bool) (s : string) : string * string :=
  match s with
  | EmptyString => (EmptyString, EmptyString)
  | String c s' =>
      if p c then let '(a, b) := span p s' in (String c a, b)
      else (EmptyString, s)
  end.

(** [strip_prefix p s = Some r] when [s = p ++ r]. *)
Fixpoint strip_prefix (p s : string) : option string :=
  match p, s with
  | EmptyString, _ => Some s
  | String a p', String b s' => if Ascii.eqb a b then strip_prefix p' s' else None
  | String _ _, EmptyString => None
  end.

(** All matches of a global regular expression whose matches are never
    empty: [try_at s] is the text matched when the expression is anchored
    at the start of [s]; the search resumes after each match
    ([String.prototype.match] with the [g] flag; no match at all gives
    the empty list where JavaScript gives [null]). *)
Fixpoint match_all (try_at : string -> option string) (skip : nat) (s : string)
  : list string :=
  match s with
  | EmptyString => []
  | String _ s' =>
      match skip with
      | S k => match_all try_at k s'
      | O =>
          match try_at s with
          | Some m => m :: match_all try_at (String.length m - 1) s'
          | None => match_all try_at 0 s'
          end
      end
  end.

(** [https?:\/\/] anchored at the start of [s]: the scheme text matched
    and the rest. *)
Definition http_scheme (s : string) : option (string * string) :=
  match strip_prefix "http" s with
  | None => None
  | Some r =>
      match strip_prefix "s://" r with
      | Some r' => Some ("https://", r')
      | None =>
          match strip_prefix "://" r with
          | Some r' => Some ("http://", r')
          | None => None
          end
      end
  end.

(** [/\(https?:\/\/[^)]+\)/] anchored at the start of [s]. *)
Definition paren_url_at (s : string) : option string :=
  match strip_prefix "(" s with
  | None => None
  | Some r =>
      match http_scheme r with
      | None => None
      | Some (scheme, r') =>
          match span (fun c => negb (Ascii.eqb c ")")) r' with
          | (String c body, String _ _) =>
              Some ("(" +:+ scheme +:+ String c body +:+ ")")
          | _ => None
          end
      end
  end.

(** [/https?:\/\/[^\s\)]+/] anchored at the start of [s]. *)
Definition bare_url_at (s : string) : option string :=
  match http_scheme s with
  | None => None
  | Some (scheme, r) =>
      match span (fun c => negb (is_space c) && negb (Ascii.eqb c ")")) r with
      | (String c body, _) => Some (scheme +:+ String c body)
      | _ => None
      end
  end.

(** [line.match(/\(https?:\/\/[^)]+\)/g)]. *)
Definition match_paren_urls (line : string) : list string :=
  match_all paren_url_at 0 line.

(** [line.match(/https?:\/\/[^\s\)]+/g)]. *)
Definition match_bare_urls (line : string) : list string :=
  match_all bare_url_at 0 line.

(** [s.replace(/:\d+$/, '')], on the reversed string: a non-empty run of
    digits and a colon are dropped from the front of [r]. *)
Definition drop_rev_number (r : string) : option string :=
  match span is_digit r with
  | (String _ _, String c r') => if Ascii.eqb c ":" then Some r' else None
  | _ => None
  end.

(** [s.replace(/:\d+$/, '')]. *)
Definition strip_line (s : string) : string :=
  match drop_rev_number (String.rev s) with
  | Some r => String.rev r
  | None => s
  end.

(** [s.replace(/:\d+:\d+$/, '')]. *)
Definition strip_line_col (s : string) : string :=
  match drop_rev_number (String.rev s) with
  | Some r1 =>
      match drop_rev_number r1 with
      | Some r2 => String.rev r2
      | None => s
      end
  | None => s
  end.

(** First element of a list of candidates that yields a value. *)
Fixpoint first_some {A B} (f : A -> option B) (l : list A) : option B :=
  match l with
  | [] => None
  | x :: l' => match f x with Some y => Some y | None => first_some f l' end
  end.

End Js.


(* ================================================================== *)
(** * What the scripts use of the browser platform *)
(* ================================================================== *)

(** The fields of a [URL] object that [cleanUrl] reads. *)
Record URL : Type := MkURL {
  protocol : string;
  hostname : string;
  pathname : string
}.

(** The platform's URL parser and regular expressions.  [URL_new s] is
    [new URL(s)] ([None] when it throws); [RegExp_new pattern flags] is
    [new RegExp(pattern, flags)] ([None] when the pattern is rejected with a
    [SyntaxError]); [RegExp_test r s] is [r.test(s)]. *)
Class Platform : Type := {
  URL_new : string -> option URL;
  RegExp : Type;
  RegExp_new : string -> string -> option RegExp;
  RegExp_test : RegExp -> string -> bool
}.

(** What a deferred helper of the background script finds when it runs:
    [tabs_get id] is the URL of tab [id] ([None] when [tabs.get] rejects
    because the tab is gone), [now] is [Date.now()] and [sync_log_url] the
    value stored under [log_url] in synchronised storage. *)
Record Env : Type := MkEnv {
  tabs_get : Z -> option string;
  now : Z;
  sync_log_url : option string
}.

(* ================================================================== *)
(** * The background script *)
(* ================================================================== *)

Module Background.

Definition EXTENSION_BLACKLIST : list string := ["wappalyzer"; "domlogger"].

Definition CONTENT_TYPE_JSON : string := "application/json; charset=UTF-8".

Definition NATIVE_CODE : string := "function () { [native code] }".

(** An inbound message.  A stored listener record is the message object
    itself (with [parent_url] filled in by the handler), so one record type
    serves for both.  A missing property is [None]; the flags [pushState]
    and [changePage] are only tested for truthiness. *)
Record Msg : Type := MkMsg {
  action : option string;
  enabled : bool;
  listener : option string;
  stack : option string;
  fullstack : option (list string);
  hops : option string;
  domain : option string;
  window : option string;
  parent_url : option string;
  pushState : bool;
  changePage : bool;
  log : option string
}.

Definition with_parent_url (u : option string) (m : Msg) : Msg :=
  MkMsg (action m) (enabled m) (listener m) (stack m) (fullstack m) (hops m)
        (domain m) (window m) u (pushState m) (changePage m) (log m).

(** [sender.tab]. *)
Record Tab : Type := MkTab {
  tab_id : Z;
  tab_url : option string
}.

(** [cachedPopupData.listeners] is either the very object [tab_listeners]
    (after [cachedPopupData.listeners = tab_listeners]) or the fresh empty
    object of the initial and of the reset cache, which nothing mutates. *)
Inductive ListenersRef : Type :=
| TabListenersObject
| FreshEmptyObject.

Record PopupData : Type := MkPopupData {
  pd_listeners : ListenersRef;
  currentTabId : option Z;
  currentUrl : option string;
  lastUpdate : Z
}.

Definition emptyPopupData : PopupData :=
  MkPopupData FreshEmptyObject None (Some "") 0.

(** What a handler does to the outside, in the order it does it.  The
    [Call...] effects are calls of the script's [async] helpers, whose bodies
    run after the handler's synchronous part (see [refreshCount],
    [updateCachedData] and [logListener] below). *)
Inductive Effect : Type :=
| DebouncedSave
| CallRefreshCount
| CallUpdateCachedData
| CallLogListener (data : Msg)
| Fetch (url method content_type : string) (body : Msg)
| PortPostMessage (port : nat) (listeners : gmap Z (list Msg))
    (url : option string) (cached : bool) (timestamp : Z)
| SendResponse (success : bool)
| StorageLocalSetDedupe (value : bool)
| SetBadgeText (text : string) (tabId : Z)
| SetBadgeBackgroundColor (color : list Z) (tabId : Z)
| ConsoleLog (text : string)
| ConsoleWarn (text : string).

Section WithPlatform.
Context `{Platform}.

(** The script's global variables. *)
Record State : Type := MkState {
  tab_listeners : gmap Z (list Msg);
  tab_listener_keys : gmap Z (gset string);
  tab_push : gmap Z bool;
  tab_lasturl : gmap Z bool;
  selectedId : Z;
  connectedPorts : list nat;
  dedupeEnabled : bool;
  blockedListeners : list string;
  blockedUrls : list string;
  blockedRegex : list string;
  compiledRegex : list (string * RegExp);
  cachedPopupData : PopupData
}.

Definition initial : State :=
  MkState ∅ ∅ ∅ ∅ (-1) [] true [] [] [] [] emptyPopupData.

Definition set_tab_listeners (f : gmap Z (list Msg) -> gmap Z (list Msg)) (s : State) : State :=
  MkState (f (tab_listeners s)) (tab_listener_keys s) (tab_push s) (tab_lasturl s)
    (selectedId s) (connectedPorts s) (dedupeEnabled s) (blockedListeners s)
    (blockedUrls s) (blockedRegex s) (compiledRegex s) (cachedPopupData s).

Definition set_tab_listener_keys (f : gmap Z (gset string) -> gmap Z (gset string)) (s : State) : State :=
  MkState (tab_listeners s) (f (tab_listener_keys s)) (tab_push s) (tab_lasturl s)
    (selectedId s) (connectedPorts s) (dedupeEnabled s) (blockedListeners s)
    (blockedUrls s) (blockedRegex s) (compiledRegex s) (cachedPopupData s).

Definition set_tab_push (f : gmap Z bool -> gmap Z bool) (s : State) : State :=
  MkState (tab_listeners s) (tab_listener_keys s) (f (tab_push s)) (tab_lasturl s)
    (selectedId s) (connectedPorts s) (dedupeEnabled s) (blockedListeners s)
    (blockedUrls s) (blockedRegex s) (compiledRegex s) (cachedPopupData s).

Definition set_tab_lasturl (f : gmap Z bool -> gmap Z bool) (s : State) : State :=
  MkState (tab_listeners s) (tab_listener_keys s) (tab_push s) (f (tab_lasturl s))
    (selectedId s) (connectedPorts s) (dedupeEnabled s) (blockedListeners s)
    (blockedUrls s) (blockedRegex s) (compiledRegex s) (cachedPopupData s).

Definition set_selectedId (v : Z) (s : State) : State :=
  MkState (tab_listeners s) (tab_listener_keys s) (tab_push s) (tab_lasturl s)
    v (connectedPorts s) (dedupeEnabled s) (blockedListeners s)
    (blockedUrls s) (blockedRegex s) (compiledRegex s) (cachedPopupData s).

Definition set_dedupeEnabled (v : bool) (s : State) : State :=
  MkState (tab_listeners s) (tab_listener_keys s) (tab_push s) (tab_lasturl s)
    (selectedId s) (connectedPorts s) v (blockedListeners s)
    (blockedUrls s) (blockedRegex s) (compiledRegex s) (cachedPopupData s).

Definition set_blockedListeners (v : list string) (s : State) : State :=
  MkState (tab_listeners s) (tab_listener_keys s) (tab_push s) (tab_lasturl s)
    (selectedId s) (connectedPorts s) (dedupeEnabled s) v
    (blockedUrls s) (blockedRegex s) (compiledRegex s) (cachedPopupData s).

Definition set_blockedUrls (v : list string) (s : State) : State :=
  MkState (tab_listeners s) (tab_listener_keys s) (tab_push s) (tab_lasturl s)
    (selectedId s) (connectedPorts s) (dedupeEnabled s) (blockedListeners s)
    v (blockedRegex s) (compiledRegex s) (cachedPopupData s).

Definition set_blockedRegex (v : list string) (s : State) : State :=
  MkState (tab_listeners s) (tab_listener_keys s) (tab_push s) (tab_lasturl s)
    (selectedId s) (connectedPorts s) (dedupeEnabled s) (blockedListeners s)
    (blockedUrls s) v (compiledRegex s) (cachedPopupData s).

Definition set_compiledRegex (v : list (string * RegExp)) (s : State) : State :=
  MkState (tab_listeners s) (tab_listener_keys s) (tab_push s) (tab_lasturl s)
    (selectedId s) (connectedPorts s) (dedupeEnabled s) (blockedListeners s)
    (blockedUrls s) (blockedRegex s) v (cachedPopupData s).

Definition set_cachedPopupData (v : PopupData) (s : State) : State :=
  MkState (tab_listeners s) (tab_listener_keys s) (tab_push s) (tab_lasturl s)
    (selectedId s) (connectedPorts s) (dedupeEnabled s) (blockedListeners s)
    (blockedUrls s) (blockedRegex s) (compiledRegex s) v.

(** The object [cachedPopupData.listeners] points to. *)
Definition cached_listeners (s : State) : gmap Z (list Msg) :=
  match pd_listeners (cachedPopupData s) with
  | TabListenersObject => tab_listeners s
  | FreshEmptyObject => ∅
  end.

(** ** Handlers as state transformers that log their effects *)

Definition M (A : Type) : Type := State -> A * State * list Effect.

Definition ret {A} (a : A) : M A := fun s => (a, s, []).

Definition bind {A B} (c : M A) (f : A -> M B) : M B :=
  fun s =>
    let '(a, s1, e1) := c s in
    let '(b, s2, e2) := f a s1 in
    (b, s2, e1 ++ e2).

Definition get : M State := fun s => (s, s, []).

Definition modify (f : State -> State) : M unit := fun s => (tt, f s, []).

Definition emit (e : Effect) : M unit := fun s => (tt, s, [e]).

Definition emit_all (es : list Effect) : M unit := fun s => (tt, s, es).

Definition when (b : bool) (c : M unit) : M unit := if b then c else ret tt.

(** State and effects of a run. *)
Definition exec {A} (c : M A) (s : State) : State := snd (fst (c s)).
Definition result {A} (c : M A) (s : State) : A := fst (fst (c s)).
Definition effects {A} (c : M A) (s : State) : list Effect := snd (c s).

End WithPlatform.

Declare Scope js_scope.
Delimit Scope js_scope with js.
Notation "'let*' x := c 'in' k" := (bind c (fun x => k))
  (at level 10, x name, c at level 200, k at level 200, only parsing) : js_scope.
Notation "c ;; k" := (bind c (fun _ => k))
  (at level 100, k at level 200, only parsing, right associativity) : js_scope.

Section Handlers.
Context `{Platform}.
#[local] Open Scope js_scope.

(** ** Identity keys *)

(** [cleanUrl]: protocol, host name and path of a URL that parses; for one
    that does not, the text before the first [?] and the first [#]. *)
Definition cleanUrl (url : string) : string :=
  match url with
  | EmptyString => url
  | _ =>
      match URL_new url with
      | Some urlObj => protocol urlObj +:+ "//" +:+ hostname urlObj +:+ pathname urlObj
      | None => Js.before "#" (Js.before "?" url)
      end
  end.

(** One candidate of [extractJsUrlFromStack]: line and column numbers are
    removed, the URL is cleaned, and an empty result is passed over. *)
Definition clean_candidate (url : string) : option string :=
  match cleanUrl (Js.strip_line (Js.strip_line_col url)) with
  | EmptyString => None
  | u => Some u
  end.

(** The body of the loop of [extractJsUrlFromStack] for one line. *)
Definition extractJsUrlFromLine (line : string) : option string :=
  match Js.first_some (fun m => clean_candidate (Js.slice_1_m1 m)) (Js.match_paren_urls line) with
  | Some url => Some url
  | None => Js.first_some clean_candidate (Js.match_bare_urls line)
  end.

(** [fullstack || (stack ? [stack] : [])]: an array, even an empty one, is
    truthy. *)
Definition stackLines (stack : option string) (fullstack : option (list string))
  : list string :=
  match fullstack with
  | Some lines => lines
  | None => match stack with
            | Some (String c s) => [String c s]
            | _ => []
            end
  end.

Definition extractJsUrlFromStack (stack : option string) (fullstack : option (list string))
  : option string :=
  Js.first_some extractJsUrlFromLine (stackLines stack fullstack).

Definition generateListenerKey (l : Msg) : string :=
  let jsUrl := Js.or_else (extractJsUrlFromStack (stack l) (fullstack l)) "" in
  let hops := Js.or_else (hops l) "" in
  let domain := Js.or_else (domain l) "" in
  let listenerCode := Js.or_else (listener l) "" in
  jsUrl +:+ "|" +:+ hops +:+ "|" +:+ domain +:+ "|" +:+ listenerCode.

(** ** Extension filter *)

(** [listener.toString()] throws on a missing listener; the [catch] makes
    the answer [false]. *)
Definition isFromExtension (listener stack : option string) : bool :=
  match listener with
  | None => false
  | Some listenerStr =>
      let stackStr := Js.or_else stack "" in
      let combined := listenerStr +:+ " " +:+ stackStr in
      existsb (Js.includes combined) EXTENSION_BLACKLIST
  end.

(** ** Block lists *)

(** [compileRegexPatterns]: every pattern is compiled with the flag [i]; a
    pattern the platform rejects is reported and left out. *)
Fixpoint compile_patterns (patterns : list string) : list (string * RegExp) * list Effect :=
  match patterns with
  | [] => ([], [])
  | pattern :: rest =>
      let '(compiled, warnings) := compile_patterns rest in
      match RegExp_new pattern "i" with
      | Some regex => ((pattern, regex) :: compiled, warnings)
      | None => (compiled, ConsoleWarn pattern :: warnings)
      end
  end.

Definition compileRegexPatterns : M unit :=
  let* s := get in
  let '(compiled, warnings) := compile_patterns (blockedRegex s) in
  modify (set_compiledRegex compiled);;
  emit_all warnings;;
  emit (ConsoleLog (pretty (length compiled))).

Definition isListenerMatchedByRegex (s : State) (l : Msg) : bool :=
  match listener l with
  | Some (String c code) =>
      existsb (fun compiled => RegExp_test (snd compiled) (String c code)) (compiledRegex s)
  | _ => false
  end.

Definition isListenerBlocked (s : State) (l : Msg) : bool :=
  if match listener l with
     | Some code => Js.array_includes (blockedListeners s) code
     | None => false
     end
  then true
  else if match extractJsUrlFromStack (stack l) (fullstack l) with
          | Some jsUrl => Js.array_includes (blockedUrls s) jsUrl
          | None => false
          end
  then true
  else if isListenerMatchedByRegex s l then true
  else false.

(** The settings read by [loadSettings]; a missing value is [None]. *)
Record Settings : Type := MkSettings {
  st_dedupeEnabled : option bool;
  st_blockedListeners : option (list string);
  st_blockedUrls : option (list string);
  st_blockedRegex : option (list string)
}.

Definition loadSettings (result : Settings) : M unit :=
  modify (set_dedupeEnabled (default true (st_dedupeEnabled result)));;
  modify (set_blockedListeners (default [] (st_blockedListeners result)));;
  modify (set_blockedUrls (default [] (st_blockedUrls result)));;
  modify (set_blockedRegex (default [] (st_blockedRegex result)));;
  compileRegexPatterns;;
  emit (ConsoleLog "Loaded settings").

(** The [storage.onChanged] listener for the local area: each field is the
    change recorded for that key, if any, and inside it the new value, if
    any. *)
Record Changes : Type := MkChanges {
  ch_blockedListeners : option (option (list string));
  ch_blockedUrls : option (option (list string));
  ch_blockedRegex : option (option (list string))
}.

Definition onStorageChanged (changes : Changes) : M unit :=
  match ch_blockedListeners changes with
  | Some newValue =>
      modify (set_blockedListeners (default [] newValue));;
      emit (ConsoleLog "Updated blocked listeners");;
      emit CallUpdateCachedData;;
      emit CallRefreshCount
  | None => ret tt
  end;;
  match ch_blockedUrls changes with
  | Some newValue =>
      modify (set_blockedUrls (default [] newValue));;
      emit (ConsoleLog "Updated blocked URLs");;
      emit CallUpdateCachedData;;
      emit CallRefreshCount
  | None => ret tt
  end;;
  match ch_blockedRegex changes with
  | Some newValue =>
      modify (set_blockedRegex (default [] newValue));;
      compileRegexPatterns;;
      emit (ConsoleLog "Updated blocked regex patterns");;
      emit CallUpdateCachedData;;
      emit CallRefreshCount
  | None => ret tt
  end.

(** ** The per-tab store *)

(** A property of an object used as a flag table is truthy. *)
Definition flag_set (m : gmap Z bool) (tabId : Z) : bool :=
  match m !! tabId with
  | Some b => b
  | None => false
  end.

Definition isDuplicateListener (newListener : Msg) (tabId : Z) : M bool :=
  let* s := get in
  if negb (dedupeEnabled s) then ret false
  else
    when (bool_decide (tab_listener_keys s !! tabId = None))
         (modify (set_tab_listener_keys <[tabId := ∅]>));;
    let key := generateListenerKey newListener in
    let* s := get in
    ret (match tab_listener_keys s !! tabId with
         | Some keys => bool_decide (key ∈ keys)
         | None => false
         end).

Definition addListenerKey (l : Msg) (tabId : Z) : M unit :=
  let* s := get in
  if negb (dedupeEnabled s) then ret tt
  else
    when (bool_decide (tab_listener_keys s !! tabId = None))
         (modify (set_tab_listener_keys <[tabId := ∅]>));;
    let key := generateListenerKey l in
    modify (set_tab_listener_keys (alter (fun keys => keys ∪ {[key]}) tabId)).

(** [tab_listeners[tabId].push(listener)]. *)
Definition pushListener (l : Msg) (tabId : Z) : M unit :=
  modify (set_tab_listeners (alter (fun ls => ls ++ [l]) tabId)).

Definition addListener (tabId : Z) (l : Msg) : M bool :=
  if isFromExtension (listener l) (stack l) then
    emit (ConsoleLog "Ignoring extension listener");;
    ret false
  else
    let* s := get in
    when (bool_decide (tab_listeners s !! tabId = None))
         (modify (set_tab_listeners <[tabId := []]>);;
          modify (set_tab_listener_keys <[tabId := ∅]>));;
    let* dup := isDuplicateListener l tabId in
    if negb dup then
      pushListener l tabId;;
      addListenerKey l tabId;;
      emit DebouncedSave;;
      let* s := get in
      when (negb (isListenerBlocked s l)) (emit (CallLogListener l));;
      ret true
    else ret false.

Definition clearListeners (tabId : Z) : M bool :=
  let* s := get in
  let hadListeners :=
    match tab_listeners s !! tabId with
    | Some ls => (0 <? length ls)%nat
    | None => false
    end in
  modify (set_tab_listeners <[tabId := []]>);;
  modify (set_tab_listener_keys (alter (fun _ => ∅) tabId));;
  emit DebouncedSave;;
  ret hadListeners.

(** [notifyPopups]: the cache refresh it starts runs later; every connected
    port is sent what the cache holds now. *)
Definition notifyPopups : M unit :=
  emit CallUpdateCachedData;;
  let* s := get in
  emit_all (map (fun port =>
                   PortPostMessage port (cached_listeners s)
                     (currentUrl (cachedPopupData s)) true
                     (lastUpdate (cachedPopupData s)))
                (connectedPorts s)).

(** ** Deferred helpers *)

(** [refreshCount]: the badge of the selected tab shows the number of its
    records that are not blocked; when the tab is gone its entries are
    deleted.  [refreshCount env] is the run in which no handler comes in
    between its [await]s, [tabs.get] answers as [env] says and the two
    badge calls succeed; the steps of the other runs follow below
    ([refreshCount_begin], [refreshCount_resume]). *)
Definition activeCount (s : State) : nat :=
  match tab_listeners s !! selectedId s with
  | Some ls => length (filter (fun l => negb (isListenerBlocked s l) = true) ls)
  | None => 0%nat
  end.

Definition refreshCount (env : Env) : M unit :=
  let* s := get in
  let count := activeCount s in
  if (0 <? selectedId s)%Z then
    match tabs_get env (selectedId s) with
    | Some _ =>
        emit (SetBadgeText (pretty count) (selectedId s));;
        emit (SetBadgeBackgroundColor
                (if (0 <? count)%nat then [255; 0; 0; 255] else [0; 0; 255; 0])%Z
                (selectedId s))
    | None =>
        modify (set_tab_listeners (delete (selectedId s)));;
        modify (set_tab_listener_keys (delete (selectedId s)));;
        modify (set_tab_lasturl (delete (selectedId s)));;
        emit DebouncedSave
    end
  else ret tt.

Definition updateCachedData (env : Env) : M unit :=
  let* s := get in
  if negb (selectedId s =? 0)%Z && (0 <? selectedId s)%Z then
    modify (set_cachedPopupData
              (MkPopupData TabListenersObject (Some (selectedId s))
                 (match tabs_get env (selectedId s) with
                  | Some url => Some url
                  | None => Some "Unknown URL"
                  end)
                 (now env)));;
    emit (ConsoleLog "Updated cached popup data")
  else ret tt.

(** [logListener]: nothing is sent unless a log URL is configured. *)
Definition logListener (env : Env) (data : Msg) : M unit :=
  match sync_log_url env with
  | Some (String c u) => emit (Fetch (String c u) "POST" CONTENT_TYPE_JSON data)
  | _ => ret tt
  end.


(** ** Event handlers *)

(** [runtime.onMessage].  [sender] is [sender.tab] ([None] when there is no
    sender or no tab). *)
Definition onMessage (msg : Msg) (sender : option Tab) : M unit :=
  if bool_decide (action msg = Some "updateDedupeSetting") then
    modify (set_dedupeEnabled (enabled msg));;
    emit (StorageLocalSetDedupe (enabled msg));;
    when (negb (enabled msg))
         (modify (set_tab_listener_keys (fmap (fun _ => ∅)));;
          emit DebouncedSave);;
    emit (ConsoleLog "Dedupe setting updated");;
    emit CallUpdateCachedData;;
    emit CallRefreshCount;;
    emit (SendResponse true)
  else
    match sender with
    | None => emit (SendResponse false)
    | Some tab =>
        let tabId := tab_id tab in
        if Js.truthy (listener msg) && bool_decide (listener msg = Some NATIVE_CODE) then
          emit (SendResponse true)
        else
          let msg := if Js.truthy (listener msg) then with_parent_url (tab_url tab) msg else msg in
          let* shouldNotifyPopups :=
            (if Js.truthy (listener msg) then addListener tabId msg else ret false) in
          when (pushState msg) (modify (set_tab_push <[tabId := true]>));;
          when (changePage msg) (modify (set_tab_lasturl (delete tabId)));;
          (if Js.truthy (log msg) then
             emit (ConsoleLog (Js.or_else (log msg) ""))
           else
             emit CallRefreshCount;;
             when shouldNotifyPopups (emit CallUpdateCachedData;; notifyPopups));;
          emit (SendResponse true)
    end.

(** [tabs.onUpdated]; [status] is [props.status]. *)
Definition onUpdated (tabId : Z) (status : option string) : M unit :=
  (if bool_decide (status = Some "complete") then
     let* s := get in
     when (bool_decide (tabId = selectedId s))
          (emit CallRefreshCount;; emit CallUpdateCachedData)
   else if Js.truthy status then
     let* s := get in
     if flag_set (tab_push s) tabId then
       modify (set_tab_push (delete tabId))
     else if negb (flag_set (tab_lasturl s) tabId) then
       let* hadListeners := clearListeners tabId in
       when hadListeners (emit CallUpdateCachedData;; notifyPopups)
     else ret tt
   else ret tt);;
  when (bool_decide (status = Some "loading"))
       (modify (set_tab_lasturl <[tabId := true]>)).

(** [tabs.onActivated]. *)
Definition onActivated (tabId : Z) : M unit :=
  modify (set_selectedId tabId);;
  emit CallRefreshCount;;
  emit CallUpdateCachedData;;
  notifyPopups.

(** [tabs.onRemoved]. *)
Definition onRemoved (tabId : Z) : M unit :=
  modify (set_tab_listeners (delete tabId));;
  modify (set_tab_listener_keys (delete tabId));;
  modify (set_tab_push (delete tabId));;
  modify (set_tab_lasturl (delete tabId));;
  emit DebouncedSave;;
  let* s := get in
  when (bool_decide (currentTabId (cachedPopupData s) = Some tabId))
       (modify (set_cachedPopupData emptyPopupData)).

(** ** Popup ports *)

Definition set_connectedPorts (f : list nat -> list nat) (s : State) : State :=
  MkState (tab_listeners s) (tab_listener_keys s) (tab_push s) (tab_lasturl s)
    (selectedId s) (f (connectedPorts s)) (dedupeEnabled s) (blockedListeners s)
    (blockedUrls s) (blockedRegex s) (compiledRegex s) (cachedPopupData s).

(** What a port is sent when it connects and when it asks: the cache when
    it was filled for the selected tab, and otherwise the store itself once
    [updateCachedData] has been awaited.  [env] is what that call finds and
    [later] is [Date.now()] when the message is posted; the awaited call is
    run to its end without another handler in between. *)
Definition sendData (env : Env) (later : Z) (port : nat) : M unit :=
  let* s := get in
  if bool_decide (currentTabId (cachedPopupData s) = Some (selectedId s))
     && (0 <? lastUpdate (cachedPopupData s))%Z
  then
    emit (PortPostMessage port (cached_listeners s) (currentUrl (cachedPopupData s))
            true (lastUpdate (cachedPopupData s)))
  else
    updateCachedData env;;
    let* s := get in
    emit (PortPostMessage port (tab_listeners s)
            (Some (Js.or_else (currentUrl (cachedPopupData s)) "Loading..."))
            false later).

(** [runtime.onConnect]. *)
Definition onConnect (env : Env) (later : Z) (port : nat) : M unit :=
  modify (set_connectedPorts (fun ports => ports ++ [port]));;
  sendData env later port.

(** [port.onMessage]: whatever the message, the data is sent again. *)
Definition onPortMessage (env : Env) (later : Z) (port : nat) : M unit :=
  sendData env later port.

(** [port.onDisconnect]. *)
Definition onDisconnect (port : nat) : M unit :=
  modify (set_connectedPorts (filter (fun p => p <> port))).

(** ** The deferred helpers, from one [await] to the next *)

(** Where [refreshCount] waits: for [tabs.get], asked about the tab that
    was selected then, for [setBadgeText] and for
    [setBadgeBackgroundColor].  The count of the unblocked records is
    taken before the first of them. *)
Inductive RefreshCountAwait : Type :=
| AwaitsTabsGet (tabId : Z) (activeCount : nat)
| AwaitsSetBadgeText (activeCount : nat)
| AwaitsSetBadgeBackgroundColor.

(** [refreshCount] up to [await browserAPI.tabs.get(selectedId)]. *)
Definition refreshCount_begin : M (option RefreshCountAwait) :=
  let* s := get in
  let count := activeCount s in
  if (0 <? selectedId s)%Z then ret (Some (AwaitsTabsGet (selectedId s) count))
  else ret None.

(** The [catch] block of [refreshCount]: [selectedId] is the global
    variable as it is when the block runs. *)
Definition refreshCount_catch : M unit :=
  let* s := get in
  modify (set_tab_listeners (delete (selectedId s)));;
  modify (set_tab_listener_keys (delete (selectedId s)));;
  modify (set_tab_lasturl (delete (selectedId s)));;
  emit DebouncedSave.

(** [refreshCount] from the settling of the call it waits for to its next
    [await] or its end; [resolved] tells whether the call was fulfilled.
    The badge calls read [selectedId] when they are made. *)
Definition refreshCount_resume (awaited : RefreshCountAwait) (resolved : bool)
  : M (option RefreshCountAwait) :=
  if resolved then
    match awaited with
    | AwaitsTabsGet _ count =>
        let* s := get in
        emit (SetBadgeText (pretty count) (selectedId s));;
        ret (Some (AwaitsSetBadgeText count))
    | AwaitsSetBadgeText count =>
        let* s := get in
        emit (SetBadgeBackgroundColor
                (if (0 <? count)%nat then [255; 0; 0; 255] else [0; 0; 255; 0])%Z
                (selectedId s));;
        ret (Some AwaitsSetBadgeBackgroundColor)
    | AwaitsSetBadgeBackgroundColor => ret None
    end
  else
    refreshCount_catch;;
    ret None.

(** [updateCachedData] up to [await browserAPI.tabs.get(selectedId)];
    [now] is [Date.now()].  The result is the tab asked about. *)
Definition updateCachedData_begin (now : Z) : M (option Z) :=
  let* s := get in
  if negb (selectedId s =? 0)%Z && (0 <? selectedId s)%Z then
    modify (set_cachedPopupData
              (MkPopupData TabListenersObject (Some (selectedId s))
                 (currentUrl (cachedPopupData s)) now));;
    ret (Some (selectedId s))
  else ret None.

(** [updateCachedData] after [tabs.get] has answered; [url] is [tab.url],
    [None] when the call was rejected.  The URL is written to the object
    [cachedPopupData] names at that time. *)
Definition updateCachedData_resume (url : option string) : M unit :=
  let* s := get in
  modify (set_cachedPopupData
            (MkPopupData (pd_listeners (cachedPopupData s))
               (currentTabId (cachedPopupData s))
               (match url with
                | Some url => Some url
                | None => Some "Unknown URL"
                end)
               (lastUpdate (cachedPopupData s))));;
  emit (ConsoleLog "Updated cached popup data").

(** [initializeServiceWorker] after [tabs.query] has been fulfilled;
    [tabs] are the identifiers of the tabs it found.  Before the query
    [loadSettings] has been started, and a rejected query only writes to
    the console. *)
Definition initializeServiceWorker_resume (tabs : list Z) : M unit :=
  match tabs with
  | tabId :: _ =>
      modify (set_selectedId tabId);;
      emit CallRefreshCount;;
      emit CallUpdateCachedData
  | [] => ret tt
  end.

(** ** Persistence *)

(** What [storage.local] holds under [tab_listeners] and
    [tab_listener_keys]: a key that was never written is missing, and an
    entry of the key table is an array or [null]. *)
Record Snapshot : Type := MkSnapshot {
  snap_listeners : option (gmap Z (list Msg));
  snap_keys : option (gmap Z (option (list string)))
}.

(** What [PersistentState] does to the outside. *)
Inductive StorageEvent : Type :=
| StorageLocalSet (snapshot : Snapshot)
| StateLoaded (tabs totalListeners : nat)
| ConsoleError (text : string).

(** [loadState]: [result] is what [storage.local.get] resolves to, [None]
    when it rejects.  The new state, the flag [isLoaded] and the console
    output are returned. *)
Definition loadState (isLoaded : bool) (result : option Snapshot) (s : State)
  : State * bool * list StorageEvent :=
  if isLoaded then (s, true, [])
  else
    match result with
    | Some r =>
        let listeners := default ∅ (snap_listeners r) in
        let keys : gmap Z (gset string) :=
          match snap_keys r with
          | Some table => (fun keys => list_to_set (default [] keys)) <$> table
          | None => ∅
          end in
        (set_tab_lasturl (fun _ => ∅)
           (set_tab_push (fun _ => ∅)
              (set_tab_listener_keys (fun _ => keys)
                 (set_tab_listeners (fun _ => listeners) s))),
         true,
         [StateLoaded (size listeners)
            (map_fold (fun _ arr sum => sum + length arr)%nat 0%nat listeners)])
    | None => (s, true, [ConsoleError "Failed to load state from storage"])
    end.

(** [saveState]: the key sets are written as arrays; [rejected] tells
    whether [storage.local.set] rejects.  A JavaScript [Set] lists its
    elements in insertion order, which a [gset] does not keep: [elements]
    lists the same keys in some order. *)
Definition saveState (isLoaded : bool) (rejected : bool) (s : State) : list StorageEvent :=
  if isLoaded then
    StorageLocalSet
      (MkSnapshot (Some (tab_listeners s))
         (Some ((fun keys => Some (elements keys)) <$> tab_listener_keys s)))
    :: (if rejected then [ConsoleError "Failed to save state to storage"] else [])
  else [].

End Handlers.

End Background.

(* ================================================================== *)
(** * The page-side hook on [Window.prototype.addEventListener] *)
(* ================================================================== *)

Module MainWorld.

(** What [v.toString()] does: it returns a string, or it throws (the
    method is missing, is not callable, or throws itself).  A [toString]
    that returns something else is not modelled. *)
Inductive ToString : Type :=
| ReturnsString (s : string)
| ToStringThrows.

(** What can still be written on an object: properties can be added and
    changed; none can be added but those it has can be changed (after
    [Object.preventExtensions] or [Object.seal]); nothing can be added or
    changed (after [Object.freeze]). *)
Inductive Integrity : Type :=
| Extensible
| NotExtensible
| Frozen.

(** The values a page can pass as a listener, as far as the hook looks at
    them.  For an object: whether it is callable, the text
    [Function.prototype.toString] gives for it, what its [toString] method
    does, its [name] property, what can still be written on it, and its
    enumerable data properties in enumeration order. *)
Inductive value : Type :=
| VUndefined
| VNull
| VBool (b : bool)
| VNum (n : Z)
| VStr (s : string)
| VObject (callable : bool) (source : string) (to_string : ToString)
    (name : value) (integrity : Integrity) (props : list (string * value)).

Definition EXTENSION_MARKER : string := "__FANCYTRACKER_INTERNAL__".

Definition extension_blacklist : list string :=
  ["wappalyzer"; "react-devtools"; "vue-devtools"; "domlogger";
   "bitwarden-webauthn"; "POSTMESSAGE_TRACKER_DATA"; "FancyTracker:";
   "__postmessagetrackername__"].

Definition truthy (v : value) : bool :=
  match v with
  | VUndefined | VNull => false
  | VBool b => b
  | VNum n => negb (n =? 0)%Z
  | VStr s => negb (String.eqb s "")
  | VObject _ _ _ _ _ _ => true
  end.

(** [typeof v == "function"]. *)
Definition is_function (v : value) : bool :=
  match v with
  | VObject callable _ _ _ _ _ => callable
  | _ => false
  end.

Fixpoint lookup_prop (key : string) (props : list (string * value)) : value :=
  match props with
  | [] => VUndefined
  | (k, v) :: rest => if String.eqb k key then v else lookup_prop key rest
  end.

(** [v[key]] for a [v] that is neither [null] nor [undefined]; [name] is
    kept apart from the enumerable properties. *)
Definition get_prop (v : value) (key : string) : value :=
  match v with
  | VObject _ _ _ name _ props =>
      if String.eqb key "name" then name else lookup_prop key props
  | _ => VUndefined
  end.

(** First entry under [key] in an association list. *)
Fixpoint lookup_inner {A} (key : string) (l : list (string * A)) : option A :=
  match l with
  | [] => None
  | (k, a) :: rest => if String.eqb k key then Some a else lookup_inner key rest
  end.

(** What the hook can observe and do. *)
Inductive Event : Type :=
| PostToBridge (detail : Background.Msg)
| PostListener (window hops domain : string) (stack : option string)
    (fullstack : list string) (listener : value)
| SetTimeout_j
| WriteTrackerName (text : string)
| CallOriginal (type : string) (listener useCapture : value).

(** How a call ends. *)
Inductive Outcome (A : Type) : Type :=
| Returned (a : A)
| Thrown (error : string).
Arguments Returned {A} a.
Arguments Thrown {A} error.

(** Code that may throw and that leaves a trace of events. *)
Definition H (A : Type) : Type := Outcome A * list Event.

Definition hret {A} (a : A) : H A := (Returned a, []).

Definition hthrow {A} (error : string) : H A := (Thrown error, []).

Definition hbind {A B} (c : H A) (f : A -> H B) : H B :=
  match c with
  | (Returned a, e1) => let '(r, e2) := f a in (r, e1 ++ e2)
  | (Thrown error, e1) => (Thrown error, e1)
  end.

Definition hemit (e : Event) : H unit := (Returned tt, [e]).

(** [try { c } catch (e) { handler }]. *)
Definition try_catch {A} (c : H A) (handler : H A) : H A :=
  match c with
  | (Returned a, e1) => (Returned a, e1)
  | (Thrown _, e1) => let '(r, e2) := handler in (r, e1 ++ e2)
  end.

Declare Scope hook_scope.
Delimit Scope hook_scope with hook.
Notation "'let*' x := c 'in' k" := (hbind c (fun x => k))
  (at level 10, x name, c at level 200, k at level 200, only parsing) : hook_scope.
Notation "c ;; k" := (hbind c (fun _ => k))
  (at level 100, k at level 200, only parsing, right associativity) : hook_scope.
#[local] Open Scope hook_scope.

(** [v.toString()]. *)
Definition call_toString (v : value) : H string :=
  match v with
  | VUndefined | VNull => hthrow "TypeError"
  | VBool b => hret (if b then "true" else "false")
  | VNum n => hret (pretty n)
  | VStr s => hret s
  | VObject _ _ (ReturnsString s) _ _ _ => hret s
  | VObject _ _ ToStringThrows _ _ _ => hthrow "TypeError"
  end.

(** [isFromExtension]: any exception is swallowed. *)
Definition isFromExtension (listener : value) (stack : string) : bool :=
  match call_toString listener with
  | (Returned listenerStr, _) =>
      let combined := listenerStr +:+ " " +:+ stack in
      existsb (Js.includes combined) extension_blacklist
  | (Thrown _, _) => false
  end.

Definition isExtensionListener (listener : value) : bool :=
  if truthy listener && truthy (get_prop listener EXTENSION_MARKER) then true
  else isFromExtension listener "".

(** [m]: the structured clone made by [window.postMessage] rejects
    functions. *)
Fixpoint cloneable (v : value) : bool :=
  match v with
  | VObject callable _ _ _ _ props =>
      negb callable && forallb (fun kv => cloneable (snd kv)) props
  | _ => true
  end.

(** The remainder of [s] after the first occurrence of [sub]. *)
Fixpoint after (sub s : string) : option string :=
  match Js.strip_prefix sub s with
  | Some r => Some r
  | None =>
      match s with
      | EmptyString => None
      | String _ s' => after sub s'
      end
  end.

(** A regular expression [A.*B.*C] with the flag [s], every stage being a
    choice between literal texts: each stage is looked for after the
    previous one. *)
Fixpoint in_order (stages : list (list string)) (s : string) : bool :=
  match stages with
  | [] => true
  | alternatives :: rest =>
      existsb (fun a => match after a s with
                        | Some r => in_order rest r
                        | None => false
                        end) alternatives
  end.

(** [c]: which known wrapper a listener looks like. *)
Definition c (listener : value) : option string :=
  match listener with
  | VObject true listener_str _ _ _ _ =>
      if in_order [[".deep"]; ["apply"]; ["captureException"]] listener_str
      then Some "raven"
      else if in_order [["arguments"]; ["start"; "typeof"]; ["err"]; ["finally"]; ["end"]] listener_str
              && truthy (get_prop listener "nr@original")
      then Some "newrelic"
      else if in_order [["rollbarContext"]; ["rollbarWrappedError"]] listener_str
              && truthy (get_prop listener "_isWrap")
      then Some "rollbar"
      else if in_order [["autoNotify"]; ["unhandledException"; "notifyException"]] listener_str
              && is_function (get_prop listener "bugsnag")
      then Some "bugsnag"
      else if in_order [["call"]; ["arguments"]; ["typeof"]; ["apply"]] listener_str
              && is_function (get_prop listener "__sentry_original__")
      then Some "sentry"
      else if in_order [["function"]; ["function"]; [".apply"]; ["arguments"]] listener_str
              && is_function (get_prop listener "__trace__")
      then Some "bugsnag2"
      else None
  | _ => None
  end.

Definition log_msg (text : string) : Background.Msg :=
  Background.MkMsg None false None None None None None None None false false (Some text).

(** [listener.__postmessagetrackername__ = text]: the property is written
    on the page's own object ([WriteTrackerName] records the write); in
    strict mode the assignment throws on a frozen object, and on an object
    that cannot be extended and does not have the property yet. *)
Definition set_tracker_name (listener : value) (text : string) : H value :=
  match listener with
  | VObject callable source ts name integrity props =>
      if match integrity with
         | Extensible => true
         | NotExtensible =>
             existsb (fun kv => String.eqb (fst kv) "__postmessagetrackername__") props
         | Frozen => false
         end
      then
        hemit (WriteTrackerName text);;
        hret (VObject callable source ts name integrity
                (("__postmessagetrackername__", VStr text)
                 :: filter (fun kv => negb (String.eqb (fst kv) "__postmessagetrackername__") = true) props))
      else hthrow "TypeError"
  | _ => hret listener
  end.

(** The end of [unwrap]: a bound function is labelled with its name. *)
Definition label_bound (listener : value) : H value :=
  if truthy listener && truthy (get_prop listener "name") then
    match get_prop listener "name" with
    | VStr name =>
        if String.prefix "bound " name then set_tracker_name listener name
        else hret listener
    | _ => hthrow "TypeError"
    end
  else hret listener.

(** [unwrap], with the counter [offset] of the enclosing scope passed
    along.  The script runs in strict mode, where [arguments.callee]
    throws: the two [try] blocks of the Bugsnag cases do nothing. *)
Fixpoint unwrap (listener : value) : nat -> H (value * nat) :=
  fun offset =>
    let found := c listener in
    match found with
    | Some kind => hemit (PostToBridge (log_msg ("Unwrapping " +:+ kind +:+ " wrapper")))
    | None => hret tt
    end;;
    let* unwrapped :=
      match listener with
      | VObject _ _ _ _ _ props =>
          let inner := map (fun kv => (fst kv, (snd kv, unwrap (snd kv)))) props in
          let unwrap_prop key off :=
            match lookup_inner key inner with
            | Some (_, rec) => rec off
            | None => hret (VUndefined, off)
            end in
          if bool_decide (found = Some "raven") then
            match filter (fun vr => is_function (fst vr) = true) (map snd inner) with
            | [(_, rec)] => rec (S offset)
            | _ => hret (listener, offset)
            end
          else if bool_decide (found = Some "newrelic") then
            unwrap_prop "nr@original" (S offset)
          else if bool_decide (found = Some "sentry") then
            unwrap_prop "__sentry_original__" (S offset)
          else if bool_decide (found = Some "rollbar") then
            if truthy (get_prop listener "_wrapped") then
              unwrap_prop "_wrapped" (S (S offset))
            else if truthy (get_prop listener "_rollbar_wrapped") then
              unwrap_prop "_rollbar_wrapped" (S (S offset))
            else hret (listener, S (S offset))
          else if bool_decide (found = Some "bugsnag") then
            hret (listener, S offset)
          else if bool_decide (found = Some "bugsnag2") then
            hret (listener, S offset)
          else hret (listener, offset)
      | _ => hret (listener, offset)
      end in
    let* labelled := label_bound (fst unwrapped) in
    hret (labelled, snd unwrapped).

(** What the hook finds in the page: whether the jQuery scan has run, the
    stack of a fresh [Error] ([error.stack || '']), the label of the window,
    the frame path [h()], [document.domain], and the native
    [addEventListener] it replaced. *)
Record PageEnv : Type := MkPageEnv {
  loaded : bool;
  error_stack : string;
  window_label : string;
  hops : string;
  document_domain : string;
  originalAddEventListener : string -> value -> value -> Outcome value
}.

(** [s.split(sep)]. *)
Fixpoint split_on (sep : ascii) (s : string) : list string :=
  match s with
  | EmptyString => [EmptyString]
  | String ch s' =>
      if Ascii.eqb ch sep then EmptyString :: split_on sep s'
      else match split_on sep s' with
           | first :: others => String ch first :: others
           | [] => [String ch EmptyString]
           end
  end.

Fixpoint drop_spaces (s : string) : string :=
  match s with
  | String ch s' => if Js.is_space ch then drop_spaces s' else s
  | EmptyString => EmptyString
  end.

(** [s.trim()]. *)
Definition trim (s : string) : string :=
  String.rev (drop_spaces (String.rev (drop_spaces s))).

(** [lines.join(' ')]. *)
Fixpoint join_spaces (lines : list string) : string :=
  match lines with
  | [] => EmptyString
  | [line] => line
  | line :: rest => line +:+ " " +:+ join_spaces rest
  end.

(** The text up to the first line terminator: what [.*] can run over. *)
Definition same_line (s : string) : string :=
  fst (Js.span (fun ch => negb (Ascii.eqb ch "010") && negb (Ascii.eqb ch "013")) s).

(** [e.match(/init\.on|init\..*on\]/)] as a truth value. *)
Fixpoint matches_init_on (e : string) : bool :=
  match Js.strip_prefix "init." e with
  | Some r => String.prefix "on" r || Js.includes (same_line r) "on]"
  | None => false
  end ||
  match e with
  | EmptyString => false
  | String _ e' => matches_init_on e'
  end.

(** The filter of [l]: the lines that directly follow a matching line. *)
Fixpoint lines_after_match (nextitem : bool) (stack : list string) : list string :=
  match stack with
  | [] => []
  | e :: rest =>
      if nextitem then e :: lines_after_match false rest
      else lines_after_match (matches_init_on e) rest
  end.

(** [m] applied to a listener record. *)
Definition post_listener (env : PageEnv) (stack : option string)
    (fullstack : list string) (listener_str : value) : H unit :=
  if cloneable listener_str then
    hemit (PostListener (window_label env) (hops env) (document_domain env)
             stack fullstack listener_str)
  else hthrow "DataCloneError".

(** [l]: locate the call site and report the listener. *)
Definition l (env : PageEnv) (listener : value) (pattern_before : bool)
    (additional_offset : nat) : H unit :=
  let offset := (3 + additional_offset)%nat in
  let stack := map trim (split_on "010" (error_stack env)) in
  let fullstack := stack in
  if isFromExtension listener (join_spaces fullstack) then hret tt
  else
    let stack_line :=
      if pattern_before then head (lines_after_match false stack)
      else stack !! offset in
    let* listener_str :=
      match listener with
      | VUndefined | VNull => hthrow "TypeError"
      | _ =>
          if truthy (get_prop listener "__postmessagetrackername__")
          then hret (get_prop listener "__postmessagetrackername__")
          else let* text := call_toString listener in hret (VStr text)
      end in
    post_listener env stack_line fullstack listener_str.

(** [originalAddEventListener.apply(this, arguments)]. *)
Definition call_original (env : PageEnv) (type : string) (listener useCapture : value)
  : H value :=
  hemit (CallOriginal type listener useCapture);;
  match originalAddEventListener env type listener useCapture with
  | Returned v => hret v
  | Thrown error => hthrow error
  end.

(** The replacement of [Window.prototype.addEventListener].  The script is
    in strict mode, so [arguments] keeps the caller's values when the
    parameter [listener] is reassigned. *)
Definition addEventListener (env : PageEnv) (type : string) (listener useCapture : value)
  : H value :=
  if String.eqb type "message" then
    if isExtensionListener listener then call_original env type listener useCapture
    else
      let* pattern_before :=
        (if truthy listener then
           let* text := call_toString listener in
           if Js.includes text "event.dispatch.apply" then
             (if loaded env then hemit SetTimeout_j else hret tt);;
             hret true
           else hret false
         else hret false) in
      (if is_function listener then
         let* unwrapped := unwrap listener 0 in
         l env (fst unwrapped) pattern_before (snd unwrapped)
       else hret tt);;
      call_original env type listener useCapture
  else call_original env type listener useCapture.

End MainWorld.

(* ================================================================== *)
(** * A model of the platform's URL parser for http and https URLs *)
(* ================================================================== *)

(** The URL parser of the platform follows the WHATWG URL standard.  The
    model below covers absolute [http] and [https] URLs whose host is a
    plain domain name; on everything else it answers [Unsupported] instead
    of guessing.  It is used to evaluate [cleanUrl] on concrete URLs; the
    properties of the tracking store hold for every [Platform]. *)
Module Whatwg.

Inductive Parse : Type :=
| Parsed (u : URL)
| Failure
| Unsupported.

Definition code (ch : ascii) : nat := nat_of_ascii ch.

Definition is_c0_or_space (ch : ascii) : bool := (code ch <=? 32)%nat.

Definition is_tab_or_newline (ch : ascii) : bool :=
  (code ch =? 9)%nat || (code ch =? 10)%nat || (code ch =? 13)%nat.

Definition is_upper (ch : ascii) : bool := (65 <=? code ch)%nat && (code ch <=? 90)%nat.
Definition is_lower (ch : ascii) : bool := (97 <=? code ch)%nat && (code ch <=? 122)%nat.
Definition is_alpha (ch : ascii) : bool := is_upper ch || is_lower ch.
Definition is_alnum (ch : ascii) : bool := is_alpha ch || Js.is_digit ch.

Definition lower (ch : ascii) : ascii :=
  if is_upper ch then ascii_of_nat (code ch + 32) else ch.

Fixpoint map_string (f : ascii -> ascii) (s : string) : string :=
  match s with
  | EmptyString => EmptyString
  | String ch s' => String (f ch) (map_string f s')
  end.

Fixpoint filter_string (p : ascii -> bool) (s : string) : string :=
  match s with
  | EmptyString => EmptyString
  | String ch s' => if p ch then String ch (filter_string p s') else filter_string p s'
  end.

Fixpoint drop_while (p : ascii -> bool) (s : string) : string :=
  match s with
  | String ch s' => if p ch then drop_while p s' else s
  | EmptyString => EmptyString
  end.

Fixpoint all_chars (p : ascii -> bool) (s : string) : bool :=
  match s with
  | EmptyString => true
  | String ch s' => p ch && all_chars p s'
  end.

(** Leading and trailing C0 controls and spaces are removed, then every
    tab and newline. *)
Definition preprocess (input : string) : string :=
  filter_string (fun ch => negb (is_tab_or_newline ch))
    (String.rev (drop_while is_c0_or_space (String.rev (drop_while is_c0_or_space input)))).

(** Scheme state: the rest of the scheme, lower-cased, up to the colon. *)
Fixpoint scheme_tail (s : string) : option (string * string) :=
  match s with
  | EmptyString => None
  | String ch s' =>
      if Ascii.eqb ch ":" then Some (EmptyString, s')
      else if is_alnum ch || Ascii.eqb ch "+" || Ascii.eqb ch "-" || Ascii.eqb ch "."
      then match scheme_tail s' with
           | Some (sch, rest) => Some (String (lower ch) sch, rest)
           | None => None
           end
      else None
  end.

(** Scheme start state and scheme state; without a base URL a missing
    scheme is a failure. *)
Definition parse_scheme (s : string) : option (string * string) :=
  match s with
  | String ch s' =>
      if is_alpha ch then
        match scheme_tail s' with
        | Some (sch, rest) => Some (String (lower ch) sch, rest)
        | None => None
        end
      else None
  | EmptyString => None
  end.

Definition is_slash (ch : ascii) : bool := Ascii.eqb ch "/" || Ascii.eqb ch "\".

Definition ends_authority (ch : ascii) : bool :=
  is_slash ch || Ascii.eqb ch "?" || Ascii.eqb ch "#".

(** The text after the last [@], and whether there was one. *)
Fixpoint after_last_at (s : string) : option string :=
  match s with
  | EmptyString => None
  | String ch s' =>
      match after_last_at s' with
      | Some r => Some r
      | None => if Ascii.eqb ch "@" then Some s' else None
      end
  end.

(** [s] split at its first [sep]. *)
Fixpoint split_first (sep : ascii) (s : string) : string * option string :=
  match s with
  | EmptyString => (EmptyString, None)
  | String ch s' =>
      if Ascii.eqb ch sep then (EmptyString, Some s')
      else let '(a, b) := split_first sep s' in (String ch a, b)
  end.

Fixpoint split_all (sep : ascii -> bool) (s : string) : list string :=
  match s with
  | EmptyString => [EmptyString]
  | String ch s' =>
      if sep ch then EmptyString :: split_all sep s'
      else match split_all sep s' with
           | first :: others => String ch first :: others
           | [] => [String ch EmptyString]
           end
  end.

(** The hosts the model covers: labels of letters, digits and hyphens,
    none empty, none starting with [xn--], the last one starting with a
    letter (so that it is not taken for a number). *)
Definition plain_label (label : string) : bool :=
  match label with
  | EmptyString => false
  | _ => all_chars (fun ch => is_alnum ch || Ascii.eqb ch "-") label
         && negb (String.prefix "xn--" (map_string lower label))
  end.

Definition starts_with_alpha (label : string) : bool :=
  match label with
  | String ch _ => is_alpha ch
  | EmptyString => false
  end.

Definition plain_host (host : string) : bool :=
  let labels := split_all (fun ch => Ascii.eqb ch ".") host in
  forallb plain_label labels && starts_with_alpha (List.last labels EmptyString).

Fixpoint decimal (digits : string) (acc : N) : N :=
  match digits with
  | EmptyString => acc
  | String ch s' => decimal s' (acc * 10 + N.of_nat (code ch - 48))%N
  end.

(** Port state: digits only, and at most 65535. *)
Definition valid_port (port : string) : bool :=
  all_chars Js.is_digit port && (decimal port 0 <=? 65535)%N.

Definition hex_digit (n : nat) : ascii :=
  if (n <? 10)%nat then ascii_of_nat (48 + n) else ascii_of_nat (55 + n).

Definition percent_byte (n : nat) : string :=
  String "%" (String (hex_digit (n / 16)) (String (hex_digit (n mod 16)) EmptyString)).

(** The path percent-encode set, for code units below 256. *)
Definition in_path_encode_set (ch : ascii) : bool :=
  let n := code ch in
  (n <=? 32)%nat || (126 <? n)%nat ||
  Ascii.eqb ch "034" || Ascii.eqb ch "#" || Ascii.eqb ch "<" || Ascii.eqb ch ">" ||
  Ascii.eqb ch "?" || Ascii.eqb ch "`" || Ascii.eqb ch "{" || Ascii.eqb ch "}".

(** UTF-8 percent-encoding of one code unit. *)
Definition percent_encode_char (ch : ascii) : string :=
  let n := code ch in
  if in_path_encode_set ch then
    if (n <? 128)%nat then percent_byte n
    else percent_byte (192 + n / 64) +:+ percent_byte (128 + n mod 64)
  else String ch EmptyString.

Fixpoint percent_encode (s : string) : string :=
  match s with
  | EmptyString => EmptyString
  | String ch s' => percent_encode_char ch +:+ percent_encode s'
  end.

Definition is_single_dot (segment : string) : bool :=
  let seg := map_string lower segment in
  String.eqb seg "." || String.eqb seg "%2e".

Definition is_double_dot (segment : string) : bool :=
  let seg := map_string lower segment in
  String.eqb seg ".." || String.eqb seg ".%2e" || String.eqb seg "%2e."
  || String.eqb seg "%2e%2e".

(** Path state: the segments are taken from left to right; [path] is the
    path built so far. *)
Fixpoint path_state (segments : list string) (path : list string) : list string :=
  match segments with
  | [] => path
  | segment :: rest =>
      let buffer := percent_encode segment in
      let is_last := match rest with [] => true | _ => false end in
      let path' :=
        if is_double_dot buffer then
          (if is_last then removelast path ++ [EmptyString] else removelast path)
        else if is_single_dot buffer then
          (if is_last then path ++ [EmptyString] else path)
        else path ++ [buffer] in
      path_state rest path'
  end.

(** The [pathname] getter for a URL whose path is a list of segments. *)
Fixpoint serialize_path (path : list string) : string :=
  match path with
  | [] => EmptyString
  | segment :: rest => "/" +:+ segment +:+ serialize_path rest
  end.

(** Path start state and path state for a special scheme: a leading slash
    or backslash opens the path, [?] or [#] closes it. *)
Definition parse_path (rest : string) : string :=
  let path_input :=
    fst (Js.span (fun ch => negb (Ascii.eqb ch "?") && negb (Ascii.eqb ch "#")) rest) in
  let body :=
    match path_input with
    | String ch s' => if is_slash ch then s' else path_input
    | EmptyString => EmptyString
    end in
  serialize_path (path_state (split_all is_slash body) []).

(** The parser, for an input without a base URL. *)
Definition parse (input : string) : Parse :=
  match parse_scheme (preprocess input) with
  | None => Failure
  | Some (scheme, remaining) =>
      if String.eqb scheme "http" || String.eqb scheme "https" then
        let '(authority, rest) :=
          Js.span (fun ch => negb (ends_authority ch)) (drop_while is_slash remaining) in
        let hostport :=
          match after_last_at authority with
          | Some r => r
          | None => authority
          end in
        let '(host, port) := split_first ":" hostport in
        match host with
        | EmptyString => Failure
        | _ =>
            if negb (plain_host host) then Unsupported
            else if negb (valid_port (default EmptyString port)) then Failure
            else if negb (all_chars (fun ch => negb (Ascii.eqb ch "^")) rest) then Unsupported
            else Parsed (MkURL (scheme +:+ ":") (map_string lower host) (parse_path rest))
        end
      else Unsupported
  end.

Definition URL_new (input : string) : option URL :=
  match parse input with
  | Parsed u => Some u
  | _ => None
  end.

End Whatwg.

(* ================================================================== *)
(** * A model of the platform's regular expressions for literal patterns *)
(* ================================================================== *)

(** A pattern without syntax characters matches its own text; with the
    flag [i], letters are compared after [Canonicalize] (upper-casing).  A
    pattern that begins with a quantifier is a [SyntaxError].  Other
    patterns are [NotCovered]. *)
Module Ecma.

Inductive Regex : Type :=
| Literal (text : string) (ignoreCase : bool).

Inductive Compile : Type :=
| Compiled (r : Regex)
| SyntaxError
| NotCovered.

Definition is_syntax_char (ch : ascii) : bool :=
  existsb (Ascii.eqb ch)
    ["^"; "$"; "\"; "."; "*"; "+"; "?"; "("; ")"; "["; "]"; "{"; "}"; "|"]%char.

Definition is_quantifier (ch : ascii) : bool :=
  Ascii.eqb ch "*" || Ascii.eqb ch "+" || Ascii.eqb ch "?".

(** [Canonicalize] for code units below 256, without the [u] flag. *)
Definition canonicalize (ch : ascii) : ascii :=
  let n := nat_of_ascii ch in
  if ((97 <=? n)%nat && (n <=? 122)%nat)
     || ((224 <=? n)%nat && (n <=? 254)%nat && negb (n =? 247)%nat)
  then ascii_of_nat (n - 32) else ch.

Fixpoint matches_at (ignoreCase : bool) (pattern s : string) : bool :=
  match pattern, s with
  | EmptyString, _ => true
  | String p pattern', String ch s' =>
      (if ignoreCase then Ascii.eqb (canonicalize p) (canonicalize ch) else Ascii.eqb p ch)
      && matches_at ignoreCase pattern' s'
  | String _ _, EmptyString => false
  end.

Fixpoint search (ignoreCase : bool) (pattern s : string) : bool :=
  matches_at ignoreCase pattern s ||
  match s with
  | EmptyString => false
  | String _ s' => search ignoreCase pattern s'
  end.

Definition compile (pattern flags : string) : Compile :=
  if negb (String.eqb flags "i" || String.eqb flags "") then NotCovered
  else
    match pattern with
    | String ch _ =>
        if is_quantifier ch then SyntaxError
        else if Whatwg.all_chars (fun ch => negb (is_syntax_char ch)) pattern
        then Compiled (Literal pattern (String.eqb flags "i"))
        else NotCovered
    | EmptyString => Compiled (Literal EmptyString (String.eqb flags "i"))
    end.

Definition RegExp_new (pattern flags : string) : option Regex :=
  match compile pattern flags with
  | Compiled r => Some r
  | _ => None
  end.

Definition RegExp_test (r : Regex) (s : string) : bool :=
  match r with
  | Literal text ignoreCase => search ignoreCase text s
  end.

End Ecma.

(** The platform as far as the two models cover it.  An input outside
    their coverage is answered as if the platform rejected it, which a
    browser need not do: the general properties are stated for every
    [Platform], and this instance serves to run the scripts on inputs that
    the models cover. *)
Definition reference_platform : Platform :=
  Build_Platform Whatwg.URL_new Ecma.Regex Ecma.RegExp_new Ecma.RegExp_test.

(* ================================================================== *)
(** * The popup's block lists: export and import *)
(* ================================================================== *)

Module Popup.

(** JSON values.  An object is the list of its members in enumeration
    order. *)
Inductive json : Type :=
| JNull
| JBool (b : bool)
| JNumber (n : Z)
| JString (s : string)
| JArray (items : list json)
| JObject (members : list (string * json)).

(** [JSON_stringify v] is [JSON.stringify(v, null, 2)]; [JSON_parse text]
    is [JSON.parse(text)], [None] when it throws. *)
Class Json : Type := {
  JSON_stringify : json -> string;
  JSON_parse : string -> option json
}.

Inductive Effect : Type :=
| StorageSetBlocklists (blockedListeners blockedUrls : list json)
| StorageSetBlockedRegex (blockedRegex : list json)
| Download (filename content : string)
| ConsoleWarn (pattern : json)
| ConsoleLog (text : string).

(** What an import hands to its callback: an error or a message. *)
Inductive Callback : Type :=
| CallbackError (message : string)
| CallbackOk (message : string).

Section WithPlatform.
Context `{Platform} `{Json}.

(** The block lists kept by [PopupStorage]; their elements are whatever the
    settings storage or an imported file holds. *)
Record Storage : Type := MkStorage {
  blockedListeners : list json;
  blockedUrls : list json;
  blockedRegex : list json;
  compiledRegex : list (json * RegExp)
}.

(** [PopupStorage.cleanUrl]: the popup's own copy of the background
    script's function. *)
Definition cleanUrl (url : string) : string :=
  match url with
  | EmptyString => url
  | _ =>
      match URL_new url with
      | Some urlObj => protocol urlObj +:+ "//" +:+ hostname urlObj +:+ pathname urlObj
      | None => Js.before "#" (Js.before "?" url)
      end
  end.

(** [ToString] of a JSON value, as [new RegExp(pattern, 'i')] applies it
    to a pattern. *)
Fixpoint to_text (v : json) : string :=
  match v with
  | JNull => "null"
  | JBool b => if b then "true" else "false"
  | JNumber n => pretty n
  | JString s => s
  | JArray items =>
      (fix join (l : list json) : string :=
         match l with
         | [] => EmptyString
         | [x] => match x with JNull => EmptyString | _ => to_text x end
         | x :: rest => match x with JNull => EmptyString | _ => to_text x end
                        +:+ "," +:+ join rest
         end) items
  | JObject _ => "[object Object]"
  end.

Fixpoint compile_patterns (patterns : list json) : list (json * RegExp) * list Effect :=
  match patterns with
  | [] => ([], [])
  | pattern :: rest =>
      let '(compiled, warnings) := compile_patterns rest in
      match RegExp_new (to_text pattern) "i" with
      | Some regex => ((pattern, regex) :: compiled, warnings)
      | None => (compiled, ConsoleWarn pattern :: warnings)
      end
  end.

(** [this.blockedRegex = patterns; this.compileRegexPatterns();
    storage.local.set(...)]. *)
Definition saveRegexPatterns (patterns : list json) (st : Storage) : Storage * list Effect :=
  let '(compiled, warnings) := compile_patterns patterns in
  (MkStorage (blockedListeners st) (blockedUrls st) patterns compiled,
   warnings ++ [ConsoleLog (pretty (length compiled)); StorageSetBlockedRegex patterns]).

Definition saveBlocklists (st : Storage) : list Effect :=
  [StorageSetBlocklists (blockedListeners st) (blockedUrls st)].

(** The object built by an export: the list under its own key, the export
    date and the version. *)
Definition export_object (listKind : string) (list : list json) (exportDate : string) : json :=
  JObject [(listKind, JArray list);
           ("exportDate", JString exportDate);
           ("version", JString "1.0")].

Definition exportData (data : json) (filename : string) : list Effect :=
  [Download filename (JSON_stringify data)].

Definition exportBlockedUrls (exportDate : string) (st : Storage) : list Effect :=
  exportData (export_object "blockedUrls" (blockedUrls st) exportDate)
    "fancytracker-blocked-urls.json".

Definition exportBlockedListeners (exportDate : string) (st : Storage) : list Effect :=
  exportData (export_object "blockedListeners" (blockedListeners st) exportDate)
    "fancytracker-blocked-listeners.json".

Definition exportBlockedRegex (exportDate : string) (st : Storage) : list Effect :=
  exportData (export_object "blockedRegex" (blockedRegex st) exportDate)
    "fancytracker-blocked-regex.json".

(** [data[key]] when it is an array: the test
    [data[key] && Array.isArray(data[key])] of the import functions.  The
    outer [None] is the [TypeError] of reading a property of [null].  Of
    the members of a text that repeats a name, [JSON.parse] keeps the last
    one. *)
Definition array_member (key : string) (data : json) : option (option (list json)) :=
  match data with
  | JNull => None
  | JObject members =>
      match MainWorld.lookup_inner key (rev members) with
      | Some (JArray items) => Some (Some items)
      | _ => Some None
      end
  | _ => Some None
  end.

(** The common shape of the three import functions: [importData] parses
    the text of the file; an exception thrown while the data is handled is
    caught by [importData] and reported like a parse error. *)
Definition import_with (key : string) (text : string)
    (store : list json -> Storage -> Storage * list Effect)
    (describe : nat -> string) (st : Storage)
  : Storage * list Effect * Callback :=
  match JSON_parse text with
  | None => (st, [], CallbackError "SyntaxError")
  | Some data =>
      match array_member key data with
      | None => (st, [], CallbackError "TypeError")
      | Some None => (st, [], CallbackError "Invalid file format")
      | Some (Some items) =>
          let '(st', effects) := store items st in
          (st', effects, CallbackOk (describe (length items)))
      end
  end.

Definition importBlockedUrls (text : string) (st : Storage) : Storage * list Effect * Callback :=
  import_with "blockedUrls" text
    (fun items st =>
       let st' := MkStorage (blockedListeners st) items (blockedRegex st) (compiledRegex st) in
       (st', saveBlocklists st'))
    (fun n => "Imported " +:+ pretty n +:+ " blocked URLs") st.

Definition importBlockedListeners (text : string) (st : Storage) : Storage * list Effect * Callback :=
  import_with "blockedListeners" text
    (fun items st =>
       let st' := MkStorage items (blockedUrls st) (blockedRegex st) (compiledRegex st) in
       (st', saveBlocklists st'))
    (fun n => "Imported " +:+ pretty n +:+ " blocked listeners") st.

Definition importBlockedRegex (text : string) (st : Storage) : Storage * list Effect * Callback :=
  import_with "blockedRegex" text saveRegexPatterns
    (fun n => "Imported " +:+ pretty n +:+ " regex patterns") st.

(** The text an export hands to the browser for download. *)
Definition downloaded (effects : list Effect) : option string :=
  match effects with
  | [Download _ content] => Some content
  | _ => None
  end.

(** ** Regex text, block tests and block-list edits *)

(** [parseRegexText]: one pattern per line, trimmed, empty lines left
    out. *)
Definition parseRegexText (text : string) : list string :=
  filter (fun line => (0 < String.length line)%nat)
    (map MainWorld.trim (MainWorld.split_on "010" text)).

(** [patterns.join('\n')]: the text the regex editor of the popup shows
    for the saved patterns. *)
Fixpoint regexText (patterns : list string) : string :=
  match patterns with
  | [] => EmptyString
  | [pattern] => pattern
  | pattern :: rest => pattern +:+ String "010" (regexText rest)
  end.

(** Truthiness of a JSON value. *)
Definition truthy (v : json) : bool :=
  match v with
  | JNull => false
  | JBool b => b
  | JNumber n => negb (n =? 0)%Z
  | JString s => negb (String.eqb s "")
  | JArray _ | JObject _ => true
  end.

(** [v === s] for a string [s]. *)
Definition is_string (s : string) (v : json) : bool :=
  match v with
  | JString t => String.eqb t s
  | _ => false
  end.

(** [list.includes(s)] for a string [s]. *)
Definition includes (list : list json) (s : string) : bool := existsb (is_string s) list.

(** The popup's own copy of [extractJsUrlFromStack]. *)
Definition clean_candidate (url : string) : option string :=
  match cleanUrl (Js.strip_line (Js.strip_line_col url)) with
  | EmptyString => None
  | u => Some u
  end.

Definition extractJsUrlFromLine (line : string) : option string :=
  match Js.first_some (fun m => clean_candidate (Js.slice_1_m1 m)) (Js.match_paren_urls line) with
  | Some url => Some url
  | None => Js.first_some clean_candidate (Js.match_bare_urls line)
  end.

Definition extractJsUrlFromStack (stack : option string) (fullstack : option (list string))
  : option string :=
  Js.first_some extractJsUrlFromLine
    (match fullstack with
     | Some lines => lines
     | None => match stack with
               | Some (String c s) => [String c s]
               | _ => []
               end
     end).

(** [isListenerMatchedByRegex]: the pattern of the first compiled
    expression that matches the code, [None] for [null]. *)
Definition isListenerMatchedByRegex (st : Storage) (l : Background.Msg) : option json :=
  match Background.listener l with
  | Some (String c code) =>
      fst <$> List.find (fun compiled => RegExp_test (snd compiled) (String c code))
                (compiledRegex st)
  | _ => None
  end.

(** Why a record is blocked: the [type] and [value] of the object that
    [isListenerBlocked] returns. *)
Inductive BlockReason : Type :=
| ByListener (code : string)
| ByUrl (url : string)
| ByRegex (pattern : json).

(** [isListenerBlocked]; [None] is [null]. *)
Definition isListenerBlocked (st : Storage) (l : Background.Msg) : option BlockReason :=
  let by_listener :=
    match Background.listener l with
    | Some code => if includes (blockedListeners st) code then Some (ByListener code) else None
    | None => None
    end in
  let by_url :=
    match extractJsUrlFromStack (Background.stack l) (Background.fullstack l) with
    | Some jsUrl => if includes (blockedUrls st) jsUrl then Some (ByUrl jsUrl) else None
    | None => None
    end in
  let by_regex :=
    match isListenerMatchedByRegex st l with
    | Some matchedPattern =>
        if truthy matchedPattern then Some (ByRegex matchedPattern) else None
    | None => None
    end in
  match by_listener, by_url with
  | Some reason, _ => Some reason
  | None, Some reason => Some reason
  | None, None => by_regex
  end.

(** [addToBlocklist(type, value)]. *)
Definition addToBlocklist (type value : string) (st : Storage) : Storage * list Effect :=
  let st' :=
    if String.eqb type "listener" && negb (includes (blockedListeners st) value) then
      MkStorage (blockedListeners st ++ [JString value]) (blockedUrls st)
        (blockedRegex st) (compiledRegex st)
    else if String.eqb type "url" && negb (includes (blockedUrls st) value) then
      let cleanedUrl := cleanUrl value in
      if negb (String.eqb cleanedUrl "") && negb (includes (blockedUrls st) cleanedUrl) then
        MkStorage (blockedListeners st) (blockedUrls st ++ [JString cleanedUrl])
          (blockedRegex st) (compiledRegex st)
      else st
    else st in
  (st', saveBlocklists st').

(** [removeFromBlocklist(type, value)]. *)
Definition removeFromBlocklist (type value : string) (st : Storage) : Storage * list Effect :=
  let st' :=
    if String.eqb type "listener" then
      MkStorage (List.filter (fun v => negb (is_string value v)) (blockedListeners st))
        (blockedUrls st) (blockedRegex st) (compiledRegex st)
    else if String.eqb type "url" then
      let cleanedUrl := cleanUrl value in
      MkStorage (blockedListeners st)
        (List.filter (fun v => negb (is_string cleanedUrl v)) (blockedUrls st))
        (blockedRegex st) (compiledRegex st)
    else st in
  (st', saveBlocklists st').

End WithPlatform.

End Popup.

(* ================================================================== *)
(** * A model of [JSON.stringify(v, null, 2)] and [JSON.parse] *)
(* ================================================================== *)

(** The printer follows [JSON.stringify] with an indentation of two
    spaces.  The parser accepts the JSON grammar except that numbers are
    integers without exponent and a [\u] escape must denote a code unit
    below 256; on other texts it gives [None]. *)
Module JsonText.

Import Popup.

Definition quote_char : ascii := "034".
Definition newline : string := String "010" EmptyString.

Definition hex_lower (n : nat) : ascii :=
  if (n <? 10)%nat then ascii_of_nat (48 + n) else ascii_of_nat (87 + n).

(** [QuoteJSONString] on one code unit. *)
Definition escape_char (ch : ascii) : string :=
  let n := nat_of_ascii ch in
  if Ascii.eqb ch quote_char then String "\" (String quote_char EmptyString)
  else if Ascii.eqb ch "\" then "\\"
  else if (n =? 8)%nat then "\b"
  else if (n =? 9)%nat then "\t"
  else if (n =? 10)%nat then "\n"
  else if (n =? 12)%nat then "\f"
  else if (n =? 13)%nat then "\r"
  else if (n <? 32)%nat then
    "\u00" +:+ String (hex_lower (n / 16)) (String (hex_lower (n mod 16)) EmptyString)
  else String ch EmptyString.

Fixpoint escape (s : string) : string :=
  match s with
  | EmptyString => EmptyString
  | String ch s' => escape_char ch +:+ escape s'
  end.

Definition quote (s : string) : string :=
  String quote_char (escape s +:+ String quote_char EmptyString).

Fixpoint spaces (n : nat) : string :=
  match n with
  | O => EmptyString
  | S n' => String " " (spaces n')
  end.

(** Items joined by a comma and a new line at the given indentation. *)
Fixpoint join_lines (indent : nat) (items : list string) : string :=
  match items with
  | [] => EmptyString
  | [item] => item
  | item :: rest => item +:+ "," +:+ newline +:+ spaces indent +:+ join_lines indent rest
  end.

(** [SerializeJSONProperty] with a gap of two spaces; [indent] is the
    current indentation. *)
Fixpoint print (indent : nat) (v : json) : string :=
  match v with
  | JNull => "null"
  | JBool b => if b then "true" else "false"
  | JNumber n => pretty n
  | JString s => quote s
  | JArray [] => "[]"
  | JArray items =>
      "[" +:+ newline +:+ spaces (2 + indent)
      +:+ join_lines (2 + indent) (map (print (2 + indent)) items)
      +:+ newline +:+ spaces indent +:+ "]"
  | JObject [] => "{}"
  | JObject members =>
      "{" +:+ newline +:+ spaces (2 + indent)
      +:+ join_lines (2 + indent)
            (map (fun kv => quote (fst kv) +:+ ": " +:+ print (2 + indent) (snd kv)) members)
      +:+ newline +:+ spaces indent +:+ "}"
  end.

Definition stringify (v : json) : string := print 0 v.

(** JSON white space. *)
Definition is_ws (ch : ascii) : bool :=
  let n := nat_of_ascii ch in
  (n =? 32)%nat || (n =? 9)%nat || (n =? 10)%nat || (n =? 13)%nat.

Fixpoint skip_ws (s : string) : string :=
  match s with
  | String ch s' => if is_ws ch then skip_ws s' else s
  | EmptyString => EmptyString
  end.

Definition hex_value (ch : ascii) : option nat :=
  let n := nat_of_ascii ch in
  if (48 <=? n)%nat && (n <=? 57)%nat then Some (n - 48)%nat
  else if (97 <=? n)%nat && (n <=? 102)%nat then Some (n - 87)%nat
  else if (65 <=? n)%nat && (n <=? 70)%nat then Some (n - 55)%nat
  else None.

Definition simple_escape (e : ascii) : option ascii :=
  if Ascii.eqb e quote_char then Some quote_char
  else if Ascii.eqb e "\" then Some "\"%char
  else if Ascii.eqb e "/" then Some "/"%char
  else if Ascii.eqb e "b" then Some "008"%char
  else if Ascii.eqb e "f" then Some "012"%char
  else if Ascii.eqb e "n" then Some "010"%char
  else if Ascii.eqb e "r" then Some "013"%char
  else if Ascii.eqb e "t" then Some "009"%char
  else None.

Definition hex4 (a b c d : ascii) : option nat :=
  match hex_value a, hex_value b, hex_value c, hex_value d with
  | Some x, Some y, Some z, Some w => Some (((x * 16 + y) * 16 + z) * 16 + w)%nat
  | _, _, _, _ => None
  end.

Definition cons_text (ch : ascii) (r : option (string * string)) : option (string * string) :=
  match r with
  | Some (text, rest) => Some (String ch text, rest)
  | None => None
  end.

(** The rest of a string literal after its opening quote: the text it
    denotes and what follows the closing quote. *)
Fixpoint parse_string (s : string) : option (string * string) :=
  match s with
  | EmptyString => None
  | String ch s' =>
      if Ascii.eqb ch quote_char then Some (EmptyString, s')
      else if Ascii.eqb ch "\" then
        match s' with
        | String e s'' =>
            if Ascii.eqb e "u" then
              match s'' with
              | String a (String b (String c (String d rest))) =>
                  match hex4 a b c d with
                  | Some n =>
                      if (n <? 256)%nat then cons_text (ascii_of_nat n) (parse_string rest)
                      else None
                  | None => None
                  end
              | _ => None
              end
            else
              match simple_escape e with
              | Some decoded => cons_text decoded (parse_string s'')
              | None => None
              end
        | EmptyString => None
        end
      else if (nat_of_ascii ch <? 32)%nat then None
      else cons_text ch (parse_string s')
  end.

(** An integer literal: no leading zero, no fraction, no exponent. *)
Definition parse_number (s : string) : option (Z * string) :=
  let '(negative, body) :=
    match s with
    | String ch s' => if Ascii.eqb ch "-" then (true, s') else (false, s)
    | EmptyString => (false, s)
    end in
  let '(digits, rest) := Js.span Js.is_digit body in
  match digits with
  | EmptyString => None
  | String d more =>
      if Ascii.eqb d "0" && negb (String.eqb more EmptyString) then None
      else
        match rest with
        | String ch _ =>
            if Ascii.eqb ch "." || Ascii.eqb ch "e" || Ascii.eqb ch "E" then None
            else Some (let n := Z.of_N (Whatwg.decimal digits 0) in
                       if negative then (- n)%Z else n, rest)
        | EmptyString =>
            Some (let n := Z.of_N (Whatwg.decimal digits 0) in
                  if negative then (- n)%Z else n, rest)
        end
  end.

(** A JSON value and what follows it.  [fuel] bounds the nesting. *)
Fixpoint parse_value (fuel : nat) (s : string) : option (json * string) :=
  match fuel with
  | O => None
  | S fuel' =>
      match skip_ws s with
      | EmptyString => None
      | String ch s' =>
          if Ascii.eqb ch quote_char then
            match parse_string s' with
            | Some (text, rest) => Some (JString text, rest)
            | None => None
            end
          else if Ascii.eqb ch "[" then
            match skip_ws s' with
            | String close rest =>
                if Ascii.eqb close "]" then Some (JArray [], rest)
                else match parse_items fuel' s' with
                     | Some (items, rest') => Some (JArray items, rest')
                     | None => None
                     end
            | EmptyString => None
            end
          else if Ascii.eqb ch "{" then
            match skip_ws s' with
            | String close rest =>
                if Ascii.eqb close "}" then Some (JObject [], rest)
                else match parse_members fuel' s' with
                     | Some (members, rest') => Some (JObject members, rest')
                     | None => None
                     end
            | EmptyString => None
            end
          else
            match Js.strip_prefix "null" (String ch s'),
                  Js.strip_prefix "true" (String ch s'),
                  Js.strip_prefix "false" (String ch s') with
            | Some rest, _, _ => Some (JNull, rest)
            | _, Some rest, _ => Some (JBool true, rest)
            | _, _, Some rest => Some (JBool false, rest)
            | None, None, None =>
                match parse_number (String ch s') with
                | Some (n, rest) => Some (JNumber n, rest)
                | None => None
                end
            end
      end
  end
with parse_items (fuel : nat) (s : string) : option (list json * string) :=
  match fuel with
  | O => None
  | S fuel' =>
      match parse_value fuel' s with
      | None => None
      | Some (item, rest) =>
          match skip_ws rest with
          | String ch rest' =>
              if Ascii.eqb ch "]" then Some ([item], rest')
              else if Ascii.eqb ch "," then
                match parse_items fuel' rest' with
                | Some (items, rest'') => Some (item :: items, rest'')
                | None => None
                end
              else None
          | EmptyString => None
          end
      end
  end
with parse_members (fuel : nat) (s : string) : option (list (string * json) * string) :=
  match fuel with
  | O => None
  | S fuel' =>
      match skip_ws s with
      | String q s' =>
          if Ascii.eqb q quote_char then
            match parse_string s' with
            | None => None
            | Some (key, rest) =>
                match skip_ws rest with
                | String colon rest' =>
                    if Ascii.eqb colon ":" then
                      match parse_value fuel' rest' with
                      | None => None
                      | Some (v, rest'') =>
                          match skip_ws rest'' with
                          | String ch rest3 =>
                              if Ascii.eqb ch "}" then Some ([(key, v)], rest3)
                              else if Ascii.eqb ch "," then
                                match parse_members fuel' rest3 with
                                | Some (members, rest4) => Some ((key, v) :: members, rest4)
                                | None => None
                                end
                              else None
                          | EmptyString => None
                          end
                      end
                    else None
                | EmptyString => None
                end
            end
          else None
      | EmptyString => None
      end
  end.

(** [JSON.parse]: one value, then only white space. *)
Definition parse (text : string) : option json :=
  match parse_value (S (String.length text)) text with
  | Some (v, rest) =>
      match skip_ws rest with
      | EmptyString => Some v
      | String _ _ => None
      end
  | None => None
  end.

Definition reference_json : Json := Build_Json stringify parse.

End JsonText.

(* ================================================================== *)
(** * Concrete messages and states used in the examples *)
(* ================================================================== *)

Module Examples.

Import Background.

(** A message with every property missing. *)
Definition empty_msg : Msg :=
  MkMsg None false None None None None None None None false false None.

(** A listener record as the page hook reports it. *)
Definition record (code stack_line : string) (lines : list string) (hops domain : string) : Msg :=
  MkMsg None false (Some code) (Some stack_line) (Some lines) (Some hops) (Some domain)
        (Some "top") None false false None.

(** The registration of the deduplication scenario. *)
Definition scenario_record : Msg :=
  record "function(e){console.log(e)}"
         "(https://cdn.example.com/a.js?x=1:10:5)"
         ["(https://cdn.example.com/a.js?x=1:10:5)"]
         "top" "example.com".

(** The signal the hook sends on [history.pushState]. *)
Definition push_msg : Msg :=
  MkMsg None false None None None None None None None true false None.

(** A message carrying the text of a native function. *)
Definition native_msg : Msg :=
  MkMsg None false (Some NATIVE_CODE) (Some "at x (https://a.com/x.js:1:1)") None
        (Some "top") (Some "a.com") (Some "top") None true true None.

(** Two records with the same identity components of which only the first
    mentions a filtered extension in its stack line. *)
Definition filtered_record : Msg :=
  MkMsg None false (Some "function(e){go(e)}") (Some "at wappalyzer (https://a.com/x.js:1:1)")
        (Some ["at f (https://a.com/x.js:1:1)"]) (Some "top") (Some "a.com") (Some "top")
        None false false None.

Definition unfiltered_record : Msg :=
  MkMsg None false (Some "function(e){go(e)}") (Some "at f (https://a.com/x.js:1:1)")
        (Some ["at f (https://a.com/x.js:1:1)"]) (Some "top") (Some "a.com") (Some "top")
        None false false None.

Definition tab7 : Tab := MkTab 7 (Some "https://example.com/").

(** The initial state of the background script on the modelled platform,
    and the same with deduplication switched off. *)
Definition start : @State reference_platform := @initial reference_platform.

Definition start_without_dedupe : @State reference_platform :=
  @set_dedupeEnabled reference_platform false start.

(** A state in which tab 7 holds one record. *)
Definition one_record : @State reference_platform :=
  @exec reference_platform _ (@addListener reference_platform 7 scenario_record) start.



(** The state after the regex list has been changed to an invalid pattern
    followed by ["eval"], and a record whose code spells it in capitals. *)
Definition regex_state : @State reference_platform :=
  @exec reference_platform _
    (@onStorageChanged reference_platform
       (MkChanges None None (Some (Some ["*oops"; "eval"])))) start.

Definition eval_record : Msg :=
  record "function(e){EVAL(e.data)}" "f@https://a.com/x.js:3:7"
         ["f@https://a.com/x.js:3:7"] "top" "a.com".

(** A page in which the native [addEventListener] returns [undefined]. *)
Definition page : MainWorld.PageEnv :=
  MainWorld.MkPageEnv false
    ("Error" +:+ String "010" "l@moz-extension://x/main.js:160:19"
     +:+ String "010" "addEventListener@moz-extension://x/main.js:411:17"
     +:+ String "010" "init@https://shop.example/app.js:12:9"
     +:+ String "010" "@https://shop.example/app.js:40:1")
    "top" "top" "shop.example"
    (fun _ _ _ => MainWorld.Returned MainWorld.VUndefined).

(** An ordinary handler function. *)
Definition plain_handler : MainWorld.value :=
  MainWorld.VObject true "function(e){console.log(e)}"
    (MainWorld.ReturnsString "function(e){console.log(e)}")
    (MainWorld.VStr "onMessage") MainWorld.Extensible [].

(** An event-listener object created without a prototype: it has a
    [handleEvent] method and no [toString]. *)
Definition bare_listener_object : MainWorld.value :=
  MainWorld.VObject false "" MainWorld.ToStringThrows MainWorld.VUndefined
    MainWorld.Extensible [("handleEvent", plain_handler)].

(** A bound function, and the same after [Object.freeze]. *)
Definition bound_handler : MainWorld.value :=
  MainWorld.VObject true "function () { [native code] }"
    (MainWorld.ReturnsString "function () { [native code] }")
    (MainWorld.VStr "bound onMessage") MainWorld.Extensible [].

Definition frozen_bound_handler : MainWorld.value :=
  MainWorld.VObject true "function () { [native code] }"
    (MainWorld.ReturnsString "function () { [native code] }")
    (MainWorld.VStr "bound onMessage") MainWorld.Frozen [].

(** Block lists of a popup, on the modelled platform. *)
Definition popup_lists : @Popup.Storage reference_platform :=
  @Popup.MkStorage reference_platform
    [Popup.JString "function(e){track(e)}"]
    [Popup.JString "https://cdn.example.com/a.js"; Popup.JString "https://b.example/c.js"]
    [Popup.JString "eval"; Popup.JString "*oops"]
    [(Popup.JString "eval", Ecma.Literal "eval" true)].

(** The lists of a fresh installation. *)
Definition popup_empty : @Popup.Storage reference_platform :=
  @Popup.MkStorage reference_platform [] [] [] [].

End Examples.

(* ================================================================== *)
(** * Vocabulary of the properties *)
(* ================================================================== *)

Section Vocabulary.
Context `{Platform}.
Import Background.

(** A status that makes [tabs.onUpdated] take its middle branch: present,
    not empty and not ["complete"]. *)
Definition non_complete (status : option string) : Prop :=
  Js.truthy status = true /\ status <> Some "complete".

(** The history-push signal sent by the page hook: [pushState] is set and
    there is no listener in the message. *)
Definition push_signal (msg : Msg) : Prop :=
  pushState msg = true /\ Js.truthy (listener msg) = false
  /\ action msg <> Some "updateDedupeSetting".

(** The derived identity components of a record: cleaned source URL,
    hops, domain and code. *)
Definition same_identity (r1 r2 : Msg) : Prop :=
  Js.or_else (extractJsUrlFromStack (stack r1) (fullstack r1)) ""
  = Js.or_else (extractJsUrlFromStack (stack r2) (fullstack r2)) ""
  /\ Js.or_else (hops r1) "" = Js.or_else (hops r2) ""
  /\ Js.or_else (domain r1) "" = Js.or_else (domain r2) ""
  /\ Js.or_else (listener r1) "" = Js.or_else (listener r2) "".

(** A record that the extension filter of [addListener] lets through. *)
Definition passes_filter (r : Msg) : Prop :=
  isFromExtension (listener r) (stack r) = false.

(** The record list of a tab, empty when the tab has none yet. *)
Definition records_of (s : State) (tabId : Z) : list Msg :=
  default [] (tab_listeners s !! tabId).

(** The keys against which [addListener] judges a record: the key set of
    the tab, which starts empty when the tab has no record list yet. *)
Definition keys_seen (s : State) (tabId : Z) : gset string :=
  match tab_listeners s !! tabId with
  | Some _ => default ∅ (tab_listener_keys s !! tabId)
  | None => ∅
  end.

(** The state in which [addListener] appends: the missing entries of the
    tab have been created. *)
Definition prepared (tabId : Z) (s : State) : State :=
  let s1 :=
    match tab_listeners s !! tabId with
    | None => set_tab_listener_keys <[tabId := ∅]> (set_tab_listeners <[tabId := []]> s)
    | Some _ => s
    end in
  if dedupeEnabled s1 then
    match tab_listener_keys s1 !! tabId with
    | None => set_tab_listener_keys <[tabId := ∅]> s1
    | Some _ => s1
    end
  else s1.

(** A text that ends with a colon and a number, as a line or column
    suffix does. *)
Definition ends_with_number (u : string) : Prop :=
  exists (v digits : string),
    u = v +:+ ":" +:+ digits /\ digits <> EmptyString
    /\ Whatwg.all_chars Js.is_digit digits = true.

(** A registration of the deduplication scenario: the code, stack line,
    hops and domain are given, the full stack is missing or is that one
    line, the other properties are free. *)
Definition scenario_registration (r : Msg) : Prop :=
  listener r = Some "function(e){console.log(e)}"
  /\ stack r = Some "(https://cdn.example.com/a.js?x=1:10:5)"
  /\ (fullstack r = None \/ fullstack r = Some ["(https://cdn.example.com/a.js?x=1:10:5)"])
  /\ hops r = Some "top"
  /\ domain r = Some "example.com".




(** The compiled patterns are those of the current regex list, as after
    [compileRegexPatterns]. *)
Definition patterns_compiled (s : State) : Prop :=
  compiledRegex s = fst (compile_patterns (blockedRegex s)).

(** Every record of the store has a code: [runtime.onMessage] only hands a
    message with a truthy [listener] to [addListener]. *)
Definition has_code (r : Msg) : Prop := Js.truthy (listener r) = true.

Definition records_have_code (s : State) : Prop :=
  forall (tabId : Z) (records : list Msg) (r : Msg),
    tab_listeners s !! tabId = Some records -> r ∈ records -> has_code r.

End Vocabulary.

Section UrlVocabulary.

(** A character that the path state leaves as it is and that cannot end or
    split a path. *)
Definition path_char (ch : ascii) : bool :=
  negb (Whatwg.in_path_encode_set ch) && negb (Whatwg.is_slash ch)
  && negb (Ascii.eqb ch "^").

(** A character that can stand in a raw path segment of the model. *)
Definition segment_char (ch : ascii) : bool :=
  negb (Whatwg.is_slash ch) && negb (Ascii.eqb ch "^").

(** A segment as the path state stores it: already encoded and neither a
    single-dot nor a double-dot segment. *)
Definition clean_segment (segment : string) : Prop :=
  Whatwg.all_chars path_char segment = true
  /\ Whatwg.is_single_dot segment = false
  /\ Whatwg.is_double_dot segment = false.

(** A character of a plain host. *)
Definition host_char (ch : ascii) : bool :=
  Whatwg.is_alnum ch || Ascii.eqb ch "-" || Ascii.eqb ch ".".

(** [s] has no query string and no fragment: neither [?] nor [#] occurs
    in it. *)
Definition no_query_or_fragment (s : string) : bool :=
  Whatwg.all_chars (fun ch => negb (Ascii.eqb ch "?") && negb (Ascii.eqb ch "#")) s.

(** What the catch branch of [cleanUrl] returns. *)
Definition fallback (url : string) : string := Js.before "#" (Js.before "?" url).

End UrlVocabulary.

Section PopupVocabulary.
Context `{Platform} `{Popup.Json}.
Import Popup.

(** The platform gives back the value it printed. *)
Definition round_trips (v : json) : Prop := JSON_parse (JSON_stringify v) = Some v.

(** The three documents an export of the lists of [st] writes. *)
Definition exports_round_trip (exportDate : string) (st : Storage) : Prop :=
  round_trips (export_object "blockedUrls" (blockedUrls st) exportDate)
  /\ round_trips (export_object "blockedListeners" (blockedListeners st) exportDate)
  /\ round_trips (export_object "blockedRegex" (blockedRegex st) exportDate).

(** The block lists of [st] hold strings only, as the export format has
    them. *)
Definition string_lists (st : Storage) : Prop :=
  exists urls listeners patterns : list string,
    blockedUrls st = map JString urls
    /\ blockedListeners st = map JString listeners
    /\ blockedRegex st = map JString patterns.

(** Each export of the lists of [st] downloads a text, and the import of
    the same kind, run on that text in an installation [st0], succeeds,
    gives [st0] the exported list element by element and in the same
    order, and leaves its other two lists alone; the patterns compiled
    after the import of the regex list are those of the imported list. *)
Definition export_import_restores (exportDate : string) (st st0 : Storage) : Prop :=
  (exists text,
      downloaded (exportBlockedUrls exportDate st) = Some text
      /\ blockedUrls (fst (fst (importBlockedUrls text st0))) = blockedUrls st
      /\ blockedListeners (fst (fst (importBlockedUrls text st0))) = blockedListeners st0
      /\ blockedRegex (fst (fst (importBlockedUrls text st0))) = blockedRegex st0
      /\ exists message, snd (importBlockedUrls text st0) = CallbackOk message)
  /\ (exists text,
        downloaded (exportBlockedListeners exportDate st) = Some text
        /\ blockedListeners (fst (fst (importBlockedListeners text st0))) = blockedListeners st
        /\ blockedUrls (fst (fst (importBlockedListeners text st0))) = blockedUrls st0
        /\ blockedRegex (fst (fst (importBlockedListeners text st0))) = blockedRegex st0
        /\ exists message, snd (importBlockedListeners text st0) = CallbackOk message)
  /\ (exists text,
        downloaded (exportBlockedRegex exportDate st) = Some text
        /\ blockedRegex (fst (fst (importBlockedRegex text st0))) = blockedRegex st
        /\ compiledRegex (fst (fst (importBlockedRegex text st0)))
           = fst (compile_patterns (blockedRegex st))
        /\ blockedUrls (fst (fst (importBlockedRegex text st0))) = blockedUrls st0
        /\ blockedListeners (fst (fst (importBlockedRegex text st0))) = blockedListeners st0
        /\ exists message, snd (importBlockedRegex text st0) = CallbackOk message).

End PopupVocabulary.

Section JsonVocabulary.
Import Popup JsonText.

(** [v] is read back from what is printed for it, at any indentation,
    after any white space and before any text, with fuel [cost]. *)
Definition reads_back (v : json) (cost : nat) : Prop :=
  forall (fuel indent : nat) (ws rest : string),
    cost <= fuel -> Whatwg.all_chars is_ws ws = true ->
    parse_value fuel (ws +:+ print indent v +:+ rest) = Some (v, rest).

End JsonVocabulary.

Section StoreVocabulary.
Context `{Platform}.
Import Background.

(** What the background script reacts to once its state is loaded: a
    message, the tab events, a change of the stored block lists, the
    settings read at start-up, and the delayed runs of [refreshCount] and
    [updateCachedData]. *)
Inductive Incoming : Type :=
| Message (msg : Msg) (sender : option Tab)
| Updated (tabId : Z) (status : option string)
| Activated (tabId : Z)
| Removed (tabId : Z)
| StorageChanged (changes : Changes)
| SettingsLoaded (settings : Settings)
| RefreshCountRuns (env : Env)
| UpdateCachedDataRuns (env : Env)
| Connected (env : Env) (later : Z) (port : nat)
| PortMessage (env : Env) (later : Z) (port : nat)
| Disconnected (port : nat).

Definition handle (e : Incoming) : M unit :=
  match e with
  | Message msg sender => onMessage msg sender
  | Updated tabId status => onUpdated tabId status
  | Activated tabId => onActivated tabId
  | Removed tabId => onRemoved tabId
  | StorageChanged changes => onStorageChanged changes
  | SettingsLoaded settings => loadSettings settings
  | RefreshCountRuns env => refreshCount env
  | UpdateCachedDataRuns env => updateCachedData env
  | Connected env later port => onConnect env later port
  | PortMessage env later port => onPortMessage env later port
  | Disconnected port => onDisconnect port
  end.

(** The state after a sequence of events, each handled to its end. *)
Definition run_events (events : list Incoming) (s : State) : State :=
  fold_left (fun s e => exec (handle e) s) events s.

(** An event that does not switch deduplication off. *)
Definition keeps_dedupe (e : Incoming) : Prop :=
  match e with
  | Message msg _ => action msg = Some "updateDedupeSetting" -> enabled msg = true
  | SettingsLoaded settings => st_dedupeEnabled settings <> Some false
  | _ => True
  end.

(** The identity keys of a list of records. *)
Definition keys_of (records : list Msg) : list string := map generateListenerKey records.

(** The key set of every tab holds exactly the keys of the tab's records,
    and no two records of a tab have the same key. *)
Definition store_consistent (s : State) : Prop :=
  forall tabId : Z,
    keys_seen s tabId = list_to_set (keys_of (records_of s tabId))
    /\ NoDup (keys_of (records_of s tabId)).

(** The ports that are sent a message, each with the table of record
    lists the message carries. *)
Definition posted (effs : list Effect) : list (nat * gmap Z (list Msg)) :=
  omap (fun e => match e with
                 | PortPostMessage port listeners _ _ _ => Some (port, listeners)
                 | _ => None
                 end) effs.

(** The popup cache has been filled: [cachedPopupData.listeners] is the
    object [tab_listeners]. *)
Definition cache_filled (s : State) : Prop :=
  pd_listeners (cachedPopupData s) = TabListenersObject.

(** The cache is filled whenever it names a tab. *)
Definition cache_sound (s : State) : Prop :=
  currentTabId (cachedPopupData s) <> None -> cache_filled s.



End StoreVocabulary.

Section PersistenceVocabulary.
Context `{Platform}.
Import Background.

(** An array written for a key set: the keys of the set, each once, in
    some order. *)
Definition array_of (keys : gset string) (entry : option (list string)) : Prop :=
  exists arr, entry = Some arr /\ arr ≡ₚ elements keys.

(** [snapshot] is what [saveState] writes for the state [s], whatever the
    order in which each key set is listed. *)
Definition saved_as (s : State) (snapshot : Snapshot) : Prop :=
  snap_listeners snapshot = Some (tab_listeners s)
  /\ exists table,
       snap_keys snapshot = Some table
       /\ forall tabId : Z,
            option_Forall2 array_of (tab_listener_keys s !! tabId) (table !! tabId).

End PersistenceVocabulary.

Section PopupBlockVocabulary.
Context `{Platform}.
Import Popup.

(** A line that can stand for a pattern in the regex editor: not empty,
    without white space at either end and without a line break. *)
Definition pattern_line (p : string) : Prop :=
  p <> EmptyString /\ MainWorld.trim p = p
  /\ Whatwg.all_chars (fun ch => negb (Ascii.eqb ch "010")) p = true.

End PopupBlockVocabulary.

Section PopupSyncVocabulary.
Context `{Platform}.

(** The popup holds the block lists of the background script, and both
    have compiled the same patterns. *)
Definition in_sync (s : Background.State) (st : Popup.Storage) : Prop :=
  Popup.blockedListeners st = map Popup.JString (Background.blockedListeners s)
  /\ Popup.blockedUrls st = map Popup.JString (Background.blockedUrls s)
  /\ Popup.compiledRegex st
     = map (fun compiled => (Popup.JString (fst compiled), snd compiled))
         (Background.compiledRegex s).

End PopupSyncVocabulary.

(** Runs of the background script, the popup and the page hook on the
    modelled platform, for the properties below. *)
Module Scenarios.

Import Background Examples.

(** The popup's messages that switch deduplication off and on. *)
Definition dedupe_off : Msg :=
  MkMsg (Some "updateDedupeSetting") false None None None None None None None false false None.

Definition dedupe_on : Msg :=
  MkMsg (Some "updateDedupeSetting") true None None None None None None None false false None.

(** The message the bridge sends when the page unloads. *)
Definition page_change : Msg :=
  MkMsg None false None None None None None None None false true None.

(** An environment in which no tab exists. *)
Definition env_no_tab : Env := MkEnv (fun _ => None) 1000 None.



(** The background script after it has read the lists of [popup_lists]
    from the storage. *)
Definition lists_loaded : @State reference_platform :=
  @exec reference_platform _
    (@onStorageChanged reference_platform
       (MkChanges (Some (Some ["function(e){track(e)}"]))
          (Some (Some ["https://cdn.example.com/a.js"; "https://b.example/c.js"]))
          (Some (Some ["eval"; "*oops"])))) start.

(** A page in which jQuery registers the listener: the frame of the
    caller follows the frame of [init.on]. *)
Definition jquery_page : MainWorld.PageEnv :=
  MainWorld.MkPageEnv true
    ("Error" +:+ String "010" "l@moz-extension://x/main.js:160:19"
     +:+ String "010" "addEventListener@moz-extension://x/main.js:411:17"
     +:+ String "010" "add@https://code.example/jquery.js:2:1"
     +:+ String "010" "jQuery.fn.init.on@https://code.example/jquery.js:5:1"
     +:+ String "010" "  setup@https://shop.example/app.js:7:3")
    "top" "top" "shop.example"
    (fun _ _ _ => MainWorld.Returned MainWorld.VUndefined).

(** The handler jQuery registers for its events. *)
Definition jquery_handler : MainWorld.value :=
  MainWorld.VObject true "function(e){return jQuery.event.dispatch.apply(elem,arguments)}"
    (MainWorld.ReturnsString "function(e){return jQuery.event.dispatch.apply(elem,arguments)}")
    (MainWorld.VStr "") MainWorld.Extensible [].

(** Two registrations of the same code from scripts served on two ports
    of one host. *)
Definition port_record : Msg :=
  record "function(e){console.log(e)}"
         "(https://cdn.example.com:8443/a.js?x=1:10:5)"
         ["(https://cdn.example.com:8443/a.js?x=1:10:5)"]
         "top" "example.com".

Definition other_port_record : Msg :=
  record "function(e){console.log(e)}"
         "(https://cdn.example.com:9443/a.js?x=1:10:5)"
         ["(https://cdn.example.com:9443/a.js?x=1:10:5)"]
         "top" "example.com".

End Scenarios.

Section StackUrlVocabulary.
Context `{Platform}.
Import Background.

(** The two ways a URL of a stack line starts. *)
Definition url_scheme (scheme : string) : Prop :=
  scheme = "http://" \/ scheme = "https://".

(** A character a bare URL goes on with: neither white space nor a
    closing parenthesis. *)
Definition url_char (c : ascii) : bool :=
  negb (Js.is_space c) && negb (Ascii.eqb c ")").

(** The text [s] starts with the parenthesized URL [m]: an opening
    parenthesis, [http://] or [https://], at least one character, none of
    them a closing parenthesis, and a closing parenthesis. *)
Definition parenthesized_url_at (s m : string) : Prop :=
  exists scheme body rest,
    url_scheme scheme /\ body <> EmptyString
    /\ Whatwg.all_chars (fun c => negb (Ascii.eqb c ")")) body = true
    /\ m = "(" +:+ scheme +:+ body +:+ ")"
    /\ s = m +:+ rest.

(** The text [s] starts with the bare URL [m]: [http://] or [https://]
    and the characters that follow up to the first white space or closing
    parenthesis, of which there is at least one. *)
Definition bare_url_at (s m : string) : Prop :=
  exists scheme body rest,
    url_scheme scheme /\ body <> EmptyString
    /\ Whatwg.all_chars url_char body = true
    /\ m = scheme +:+ body
    /\ s = m +:+ rest
    /\ match rest with
       | String c _ => url_char c = false
       | EmptyString => True
       end.

(** [m] is the first text of the kind [at_start] in [line]: it is found
    at some place of the line and nothing of that kind starts to the left
    of that place. *)
Definition first_in (at_start : string -> string -> Prop) (line m : string) : Prop :=
  exists pre post,
    line = pre +:+ m +:+ post
    /\ at_start (m +:+ post) m
    /\ forall a b m', pre = a +:+ b -> b <> EmptyString -> ~ at_start (b +:+ m +:+ post) m'.

(** Nothing of the kind [at_start] starts anywhere in [line]. *)
Definition none_in (at_start : string -> string -> Prop) (line : string) : Prop :=
  forall a b m, line = a +:+ b -> ~ at_start b m.

(** The URL found in a stack line: the first parenthesized URL, without
    its parentheses, when the line has one, and else the first bare
    URL. *)
Definition url_of_line (line url : string) : Prop :=
  first_in parenthesized_url_at line ("(" +:+ url +:+ ")")
  \/ (none_in parenthesized_url_at line /\ first_in bare_url_at line url).

(** A stack line without a URL. *)
Definition no_url_in (line : string) : Prop :=
  none_in parenthesized_url_at line /\ none_in bare_url_at line.

(** The first URL found in a list of stack lines: the URL of the first
    line that has one. *)
Definition first_url_found (lines : list string) (url : string) : Prop :=
  exists before line after,
    lines = before ++ line :: after
    /\ Forall no_url_in before
    /\ url_of_line line url.

(** The rest of the identity key: hops, domain and code, each empty when
    missing, after a separator each. *)
Definition key_tail (r : Msg) : string :=
  "|" +:+ Js.or_else (hops r) "" +:+ "|" +:+ Js.or_else (domain r) ""
  +:+ "|" +:+ Js.or_else (listener r) "".

(** The identity key as the specification words it: the first URL found
    in the stack lines of the record, parenthesized URLs preferred, with
    its line and column removed and cut before its query string and its
    fragment, followed by hops, domain and code. *)
Definition stated_key (r : Msg) (key : string) : Prop :=
  exists url,
    first_url_found (stackLines (stack r) (fullstack r)) url
    /\ key = Js.before "#" (Js.before "?" (Js.strip_line (Js.strip_line_col url)))
             +:+ key_tail r.

End StackUrlVocabulary.

Section HelperVocabulary.
Context `{Platform}.
Import Background.
#[local] Open Scope js_scope.

(** One piece of a deferred helper, from one [await] to the next: handlers
    and pieces of other helpers may run before and after it. *)
Inductive HelperStep : Type :=
| RefreshCountBegins
| RefreshCountResumes (awaited : RefreshCountAwait) (resolved : bool)
| UpdateCachedDataBegins (now : Z)
| UpdateCachedDataResumes (url : option string)
| LogListenerRuns (env : Env) (data : Msg).

Definition run_step (step : HelperStep) : M unit :=
  match step with
  | RefreshCountBegins => refreshCount_begin;; ret tt
  | RefreshCountResumes awaited resolved => refreshCount_resume awaited resolved;; ret tt
  | UpdateCachedDataBegins now => updateCachedData_begin now;; ret tt
  | UpdateCachedDataResumes url => updateCachedData_resume url
  | LogListenerRuns env data => logListener env data
  end.

(** The state after a sequence of helper steps. *)
Definition run_steps (steps : list HelperStep) (s : State) : State :=
  fold_left (fun s step => exec (run_step step) s) steps s.

(** The clean-up of [refreshCount]: it goes on after a call that was
    rejected. *)
Definition is_cleanup (step : HelperStep) : Prop :=
  match step with
  | RefreshCountResumes _ false => True
  | _ => False
  end.

(** A step of [updateCachedData]. *)
Definition writes_cache (step : HelperStep) : Prop :=
  match step with
  | UpdateCachedDataBegins _ | UpdateCachedDataResumes _ => True
  | _ => False
  end.


(** [updateCachedData] run without anything in between. *)
Definition updateCachedData_uninterrupted (env : Env) : M unit :=
  let* asked := updateCachedData_begin (now env) in
  match asked with
  | Some tabId => updateCachedData_resume (tabs_get env tabId)
  | None => ret tt
  end.

(** What can happen between two steps of a helper: an event is handled
    to its end, a helper takes a step, or [initializeServiceWorker] goes
    on after its query for the active tab. *)
Inductive Occurrence : Type :=
| Handles (e : Incoming)
| Steps (step : HelperStep)
| ActiveTabFound (tabs : list Z).

Definition occur (o : Occurrence) : M unit :=
  match o with
  | Handles e => handle e
  | Steps step => run_step step
  | ActiveTabFound tabs => initializeServiceWorker_resume tabs
  end.



(** The events that take the loading mark off a tab: a message of the tab
    that carries [changePage] and is not stopped by the settings branch or
    the native-code guard, the removal of the tab, and a run of
    [refreshCount] that finds the tab selected and gone. *)
Definition removes_loading_mark (e : Incoming) (s : State) (tabId : Z) : Prop :=
  match e with
  | Message msg (Some tab) =>
      tab_id tab = tabId /\ changePage msg = true
      /\ action msg <> Some "updateDedupeSetting"
      /\ listener msg <> Some NATIVE_CODE
  | Removed removed => removed = tabId
  | RefreshCountRuns env =>
      selectedId s = tabId /\ (0 < tabId)%Z /\ tabs_get env tabId = None
  | _ => False
  end.

(** The occurrences that take the loading mark off a tab: the three
    events, and the clean-up of [refreshCount] while the tab is the
    selected one. *)
Definition takes_mark_off (o : Occurrence) (s : State) (tabId : Z) : Prop :=
  match o with
  | Handles e => removes_loading_mark e s tabId
  | Steps step => is_cleanup step /\ selectedId s = tabId
  | ActiveTabFound _ => False
  end.

End HelperVocabulary.

(* ================================================================== *)
(** * Properties of the background script *)
(* ================================================================== *)

Section BackgroundProperties.
Context `{Platform}.
Import Background.
#[local] Open Scope js_scope.

(** Unfolds one handler down to the record of the final state. *)
Ltac run_handler :=
  unfold exec, result, effects, bind, ret, get, modify, emit, emit_all, when; simpl.

(** ** Running sequenced code *)

Lemma exec_bind {A B} (c : M A) (f : A -> M B) (s : State) :
  exec (bind c f) s = exec (f (result c s)) (exec c s).
Proof.
  unfold exec, result, bind. destruct (c s) as [[a s1] e1]. simpl.
  by destruct (f a s1) as [[b s2] e2].
Qed.

Lemma exec_when (b : bool) (c : M unit) (s : State) :
  exec (when b c) s = if b then exec c s else s.
Proof. by destruct b. Qed.

Lemma exec_if {A} (b : bool) (c1 c2 : M A) (s : State) :
  exec (if b then c1 else c2) s = if b then exec c1 s else exec c2 s.
Proof. by destruct b. Qed.

(** C7. Removing a tab deletes its record list, its key set, its push
    flag and its loading flag, and resets the popup cache when the cache
    was taken for that tab; afterwards none of these structures (the cache
    included) has an entry for the tab, and the entries of every other tab
    and the settings are as before. *)
Theorem onRemoved_deletes_tab_state (s : State) (tabId : Z) :
  let s' := exec (onRemoved tabId) s in
  (tab_listeners s' !! tabId = None
   /\ tab_listener_keys s' !! tabId = None
   /\ tab_push s' !! tabId = None
   /\ tab_lasturl s' !! tabId = None
   /\ cached_listeners s' !! tabId = None
   /\ currentTabId (cachedPopupData s') <> Some tabId
   /\ (currentTabId (cachedPopupData s) = Some tabId ->
       cachedPopupData s' = emptyPopupData))
  /\ (forall other : Z, other <> tabId ->
        tab_listeners s' !! other = tab_listeners s !! other
        /\ tab_listener_keys s' !! other = tab_listener_keys s !! other
        /\ tab_push s' !! other = tab_push s !! other
        /\ tab_lasturl s' !! other = tab_lasturl s !! other)
  /\ (currentTabId (cachedPopupData s) <> Some tabId ->
      cachedPopupData s' = cachedPopupData s)
  /\ selectedId s' = selectedId s
  /\ dedupeEnabled s' = dedupeEnabled s
  /\ blockedListeners s' = blockedListeners s
  /\ blockedUrls s' = blockedUrls s
  /\ blockedRegex s' = blockedRegex s
  /\ compiledRegex s' = compiledRegex s
  /\ connectedPorts s' = connectedPorts s.
Proof.
  unfold onRemoved. run_handler.
  assert (Hframe : forall (A : Type) (m : gmap Z A) (other : Z),
             other <> tabId -> delete tabId m !! other = m !! other)
    by (intros A m other Hne; by rewrite lookup_delete_ne).
  destruct (bool_decide_reflect (currentTabId (cachedPopupData s) = Some tabId)) as [Hc|Hc];
    simpl; unfold cached_listeners; simpl.
  - split_and!; try apply lookup_delete_eq; try done.
    intros other Hne. split_and!; by apply Hframe.
  - split_and!; try apply lookup_delete_eq; try done.
    + destruct (pd_listeners (cachedPopupData s)); [apply lookup_delete_eq | apply lookup_empty].
    + intros other Hne. split_and!; by apply Hframe.
Qed.

(** ** The native-code guard *)

(** C9. A message that is not the settings update and whose listener code
    is exactly the native-code text changes nothing: the state is the same
    (no record, no key, no flag), and the only effect is the response to the
    sender (no save, no log call, no message to a popup). *)
Theorem native_code_message_changes_nothing (s : State) (msg : Msg) (sender : option Tab) :
  action msg <> Some "updateDedupeSetting" ->
  listener msg = Some NATIVE_CODE ->
  exec (onMessage msg sender) s = s
  /\ effects (onMessage msg sender) s
     = [SendResponse (match sender with Some _ => true | None => false end)].
Proof.
  intros Haction Hnative.
  unfold onMessage.
  rewrite bool_decide_eq_false_2 by done.
  destruct sender as [tab|]; [|done].
  rewrite Hnative. simpl. done.
Qed.

(** ** Navigation *)

Lemma onUpdated_records_kept_unless_cleared (s : State) (tabId : Z) (status : option string) :
  flag_set (tab_push s) tabId = true \/ flag_set (tab_lasturl s) tabId = true
  \/ ~ non_complete status ->
  tab_listeners (exec (onUpdated tabId status) s) = tab_listeners s
  /\ tab_listener_keys (exec (onUpdated tabId status) s) = tab_listener_keys s.
Proof.
  intros Hcase. unfold onUpdated, non_complete in *.
  destruct (bool_decide_reflect (status = Some "complete")) as [->|Hnc].
  { run_handler. by destruct (bool_decide (tabId = selectedId s)). }
  destruct (Js.truthy status) eqn:Htruthy.
  - destruct (flag_set (tab_push s) tabId) eqn:Hpush.
    + run_handler. rewrite Hpush. simpl.
      by destruct (bool_decide (status = Some "loading")).
    + destruct (flag_set (tab_lasturl s) tabId) eqn:Hlast.
      * run_handler. rewrite Hpush, Hlast. simpl.
        by destruct (bool_decide (status = Some "loading")).
      * exfalso. destruct Hcase as [?|[?|Hn]]; [done|done|]. by apply Hn.
  - run_handler. by destruct (bool_decide (status = Some "loading")).
Qed.

Lemma onUpdated_consumes_push_flag (s : State) (tabId : Z) (status : option string) :
  non_complete status ->
  flag_set (tab_push s) tabId = true ->
  tab_push (exec (onUpdated tabId status) s) = delete tabId (tab_push s).
Proof.
  intros [Htruthy Hnc] Hpush. unfold onUpdated.
  rewrite bool_decide_eq_false_2 by done. rewrite Htruthy.
  run_handler. rewrite Hpush. simpl.
  by destruct (bool_decide (status = Some "loading")).
Qed.

Lemma onUpdated_complete_keeps_push_flag (s : State) (tabId : Z) :
  tab_push (exec (onUpdated tabId (Some "complete")) s) = tab_push s.
Proof.
  unfold onUpdated. run_handler. by destruct (bool_decide (tabId = selectedId s)).
Qed.

Lemma onUpdated_clears (s : State) (tabId : Z) (status : option string) :
  non_complete status ->
  flag_set (tab_push s) tabId = false ->
  flag_set (tab_lasturl s) tabId = false ->
  tab_listeners (exec (onUpdated tabId status) s) = <[tabId := []]> (tab_listeners s)
  /\ tab_listener_keys (exec (onUpdated tabId status) s)
     = alter (fun _ => ∅) tabId (tab_listener_keys s).
Proof.
  intros [Htruthy Hnc] Hpush Hlast. unfold onUpdated.
  rewrite bool_decide_eq_false_2 by done. rewrite Htruthy.
  unfold clearListeners, notifyPopups. run_handler. rewrite Hpush, Hlast. simpl.
  destruct (tab_listeners s !! tabId) as [[|r rs]|]; simpl;
    by destruct (bool_decide (status = Some "loading")).
Qed.

Lemma push_signal_sets_flag (s : State) (msg : Msg) (tab : Tab) :
  push_signal msg ->
  let s1 := exec (onMessage msg (Some tab)) s in
  flag_set (tab_push s1) (tab_id tab) = true
  /\ tab_listeners s1 = tab_listeners s
  /\ tab_listener_keys s1 = tab_listener_keys s.
Proof.
  intros (Hpush & Hlistener & Haction). unfold onMessage.
  rewrite bool_decide_eq_false_2 by done.
  rewrite Hlistener. simpl. rewrite Hlistener, Hpush.
  unfold notifyPopups. run_handler.
  destruct (changePage msg), (Js.truthy (log msg)); simpl;
    unfold flag_set; simpl; by rewrite lookup_insert_eq.
Qed.

(** C3 (as amended). After a history-push signal for a tab, the next
    status transition of that tab, whatever its status, leaves every record
    list and key set as it was before the signal; a transition with a
    status other than ["complete"] consumes the push flag, a ["complete"]
    transition leaves it set.  A transition with a status other than
    ["complete"], with neither the push flag nor the loading flag set for
    the tab, empties the record list of the tab and its key set. *)
Theorem navigation_clears_unless_pushed :
  (forall (s : State) (msg : Msg) (tab : Tab) (status : option string),
      push_signal msg ->
      let s1 := exec (onMessage msg (Some tab)) s in
      let s2 := exec (onUpdated (tab_id tab) status) s1 in
      tab_listeners s2 = tab_listeners s
      /\ tab_listener_keys s2 = tab_listener_keys s
      /\ (non_complete status -> tab_push s2 !! tab_id tab = None)
      /\ (status = Some "complete" -> flag_set (tab_push s2) (tab_id tab) = true))
  /\
  (forall (s : State) (tabId : Z) (status : option string),
      non_complete status ->
      flag_set (tab_push s) tabId = false ->
      flag_set (tab_lasturl s) tabId = false ->
      let s2 := exec (onUpdated tabId status) s in
      tab_listeners s2 !! tabId = Some []
      /\ tab_listener_keys s2 !! tabId = (fun _ => ∅) <$> (tab_listener_keys s !! tabId)
      /\ (forall other : Z, other <> tabId ->
            tab_listeners s2 !! other = tab_listeners s !! other
            /\ tab_listener_keys s2 !! other = tab_listener_keys s !! other)).
Proof.
  split.
  - intros s msg tab status Hsignal s1 s2.
    destruct (push_signal_sets_flag s msg tab Hsignal) as (Hflag & Hl & Hk).
    fold s1 in Hflag, Hl, Hk.
    destruct (onUpdated_records_kept_unless_cleared s1 (tab_id tab) status) as [Hl2 Hk2];
      [by left|].
    fold s2 in Hl2, Hk2.
    split_and!.
    + by rewrite Hl2.
    + by rewrite Hk2.
    + intros Hnc. unfold s2.
      rewrite onUpdated_consumes_push_flag by done. apply lookup_delete_eq.
    + intros ->. unfold s2. by rewrite onUpdated_complete_keeps_push_flag.
  - intros s tabId status Hnc Hpush Hlast s2.
    destruct (onUpdated_clears s tabId status Hnc Hpush Hlast) as [Hl Hk].
    fold s2 in Hl, Hk. rewrite Hl, Hk. split_and!.
    + apply lookup_insert_eq.
    + rewrite lookup_alter. by rewrite decide_True by done.
    + intros other Hne. split.
      * by rewrite lookup_insert_ne.
      * rewrite lookup_alter. by rewrite decide_False by done.
Qed.

(** ** Deduplication *)

Lemma same_identity_same_key (r1 r2 : Msg) :
  same_identity r1 r2 -> generateListenerKey r1 = generateListenerKey r2.
Proof.
  intros (Hurl & Hhops & Hdomain & Hcode). unfold generateListenerKey.
  by rewrite Hurl, Hhops, Hdomain, Hcode.
Qed.

Lemma prepared_records (s : State) (tabId : Z) :
  tab_listeners (prepared tabId s) !! tabId = Some (records_of s tabId).
Proof.
  unfold prepared, records_of.
  destruct (tab_listeners s !! tabId) as [ls|] eqn:Hl; simpl.
  - destruct (dedupeEnabled s); [destruct (tab_listener_keys s !! tabId)|]; simpl; done.
  - destruct (dedupeEnabled s); [rewrite lookup_insert_eq|]; simpl; apply lookup_insert_eq.
Qed.

Lemma prepared_keys (s : State) (tabId : Z) :
  dedupeEnabled s = true ->
  tab_listener_keys (prepared tabId s) !! tabId = Some (keys_seen s tabId).
Proof.
  intros Hd. unfold prepared, keys_seen.
  destruct (tab_listeners s !! tabId) as [ls|] eqn:Hl; simpl; rewrite Hd.
  - destruct (tab_listener_keys s !! tabId) eqn:Hk; simpl; [done|apply lookup_insert_eq].
  - rewrite lookup_insert_eq. simpl. by rewrite lookup_insert_eq.
Qed.

#[local] Arguments isListenerBlocked : simpl never.

(** Membership in the empty key set is false. *)
Ltac rewrite_empty :=
  match goal with
  | |- context [bool_decide (?k ∈ ?e)] =>
      rewrite (bool_decide_eq_false_2 (k ∈ e)) by set_solver
  end.

(** Case analysis on whether the record is logged. *)
Ltac case_blocked :=
  match goal with
  | |- context [isListenerBlocked ?a ?b] => destruct (isListenerBlocked a b); simpl
  end.

(** What [addListener] does for a record that passes the filter. *)
Lemma addListener_run (s : State) (tabId : Z) (r : Msg) :
  passes_filter r ->
  let duplicate :=
    dedupeEnabled s && bool_decide (generateListenerKey r ∈ keys_seen s tabId) in
  result (addListener tabId r) s = negb duplicate
  /\ exec (addListener tabId r) s
     = (if duplicate then prepared tabId s
        else exec (addListenerKey r tabId) (exec (pushListener r tabId) (prepared tabId s))).
Proof.
  intros Hpass. unfold passes_filter in Hpass.
  unfold addListener. rewrite Hpass.
  unfold isDuplicateListener, addListenerKey, pushListener, prepared, keys_seen.
  run_handler.
  destruct (tab_listeners s !! tabId) as [ls|] eqn:Hl; simpl;
    destruct (dedupeEnabled s) eqn:Hd; simpl;
    destruct (tab_listener_keys s !! tabId) as [ks|] eqn:Hk; simpl;
    repeat first [rewrite lookup_insert_eq | rewrite Hd | rewrite Hk | rewrite_empty
                 | progress simpl];
    try (destruct (bool_decide (generateListenerKey r ∈ ks)) eqn:Hin; simpl);
    try (split; reflexivity);
    repeat first [rewrite lookup_insert_eq | rewrite Hd | rewrite Hk | rewrite_empty
                 | progress simpl];
    case_blocked;
    repeat first [rewrite lookup_insert_eq | rewrite Hd | rewrite Hk | rewrite_empty
                 | progress simpl];
    split; reflexivity.
Qed.

Lemma addListener_filtered (s : State) (tabId : Z) (r : Msg) :
  ~ passes_filter r ->
  result (addListener tabId r) s = false /\ exec (addListener tabId r) s = s.
Proof.
  unfold passes_filter, addListener. intros Hf.
  destruct (isFromExtension (listener r) (stack r)); [done|]. by destruct Hf.
Qed.

Lemma prepared_fixed (s : State) (tabId : Z) :
  is_Some (tab_listeners s !! tabId) ->
  (dedupeEnabled s = true -> is_Some (tab_listener_keys s !! tabId)) ->
  prepared tabId s = s.
Proof.
  intros [ls Hl] Hkeys. unfold prepared. rewrite Hl.
  destruct (dedupeEnabled s); [|done].
  by destruct (Hkeys eq_refl) as [ks ->].
Qed.

Lemma push_then_key_records (s : State) (tabId : Z) (r : Msg) :
  tab_listeners (exec (addListenerKey r tabId) (exec (pushListener r tabId) s)) !! tabId
  = (fun ls => ls ++ [r]) <$> tab_listeners s !! tabId.
Proof.
  unfold addListenerKey, pushListener. run_handler.
  destruct (dedupeEnabled s); simpl;
    [destruct (bool_decide (tab_listener_keys s !! tabId = None))|]; simpl;
    rewrite lookup_alter; by rewrite decide_True by done.
Qed.

Lemma push_then_key_keys (s : State) (tabId : Z) (r : Msg) (ks : gset string) :
  tab_listener_keys s !! tabId = Some ks ->
  tab_listener_keys (exec (addListenerKey r tabId) (exec (pushListener r tabId) s))
  = if dedupeEnabled s then <[tabId := ks ∪ {[generateListenerKey r]}]> (tab_listener_keys s)
    else tab_listener_keys s.
Proof.
  intros Hk. unfold addListenerKey, pushListener. run_handler.
  destruct (dedupeEnabled s); simpl; [|done].
  rewrite Hk. rewrite bool_decide_eq_false_2 by done. simpl.
  apply map_eq. intros i. rewrite lookup_alter, lookup_insert.
  destruct (decide (tabId = i)) as [->|]; [by rewrite Hk|done].
Qed.

Lemma push_then_key_dedupe (s : State) (tabId : Z) (r : Msg) :
  dedupeEnabled (exec (addListenerKey r tabId) (exec (pushListener r tabId) s))
  = dedupeEnabled s.
Proof.
  unfold addListenerKey, pushListener. run_handler.
  destruct (dedupeEnabled s) eqn:Hd; simpl; [|done].
  by destruct (bool_decide (tab_listener_keys s !! tabId = None)).
Qed.

Lemma prepared_dedupe (s : State) (tabId : Z) :
  dedupeEnabled (prepared tabId s) = dedupeEnabled s.
Proof.
  unfold prepared.
  destruct (tab_listeners s !! tabId); simpl; destruct (dedupeEnabled s) eqn:Hd; simpl;
    rewrite ?lookup_insert_eq; try done.
  by destruct (tab_listener_keys s !! tabId).
Qed.

Lemma prepared_keys_off (s : State) (tabId : Z) :
  dedupeEnabled s = false ->
  tab_listener_keys (prepared tabId s)
  = match tab_listeners s !! tabId with
    | Some _ => tab_listener_keys s
    | None => <[tabId := ∅]> (tab_listener_keys s)
    end.
Proof.
  intros Hd. unfold prepared.
  destruct (tab_listeners s !! tabId); simpl; by rewrite Hd.
Qed.

(** ** Identity keys *)

(** *** Line and column suffixes *)

Lemma app_nil_l (s : string) : "" +:+ s = s.
Proof. done. Qed.

Lemma app_cons (ch : ascii) (a b : string) : String ch a +:+ b = String ch (a +:+ b).
Proof. done. Qed.

Lemma app_empty_r (s : string) : s +:+ "" = s.
Proof. induction s as [|ch s IH]; [done|]. by rewrite app_cons, IH. Qed.

Lemma app_assoc_string (a b c : string) : (a +:+ b) +:+ c = a +:+ (b +:+ c).
Proof. induction a as [|ch a IH]; [done|]. by rewrite !app_cons, IH. Qed.

Lemma rev_app_spec (s acc : string) : String.rev_app s acc = String.rev s +:+ acc.
Proof.
  unfold String.rev. revert acc.
  induction s as [|ch s IH]; intros acc; [done|].
  cbn. rewrite IH, (IH (String ch "")), app_assoc_string. done.
Qed.

Lemma rev_cons (ch : ascii) (s : string) :
  String.rev (String ch s) = String.rev s +:+ String ch "".
Proof. unfold String.rev at 1. cbn. apply rev_app_spec. Qed.

Lemma rev_append (a b : string) : String.rev (a +:+ b) = String.rev b +:+ String.rev a.
Proof.
  induction a as [|ch a IH].
  - by rewrite app_nil_l, app_empty_r.
  - by rewrite app_cons, !rev_cons, IH, app_assoc_string.
Qed.

Lemma rev_involutive (s : string) : String.rev (String.rev s) = s.
Proof.
  induction s as [|ch s IH]; [done|].
  by rewrite rev_cons, rev_append, IH.
Qed.

Lemma all_chars_rev (p : ascii -> bool) (s : string) :
  Whatwg.all_chars p (String.rev s) = Whatwg.all_chars p s.
Proof.
  assert (Happ : forall a b, Whatwg.all_chars p (a +:+ b)
                             = Whatwg.all_chars p a && Whatwg.all_chars p b).
  { induction a as [|ch a IH]; intros b; [done|].
    rewrite app_cons. cbn. by rewrite IH, andb_assoc. }
  induction s as [|ch s IH]; [done|].
  rewrite rev_cons, Happ, IH. cbn. rewrite andb_true_r. apply andb_comm.
Qed.

Lemma span_digits (digits rest : string) :
  Whatwg.all_chars Js.is_digit digits = true ->
  Js.span Js.is_digit (digits +:+ ":" +:+ rest) = (digits, ":" +:+ rest).
Proof.
  induction digits as [|ch digits IH]; intros Hall; [done|].
  cbn in Hall. apply andb_true_iff in Hall as [Hch Hall].
  rewrite app_cons. cbn. rewrite Hch, (IH Hall). done.
Qed.

Lemma drop_rev_number_suffix (digits rest : string) :
  digits <> "" ->
  Whatwg.all_chars Js.is_digit digits = true ->
  Js.drop_rev_number (digits +:+ ":" +:+ rest) = Some rest.
Proof.
  intros Hne Hall. unfold Js.drop_rev_number. rewrite span_digits by done.
  by destruct digits.
Qed.

Lemma span_split (p : ascii -> bool) (s : string) :
  s = fst (Js.span p s) +:+ snd (Js.span p s)
  /\ Whatwg.all_chars p (fst (Js.span p s)) = true.
Proof.
  induction s as [|ch s [IH1 IH2]]; [done|].
  cbn. destruct (p ch) eqn:Hp; [|done].
  destruct (Js.span p s) as [a b]. cbn in *. rewrite Hp, IH2, app_cons. by rewrite <- IH1.
Qed.

Lemma drop_rev_number_Some (r r' : string) :
  Js.drop_rev_number r = Some r' ->
  exists digits, r = digits +:+ ":" +:+ r' /\ digits <> ""
                 /\ Whatwg.all_chars Js.is_digit digits = true.
Proof.
  unfold Js.drop_rev_number. intros Hdrop.
  destruct (span_split Js.is_digit r) as [Hsplit Hall].
  destruct (Js.span Js.is_digit r) as [[|d digits] [|ch rest]]; try done.
  destruct (Ascii.eqb_spec ch ":") as [->|]; [|done].
  injection Hdrop as <-. exists (String d digits). by rewrite Hsplit at 1.
Qed.

Lemma no_number_suffix (u : string) :
  ~ ends_with_number u -> Js.drop_rev_number (String.rev u) = None.
Proof.
  intros Hno. destruct (Js.drop_rev_number (String.rev u)) as [r'|] eqn:Hdrop; [|done].
  destruct Hno. apply drop_rev_number_Some in Hdrop as (digits & Hrev & Hne & Hall).
  exists (String.rev r'), (String.rev digits). split_and!.
  - rewrite <- (rev_involutive u), Hrev, !rev_append. cbn. by rewrite app_assoc_string.
  - intros Hempty. apply Hne. by rewrite <- (rev_involutive digits), Hempty.
  - by rewrite all_chars_rev.
Qed.

(** The two replacements of [extractJsUrlFromStack] remove a trailing
    [:line:column], a trailing [:line], and nothing else. *)
Lemma location_suffix_removed (u line column : string) :
  ~ ends_with_number u ->
  line <> "" -> Whatwg.all_chars Js.is_digit line = true ->
  column <> "" -> Whatwg.all_chars Js.is_digit column = true ->
  Js.strip_line (Js.strip_line_col (u +:+ ":" +:+ line +:+ ":" +:+ column)) = u
  /\ Js.strip_line (Js.strip_line_col (u +:+ ":" +:+ line)) = u
  /\ Js.strip_line (Js.strip_line_col u) = u.
Proof.
  intros Hu Hl1 Hl2 Hc1 Hc2.
  assert (Hrev_ne : forall d, d <> "" -> String.rev d <> "").
  { intros d Hd Hr. apply Hd. by rewrite <- (rev_involutive d), Hr. }
  assert (Hnone : Js.strip_line u = u).
  { unfold Js.strip_line. by rewrite no_number_suffix. }
  split_and!.
  - unfold Js.strip_line_col.
    rewrite !rev_append. cbn. rewrite !app_assoc_string.
    rewrite drop_rev_number_suffix by (by rewrite ?all_chars_rev; auto).
    cbn. rewrite (drop_rev_number_suffix (String.rev line))
      by (by rewrite ?all_chars_rev; auto).
    by rewrite rev_involutive.
  - unfold Js.strip_line_col.
    rewrite !rev_append. cbn. rewrite !app_assoc_string.
    rewrite drop_rev_number_suffix by (by rewrite ?all_chars_rev; auto).
    rewrite no_number_suffix by done.
    unfold Js.strip_line.
    rewrite !rev_append. cbn. rewrite !app_assoc_string.
    rewrite drop_rev_number_suffix by (by rewrite ?all_chars_rev; auto).
    by rewrite rev_involutive.
  - unfold Js.strip_line_col. by rewrite no_number_suffix.
Qed.

Lemma scenario_same_identity (r1 r2 : Msg) :
  scenario_registration r1 -> scenario_registration r2 ->
  same_identity r1 r2 /\ passes_filter r1 /\ passes_filter r2.
Proof.
  intros (Hl1 & Hs1 & Hf1 & Hh1 & Hd1) (Hl2 & Hs2 & Hf2 & Hh2 & Hd2).
  unfold same_identity, passes_filter, extractJsUrlFromStack.
  rewrite Hl1, Hs1, Hh1, Hd1, Hl2, Hs2, Hh2, Hd2.
  split_and!; try done.
  by destruct Hf1 as [-> | ->], Hf2 as [-> | ->].
Qed.

(** What delivering two records with equal identity components does. *)
Lemma addListener_twice
    (s : State) (tabId : Z) (r1 r2 : Msg) :
  same_identity r1 r2 ->
  passes_filter r1 ->
  let s1 := exec (addListener tabId r1) s in
  let s2 := exec (addListener tabId r2) s1 in
  (dedupeEnabled s = true ->
     result (addListener tabId r2) s1 = false
     /\ s2 = s1
     /\ (generateListenerKey r1 ∉ keys_seen s tabId ->
         result (addListener tabId r1) s = true
         /\ tab_listeners s1 !! tabId = Some (records_of s tabId ++ [r1])
         /\ tab_listener_keys s1 !! tabId
            = Some (keys_seen s tabId ∪ {[generateListenerKey r1]}))
     /\ (generateListenerKey r1 ∈ keys_seen s tabId ->
         result (addListener tabId r1) s = false
         /\ tab_listeners s1 !! tabId = Some (records_of s tabId)))
  /\ (dedupeEnabled s = false ->
      passes_filter r2 ->
      result (addListener tabId r1) s = true
      /\ result (addListener tabId r2) s1 = true
      /\ tab_listeners s2 !! tabId = Some (records_of s tabId ++ [r1; r2])
      /\ tab_listener_keys s2 = tab_listener_keys (prepared tabId s))
  /\ (result (addListener tabId r1) s = true ->
      s1 = exec (addListenerKey r1 tabId) (exec (pushListener r1 tabId) (prepared tabId s))).
Proof.
  intros Hsame Hpass1 s1 s2.
  pose proof (same_identity_same_key r1 r2 Hsame) as Hkey.
  destruct (addListener_run s tabId r1 Hpass1) as [Hres1 Hexec1].
  fold s1 in Hexec1. simpl in Hres1, Hexec1.
  split_and!.
  - (* deduplication enabled *)
    intros Hd. rewrite Hd in Hres1, Hexec1. simpl in Hres1, Hexec1.
    assert (Hs1 : tab_listeners s1 !! tabId <> None
                  /\ tab_listener_keys s1 !! tabId
                     = Some (keys_seen s tabId ∪ {[generateListenerKey r1]})
                  /\ dedupeEnabled s1 = true).
    { rewrite Hexec1.
      destruct (bool_decide_reflect (generateListenerKey r1 ∈ keys_seen s tabId)) as [Hin|Hin].
      - rewrite prepared_records, prepared_keys, prepared_dedupe by done.
        split_and!; [done| |done]. f_equal. set_solver.
      - rewrite push_then_key_records, prepared_records.
        rewrite (push_then_key_keys _ _ _ (keys_seen s tabId)) by by apply prepared_keys.
        rewrite push_then_key_dedupe, !prepared_dedupe, Hd.
        split_and!; [done| |done]. apply lookup_insert_eq. }
    destruct Hs1 as (Hl1 & Hk1 & Hd1).
    assert (Hsecond : result (addListener tabId r2) s1 = false /\ s2 = s1).
    { destruct (isFromExtension (listener r2) (stack r2)) eqn:Hf2.
      - apply addListener_filtered. unfold passes_filter. by rewrite Hf2.
      - destruct (addListener_run s1 tabId r2 Hf2) as [Hres2 Hexec2].
        fold s2 in Hexec2. simpl in Hres2, Hexec2.
        assert (Hseen : keys_seen s1 tabId = keys_seen s tabId ∪ {[generateListenerKey r1]}).
        { unfold keys_seen. destruct (tab_listeners s1 !! tabId); [|done]. by rewrite Hk1. }
        rewrite Hd1, Hseen, <- Hkey in Hres2; rewrite Hd1, Hseen, <- Hkey in Hexec2.
        rewrite bool_decide_eq_true_2 in Hres2, Hexec2 by set_solver.
        simpl in Hres2, Hexec2. split; [done|].
        rewrite Hexec2. apply prepared_fixed.
        + by destruct (tab_listeners s1 !! tabId).
        + intros _. by rewrite Hk1. }
    destruct Hsecond as [Hres2 Hs2].
    split_and!; [done|done| |].
    + intros Hnew. rewrite bool_decide_eq_false_2 in Hres1, Hexec1 by done.
      split_and!; [done| |done].
      rewrite Hexec1, push_then_key_records, prepared_records. done.
    + intros Hold. rewrite bool_decide_eq_true_2 in Hres1, Hexec1 by done.
      split; [done|]. by rewrite Hexec1, prepared_records.
  - (* deduplication disabled *)
    intros Hd Hpass2. rewrite Hd in Hres1, Hexec1. simpl in Hres1, Hexec1.
    destruct (addListener_run s1 tabId r2 Hpass2) as [Hres2 Hexec2].
    fold s2 in Hexec2. simpl in Hres2, Hexec2.
    assert (Hd1 : dedupeEnabled s1 = false)
      by (by rewrite Hexec1, push_then_key_dedupe, prepared_dedupe).
    rewrite Hd1 in Hres2, Hexec2. simpl in Hres2, Hexec2.
    assert (Hl1 : tab_listeners s1 !! tabId = Some (records_of s tabId ++ [r1]))
      by (by rewrite Hexec1, push_then_key_records, prepared_records).
    assert (Hprep : prepared tabId s1 = s1).
    { apply prepared_fixed; [by rewrite Hl1|]. by rewrite Hd1. }
    rewrite Hprep in Hexec2.
    split_and!; [done|done| |].
    + rewrite Hexec2, push_then_key_records, Hl1. simpl. by rewrite <- app_assoc.
    + rewrite Hexec2.
      unfold addListenerKey, pushListener. run_handler. rewrite Hd1. simpl.
      rewrite Hexec1.
      unfold addListenerKey, pushListener. run_handler.
      rewrite prepared_dedupe, Hd. done.
  - (* order of the two updates *)
    intros Hadded. rewrite Hadded in Hres1.
    destruct (dedupeEnabled s && bool_decide (generateListenerKey r1 ∈ keys_seen s tabId));
      [done|]. done.
Qed.

(** C1 (as amended). Two records with equal identity components are
    delivered to the same tab, the first passing the extension filter.
    With deduplication enabled the second is rejected and changes nothing;
    the first is appended, and its key recorded, exactly when its key is
    new.  With deduplication disabled (and the second passing the filter
    too) both are appended and the key set is left as it is.  Whenever a
    record is added, it is appended to the list first and its key is
    handled afterwards. *)
Theorem duplicate_records_are_stored_once
    (s : State) (tabId : Z) (r1 r2 : Msg) :
  same_identity r1 r2 ->
  passes_filter r1 ->
  let s1 := exec (addListener tabId r1) s in
  let s2 := exec (addListener tabId r2) s1 in
  (dedupeEnabled s = true ->
     result (addListener tabId r2) s1 = false
     /\ s2 = s1
     /\ (generateListenerKey r1 ∉ keys_seen s tabId ->
         result (addListener tabId r1) s = true
         /\ tab_listeners s1 !! tabId = Some (records_of s tabId ++ [r1])
         /\ tab_listener_keys s1 !! tabId
            = Some (keys_seen s tabId ∪ {[generateListenerKey r1]}))
     /\ (generateListenerKey r1 ∈ keys_seen s tabId ->
         result (addListener tabId r1) s = false
         /\ tab_listeners s1 !! tabId = Some (records_of s tabId)))
  /\ (dedupeEnabled s = false ->
      passes_filter r2 ->
      result (addListener tabId r1) s = true
      /\ result (addListener tabId r2) s1 = true
      /\ tab_listeners s2 !! tabId = Some (records_of s tabId ++ [r1; r2])
      /\ tab_listener_keys s2 = tab_listener_keys (prepared tabId s))
  /\ (result (addListener tabId r1) s = true ->
      s1 = exec (addListenerKey r1 tabId) (exec (pushListener r1 tabId) (prepared tabId s))).
Proof. apply addListener_twice. Qed.

(** ** Blocking, logging and the badge *)







(** ** Block matching *)

Lemma array_includes_elem_of (l : list string) (x : string) :
  Js.array_includes l x = true <-> x ∈ l.
Proof.
  unfold Js.array_includes. rewrite existsb_exists, list_elem_of_In. split.
  - intros (y & Hin & Heq). by apply String.eqb_eq in Heq as ->.
  - intros Hin. exists x. split; [done|]. apply String.eqb_refl.
Qed.

Lemma compile_patterns_spec (patterns : list string) :
  fst (compile_patterns patterns)
  = omap (fun pattern => (fun regex => (pattern, regex)) <$> RegExp_new pattern "i") patterns
  /\ snd (compile_patterns patterns)
     = map ConsoleWarn (filter (fun pattern => RegExp_new pattern "i" = None) patterns).
Proof.
  induction patterns as [|pattern rest [IH1 IH2]]; [done|].
  simpl. destruct (compile_patterns rest) as [compiled warnings]. simpl in *.
  rewrite filter_cons.
  destruct (RegExp_new pattern "i") as [regex|] eqn:Hnew; simpl.
  - subst. split; reflexivity.
  - subst. split; reflexivity.
Qed.

Lemma compiled_elem_of (patterns : list string) (pattern : string) (regex : RegExp) :
  (pattern, regex) ∈ fst (compile_patterns patterns)
  <-> pattern ∈ patterns /\ RegExp_new pattern "i" = Some regex.
Proof.
  rewrite (proj1 (compile_patterns_spec patterns)), list_elem_of_omap. split.
  - intros (p & Hin & Heq). destruct (RegExp_new p "i") eqn:Hnew; [|done].
    simpl in Heq. by simplify_eq.
  - intros [Hin Hnew]. exists pattern. by rewrite Hnew.
Qed.

Lemma compileRegexPatterns_compiles (s : State) :
  patterns_compiled (exec compileRegexPatterns s)
  /\ blockedRegex (exec compileRegexPatterns s) = blockedRegex s.
Proof.
  unfold patterns_compiled, compileRegexPatterns. run_handler.
  destruct (compile_patterns (blockedRegex s)) as [compiled warnings] eqn:Hc. simpl.
  rewrite Hc. split; reflexivity.
Qed.

Lemma isListenerBlocked_spec (s : State) (r : Msg) :
  patterns_compiled s ->
  has_code r ->
  isListenerBlocked s r = true
  <-> (exists code, listener r = Some code /\ code ∈ blockedListeners s)
      \/ (exists url, extractJsUrlFromStack (stack r) (fullstack r) = Some url
                      /\ url ∈ blockedUrls s)
      \/ (exists code pattern regex,
            listener r = Some code /\ pattern ∈ blockedRegex s
            /\ RegExp_new pattern "i" = Some regex
            /\ RegExp_test regex code = true).
Proof.
  intros Hcompiled Hcode. unfold has_code in Hcode.
  destruct (listener r) as [[|c code]|] eqn:Hlistener; try done.
  unfold isListenerBlocked, isListenerMatchedByRegex. rewrite Hlistener, Hcompiled.
  destruct (Js.array_includes (blockedListeners s) (String c code)) eqn:Hexact.
  { split; [|done]. intros _. left. eexists. split; [done|].
    by apply array_includes_elem_of. }
  destruct (extractJsUrlFromStack (stack r) (fullstack r)) as [url|] eqn:Hurl.
  - destruct (Js.array_includes (blockedUrls s) url) eqn:Hblocked.
    { split; [|done]. intros _. right. left. eexists. split; [done|].
      by apply array_includes_elem_of. }
    split.
    + intros Hregex. right. right.
      destruct (existsb _ _) eqn:Hex in Hregex; [|done].
      apply existsb_exists in Hex as ([pattern regex] & Hin & Htest).
      apply list_elem_of_In, compiled_elem_of in Hin as [Hin Hnew].
      by exists (String c code), pattern, regex.
    + intros [(x & Hx & Hin) | [(u & Hu & Hin) | (x & pattern & regex & Hx & Hin & Hnew & Htest)]].
      * simplify_eq. apply array_includes_elem_of in Hin. congruence.
      * simplify_eq. apply array_includes_elem_of in Hin. congruence.
      * simplify_eq.
        assert (Hex : existsb (fun compiled => RegExp_test (snd compiled) (String c code))
                        (fst (compile_patterns (blockedRegex s))) = true).
        { apply existsb_exists. exists (pattern, regex). split; [|done].
          apply list_elem_of_In, compiled_elem_of. done. }
        by rewrite Hex.
  - split.
    + intros Hregex. right. right.
      destruct (existsb _ _) eqn:Hex in Hregex; [|done].
      apply existsb_exists in Hex as ([pattern regex] & Hin & Htest).
      apply list_elem_of_In, compiled_elem_of in Hin as [Hin Hnew].
      by exists (String c code), pattern, regex.
    + intros [(x & Hx & Hin) | [(u & Hu & Hin) | (x & pattern & regex & Hx & Hin & Hnew & Htest)]].
      * simplify_eq. apply array_includes_elem_of in Hin. congruence.
      * done.
      * simplify_eq.
        assert (Hex : existsb (fun compiled => RegExp_test (snd compiled) (String c code))
                        (fst (compile_patterns (blockedRegex s))) = true).
        { apply existsb_exists. exists (pattern, regex). split; [|done].
          apply list_elem_of_In, compiled_elem_of. done. }
        by rewrite Hex.
Qed.

Lemma loadSettings_compiles (s : State) (settings : Settings) :
  patterns_compiled (exec (loadSettings settings) s).
Proof.
  unfold patterns_compiled, loadSettings, compileRegexPatterns. run_handler.
  destruct (compile_patterns (default [] (st_blockedRegex settings)))
    as [compiled warnings] eqn:Hc.
  simpl. by rewrite Hc.
Qed.

Lemma onStorageChanged_compiles (s : State) (changes : Changes) :
  patterns_compiled s -> patterns_compiled (exec (onStorageChanged changes) s).
Proof.
  unfold patterns_compiled, onStorageChanged, compileRegexPatterns. intros Hs.
  destruct changes as [[cl|] [cu|] [cr|]]; run_handler; try done;
    destruct (compile_patterns (default [] cr)) as [compiled warnings] eqn:Hc;
    simpl; by rewrite Hc.
Qed.

Lemma addListener_records_have_code (s : State) (tabId : Z) (r : Msg) :
  has_code r -> records_have_code s -> records_have_code (exec (addListener tabId r) s).
Proof.
  intros Hr Hs. unfold records_have_code.
  destruct (isFromExtension (listener r) (stack r)) eqn:Hf.
  { unfold addListener. rewrite Hf. exact Hs. }
  destruct (addListener_run s tabId r Hf) as [_ ->].
  assert (Hprep : forall t records x,
             tab_listeners (prepared tabId s) !! t = Some records -> x ∈ records ->
             has_code x).
  { intros t records x Hl Hx. destruct (decide (t = tabId)) as [->|Hne].
    - rewrite prepared_records in Hl. injection Hl as <-.
      unfold records_of in Hx.
      destruct (tab_listeners s !! tabId) as [ls|] eqn:Hls; simpl in Hx.
      + by eapply Hs.
      + by apply elem_of_nil in Hx.
    - eapply Hs; [|done]. revert Hl. unfold prepared.
      destruct (tab_listeners s !! tabId); simpl;
        destruct (dedupeEnabled s); simpl;
        rewrite ?lookup_insert_eq; try destruct (tab_listener_keys s !! tabId); simpl;
        rewrite ?lookup_insert_ne by done; done. }
  destruct (dedupeEnabled s && bool_decide (generateListenerKey r ∈ keys_seen s tabId));
    [exact Hprep|].
  intros t records x Hl Hx. destruct (decide (t = tabId)) as [->|Hne].
  - rewrite push_then_key_records, prepared_records in Hl. injection Hl as <-.
    apply elem_of_app in Hx as [Hx|Hx].
    + eapply (Hprep tabId); [apply prepared_records|done].
    + by apply list_elem_of_singleton in Hx as ->.
  - eapply (Hprep t); [|done]. rewrite <- Hl.
    unfold addListenerKey, pushListener. run_handler.
    destruct (dedupeEnabled (prepared tabId s)); simpl;
      [destruct (bool_decide (tab_listener_keys (prepared tabId s) !! tabId = None))|];
      simpl; rewrite lookup_alter; by rewrite decide_False by done.
Qed.

Lemma onMessage_records_have_code (s : State) (msg : Msg) (sender : option Tab) :
  records_have_code s -> records_have_code (exec (onMessage msg sender) s).
Proof.
  intros Hs. unfold onMessage.
  destruct (bool_decide (action msg = Some "updateDedupeSetting")).
  { run_handler. by destruct (enabled msg). }
  destruct sender as [tab|]; [|done].
  destruct (Js.truthy (listener msg)) eqn:Hcode; simpl.
  - destruct (bool_decide (listener msg = Some NATIVE_CODE)); [done|].
    rewrite Hcode.
    assert (Hadd : records_have_code
                     (exec (addListener (tab_id tab) (with_parent_url (tab_url tab) msg)) s))
      by (by apply addListener_records_have_code).
    rewrite exec_bind. rewrite !exec_bind, !exec_when, exec_if.
    set (s1 := exec (addListener _ _) s) in *.
    destruct (pushState msg), (changePage msg), (Js.truthy (log msg));
      try rewrite !exec_bind; try rewrite exec_when;
      try destruct (result _ s); done.
  - rewrite Hcode. unfold notifyPopups. run_handler.
    destruct (pushState msg), (changePage msg), (Js.truthy (log msg)); simpl; exact Hs.
Qed.

End BackgroundProperties.

Section BlockMatching.
Import Background.

(** C5. For every record with a code, in a state whose compiled
    patterns are those of the regex list: the record is blocked if and only
    if its code is on the exact-code list, or the URL extracted from its
    stack is on the exact-URL list, or some pattern of the regex list
    compiles with the flag [i] to an expression that matches the code.
    Compiling keeps the patterns the platform accepts, in order, and
    reports the others; loading the settings and a change of the stored
    lists leave the compiled patterns up to date, and every record that
    [runtime.onMessage] stores has a code.  On the modelled platform the
    pattern ["eval"] blocks the code ["function(e){EVAL(e.data)}"], also
    when the list holds an invalid pattern before it. *)
Theorem blocked_iff_code_url_or_pattern `{Platform} :
  (forall (s : State) (r : Msg),
      patterns_compiled s ->
      has_code r ->
      isListenerBlocked s r = true
      <-> (exists code, listener r = Some code /\ code ∈ blockedListeners s)
          \/ (exists url, extractJsUrlFromStack (stack r) (fullstack r) = Some url
                          /\ url ∈ blockedUrls s)
          \/ (exists code pattern regex,
                listener r = Some code /\ pattern ∈ blockedRegex s
                /\ RegExp_new pattern "i" = Some regex
                /\ RegExp_test regex code = true))
  /\ (forall patterns : list string,
        fst (compile_patterns patterns)
        = omap (fun pattern => (fun regex => (pattern, regex)) <$> RegExp_new pattern "i")
            patterns
        /\ snd (compile_patterns patterns)
           = map ConsoleWarn (filter (fun pattern => RegExp_new pattern "i" = None) patterns))
  /\ (forall (s : State) (settings : Settings) (changes : Changes),
        patterns_compiled (exec (loadSettings settings) s)
        /\ (patterns_compiled s -> patterns_compiled (exec (onStorageChanged changes) s)))
  /\ (forall (s : State) (msg : Msg) (sender : option Tab),
        records_have_code s -> records_have_code (exec (onMessage msg sender) s))
  /\ (forall (s : @State reference_platform) (r : Msg),
        @patterns_compiled reference_platform s ->
        "eval" ∈ @blockedRegex reference_platform s ->
        listener r = Some "function(e){EVAL(e.data)}" ->
        @isListenerBlocked reference_platform s r = true)
  /\ @compile_patterns reference_platform ["*oops"; "eval"]
     = ([("eval", Ecma.Literal "eval" true)], [ConsoleWarn "*oops"]).
Proof.
  split_and!.
  - apply isListenerBlocked_spec.
  - apply compile_patterns_spec.
  - intros s settings changes. split.
    + apply loadSettings_compiles.
    + apply onStorageChanged_compiles.
  - apply onMessage_records_have_code.
  - intros s r Hcompiled Hin Hcode.
    apply (@isListenerBlocked_spec reference_platform s r Hcompiled).
    + unfold has_code. by rewrite Hcode.
    + right. right.
      exists "function(e){EVAL(e.data)}", "eval", (Ecma.Literal "eval" true).
      split_and!; [done|done|reflexivity|reflexivity].
  - reflexivity.
Qed.

End BlockMatching.

(* ================================================================== *)
(** * The properties on concrete runs *)
(* ================================================================== *)

Section BackgroundRuns.
Import Background Examples.
#[local] Existing Instance reference_platform.

(** C9 on a concrete run: a native-code message, even one that also
    carries the push and page-change flags, leaves a populated store as it
    is. *)
Lemma native_code_message_changes_nothing_witness :
  exec (onMessage native_msg (Some tab7)) one_record = one_record
  /\ effects (onMessage native_msg (Some tab7)) one_record = [SendResponse true].
Proof.
  apply (native_code_message_changes_nothing one_record native_msg (Some tab7)).
  - discriminate.
  - reflexivity.
Defined.

(** C3: after a push signal, a ["complete"] transition does not consume
    the push flag. *)
Lemma push_flag_survives_complete_transition :
  tab_push (exec (onUpdated 7 (Some "complete"))
              (exec (onMessage push_msg (Some tab7)) one_record)) !! 7%Z
  = Some true.
Proof. vm_compute. reflexivity. Qed.

(** C3 on concrete runs: a push signal followed by a ["loading"]
    transition keeps the record of tab 7 and consumes the flag; the same
    transition without a push signal empties the tab. *)
Lemma navigation_clears_unless_pushed_witness :
  (tab_listeners (exec (onUpdated 7 (Some "loading"))
                    (exec (onMessage push_msg (Some tab7)) one_record))
   = tab_listeners one_record
   /\ tab_push (exec (onUpdated 7 (Some "loading"))
                 (exec (onMessage push_msg (Some tab7)) one_record)) !! 7%Z = None)
  /\ tab_listeners (exec (onUpdated 7 (Some "loading")) one_record) !! 7%Z = Some [].
Proof.
  destruct navigation_clears_unless_pushed as [Hpush Hclear].
  split.
  - destruct (Hpush one_record push_msg tab7 (Some "loading")) as (Hl & _ & Hflag & _).
    + repeat split; discriminate.
    + split; [exact Hl|]. apply Hflag. split; [reflexivity|discriminate].
  - destruct (Hclear one_record 7%Z (Some "loading")) as (Hl & _).
    + split; [reflexivity|discriminate].
    + reflexivity.
    + reflexivity.
    + exact Hl.
Defined.

(** C1: with deduplication switched off a record is appended but its key
    is not recorded; and of two records with the same identity components
    the second is the one stored when the filter drops the first. *)
Lemma key_not_recorded_without_dedupe :
  (result (addListener 7 scenario_record) start_without_dedupe = true
   /\ tab_listeners (exec (addListener 7 scenario_record) start_without_dedupe) !! 7%Z
      = Some [scenario_record]
   /\ tab_listener_keys (exec (addListener 7 scenario_record) start_without_dedupe) !! 7%Z
      = Some ∅)
  /\ (same_identity filtered_record unfiltered_record
      /\ tab_listeners (exec (addListener 7 unfiltered_record)
                          (exec (addListener 7 filtered_record) start)) !! 7%Z
         = Some [unfiltered_record]).
Proof.
  split.
  - split_and!; vm_compute; reflexivity.
  - split.
    + unfold same_identity. split_and!; vm_compute; reflexivity.
    + vm_compute. reflexivity.
Qed.

(** C1 on a concrete run: the scenario record delivered twice to a fresh
    tab is stored once with deduplication, twice without. *)
Lemma duplicate_records_are_stored_once_witness :
  tab_listeners (exec (addListener 7 scenario_record)
                   (exec (addListener 7 scenario_record) start)) !! 7%Z
  = Some [scenario_record]
  /\ tab_listeners (exec (addListener 7 scenario_record)
                      (exec (addListener 7 scenario_record) start_without_dedupe)) !! 7%Z
     = Some [scenario_record; scenario_record].
Proof.
  assert (Hsame : same_identity scenario_record scenario_record)
    by (unfold same_identity; split_and!; reflexivity).
  assert (Hpass : passes_filter scenario_record) by (vm_compute; reflexivity).
  split.
  - destruct (duplicate_records_are_stored_once start 7%Z scenario_record scenario_record
                Hsame Hpass) as (Hon & _ & _).
    destruct (Hon eq_refl) as (_ & Hs2 & Hnew & _).
    rewrite Hs2. destruct Hnew as (_ & Hl & _).
    + assert (Hseen : keys_seen start 7%Z = ∅) by reflexivity.
      rewrite Hseen. apply not_elem_of_empty.
    + exact Hl.
  - destruct (duplicate_records_are_stored_once start_without_dedupe 7%Z
                scenario_record scenario_record Hsame Hpass) as (_ & Hoff & _).
    destruct (Hoff eq_refl Hpass) as (_ & _ & Hl & _). exact Hl.
Defined.



(** C5 on a concrete run: after the regex list has been set to an
    invalid pattern and ["eval"], a record whose code contains [EVAL] is
    blocked and the scenario record is not. *)
Lemma blocked_iff_code_url_or_pattern_witness :
  isListenerBlocked regex_state eval_record = true
  /\ isListenerBlocked regex_state scenario_record = false.
Proof.
  destruct (@blocked_iff_code_url_or_pattern reference_platform) as (Hiff & _).
  split.
  - apply (Hiff regex_state eval_record); [reflexivity|reflexivity|].
    right. right.
    exists "function(e){EVAL(e.data)}", "eval", (Ecma.Literal "eval" true).
    split_and!; [reflexivity| |reflexivity|reflexivity].
    apply list_elem_of_In. right. left. reflexivity.
  - reflexivity.
Defined.

(** C7 on a concrete run: removing tab 7 from a store that holds one
    record for it leaves no entry for the tab, and tab 8 as it was. *)
Lemma onRemoved_deletes_tab_state_witness :
  tab_listeners one_record !! 7%Z = Some [scenario_record]
  /\ tab_listeners (exec (onRemoved 7) one_record) !! 7%Z = None
  /\ tab_listener_keys (exec (onRemoved 7) one_record) !! 7%Z = None
  /\ tab_listeners (exec (onRemoved 7) one_record) !! 8%Z = tab_listeners one_record !! 8%Z.
Proof.
  destruct (onRemoved_deletes_tab_state one_record 7%Z) as ((Hl & Hk & _) & Hother & _).
  destruct (Hother 8%Z) as (Hl8 & _); [discriminate|].
  split; [vm_compute; reflexivity|]. split; [exact Hl|]. split; [exact Hk|exact Hl8].
Defined.

End BackgroundRuns.

(* ================================================================== *)
(** * Properties of [cleanUrl] on the modelled URL parser *)
(* ================================================================== *)

Section CleanUrlParser.
Import Whatwg.

(** Case analysis over the 256 characters. *)
Ltac each_char ch := destruct ch as [[] [] [] [] [] [] [] []]; vm_compute; try done.

Lemma all_chars_app (p : ascii -> bool) (a b : string) :
  all_chars p (a +:+ b) = all_chars p a && all_chars p b.
Proof.
  induction a as [|ch a IH]; [done|].
  rewrite app_cons. cbn. by rewrite IH, andb_assoc.
Qed.

Lemma all_chars_impl (p q : ascii -> bool) (s : string) :
  (forall ch, p ch = true -> q ch = true) ->
  all_chars p s = true -> all_chars q s = true.
Proof.
  intros Hpq. induction s as [|ch s IH]; [done|]. cbn.
  intros [Hch Hs]%andb_true_iff. by rewrite (Hpq ch Hch), IH.
Qed.

Lemma percent_encode_char_clean (ch : ascii) :
  segment_char ch = true -> all_chars path_char (percent_encode_char ch) = true.
Proof. each_char ch. Qed.

Lemma percent_encode_char_fixed (ch : ascii) :
  path_char ch = true -> percent_encode_char ch = String ch "".
Proof. each_char ch. Qed.

Lemma percent_encode_clean (s : string) :
  all_chars segment_char s = true -> all_chars path_char (percent_encode s) = true.
Proof.
  induction s as [|ch s IH]; [done|]. cbn.
  intros [Hch Hs]%andb_true_iff.
  by rewrite all_chars_app, percent_encode_char_clean, IH.
Qed.

Lemma percent_encode_fixed (s : string) :
  all_chars path_char s = true -> percent_encode s = s.
Proof.
  induction s as [|ch s IH]; [done|]. cbn.
  intros [Hch Hs]%andb_true_iff.
  by rewrite percent_encode_char_fixed, IH.
Qed.

Lemma path_state_app (segments path : list string) :
  Forall clean_segment path ->
  Forall (fun seg => all_chars segment_char seg = true) segments ->
  Forall clean_segment (path_state segments path).
Proof.
  revert path. induction segments as [|segment rest IH]; intros path Hpath Hsegs; [done|].
  apply Forall_cons in Hsegs as [Hseg Hrest]. cbn.
  apply IH; [|done].
  assert (Hremove : Forall clean_segment (removelast path)).
  { clear -Hpath. induction Hpath as [|x l Hx Hl IHl]; [done|].
    destruct l; [done|]. cbn. apply Forall_cons. split; [done|]. apply IHl. }
  assert (Hempty : clean_segment "") by done.
  destruct (is_double_dot (percent_encode segment)) eqn:Hdd.
  { destruct rest; [|done]. apply Forall_app. split; [done|]. by apply Forall_singleton. }
  destruct (is_single_dot (percent_encode segment)) eqn:Hsd.
  { destruct rest; [|done]. apply Forall_app. split; [done|]. by apply Forall_singleton. }
  apply Forall_app. split; [done|]. apply Forall_singleton.
  split_and!; [by apply percent_encode_clean|done|done].
Qed.

Lemma path_state_nonempty (segments path : list string) :
  segments <> [] -> path_state segments path <> [].
Proof.
  revert path. induction segments as [|segment rest IH]; intros path Hne; [done|].
  cbn. destruct rest as [|next rest].
  - cbn. destruct (is_double_dot _); [by destruct (removelast path)|].
    destruct (is_single_dot _); by destruct path.
  - apply IH. done.
Qed.

Lemma path_state_clean (segments path : list string) :
  Forall clean_segment segments -> path_state segments path = path ++ segments.
Proof.
  revert path. induction segments as [|segment rest IH]; intros path Hsegs.
  - by rewrite app_nil_r.
  - apply Forall_cons in Hsegs as [(Hchars & Hsd & Hdd) Hrest]. cbn.
    rewrite percent_encode_fixed by done. rewrite Hdd, Hsd.
    rewrite IH by done. by rewrite <- app_assoc.
Qed.

Lemma split_all_nonempty (sep : ascii -> bool) (s : string) : split_all sep s <> [].
Proof.
  induction s as [|ch s IH]; [done|]. cbn.
  destruct (sep ch); [done|]. by destruct (split_all sep s).
Qed.

Lemma split_all_segments (s : string) :
  all_chars (fun ch => negb (Ascii.eqb ch "^")) s = true ->
  Forall (fun seg => all_chars segment_char seg = true) (split_all is_slash s).
Proof.
  induction s as [|ch s IH]; cbn.
  - intros _. by apply Forall_singleton.
  - intros [Hch Hs]%andb_true_iff. specialize (IH Hs).
    destruct (is_slash ch) eqn:Hslash.
    + apply Forall_cons. done.
    + destruct (split_all is_slash s) as [|first others].
      { apply Forall_singleton. cbn. unfold segment_char. by rewrite Hslash, Hch. }
      apply Forall_cons in IH as [Hfirst Hothers].
      apply Forall_cons. split; [|done].
      cbn. unfold segment_char at 1. by rewrite Hslash, Hch, Hfirst.
Qed.

Lemma split_all_no_separator (sep : ascii -> bool) (s : string) :
  all_chars (fun ch => negb (sep ch)) s = true -> split_all sep s = [s].
Proof.
  induction s as [|ch s IH]; [done|]. cbn.
  intros [Hch Hs]%andb_true_iff. apply negb_true_iff in Hch.
  by rewrite Hch, IH.
Qed.

Lemma split_all_app (sep : ascii -> bool) (s rest : string) (ch : ascii) :
  all_chars (fun ch => negb (sep ch)) s = true ->
  sep ch = true ->
  split_all sep (s +:+ String ch rest) = s :: split_all sep rest.
Proof.
  intros Hs Hsep. induction s as [|c s IH].
  - rewrite app_nil_l. cbn. by rewrite Hsep.
  - rewrite app_cons. cbn. cbn in Hs.
    apply andb_true_iff in Hs as [Hc Hs]. apply negb_true_iff in Hc.
    by rewrite Hc, IH.
Qed.

(** Splitting a serialized path at its slashes gives back the segments. *)
Lemma split_serialized (segment : string) (path : list string) :
  Forall clean_segment (segment :: path) ->
  exists body,
    serialize_path (segment :: path) = String "/" body
    /\ split_all is_slash body = segment :: path.
Proof.
  revert segment. induction path as [|next path IH]; intros segment Hclean.
  - exists segment. cbn. rewrite app_empty_r. split; [done|].
    apply split_all_no_separator.
    apply Forall_cons in Hclean as [(Hchars & _) _].
    revert Hchars. apply all_chars_impl. intros ch. unfold path_char.
    intros [[_ H1]%andb_true_iff _]%andb_true_iff. done.
  - apply Forall_cons in Hclean as [Hseg Hrest].
    destruct (IH next Hrest) as (body & Hserial & Hsplit).
    exists (segment +:+ String "/" body). split.
    + change (serialize_path (segment :: next :: path))
        with ("/" +:+ segment +:+ serialize_path (next :: path)).
      by rewrite Hserial.
    + rewrite split_all_app; [by rewrite Hsplit| |done].
      destruct Hseg as (Hchars & _).
      revert Hchars. apply all_chars_impl. intros ch. unfold path_char.
      intros [[_ H1]%andb_true_iff _]%andb_true_iff. done.
Qed.

Lemma span_all (p : ascii -> bool) (s : string) :
  all_chars p s = true -> Js.span p s = (s, "").
Proof.
  induction s as [|ch s IH]; [done|]. cbn.
  intros [Hch Hs]%andb_true_iff. by rewrite Hch, IH.
Qed.

Lemma span_app (p : ascii -> bool) (s rest : string) (ch : ascii) :
  all_chars p s = true -> p ch = false ->
  Js.span p (s +:+ String ch rest) = (s, String ch rest).
Proof.
  intros Hs Hch. induction s as [|c s IH].
  - rewrite app_nil_l. cbn. by rewrite Hch.
  - rewrite app_cons. cbn. cbn in Hs. apply andb_true_iff in Hs as [Hc Hs].
    by rewrite Hc, IH.
Qed.

Lemma serialize_path_chars (path : list string) :
  Forall clean_segment path ->
  all_chars (fun ch => negb (in_path_encode_set ch) && negb (Ascii.eqb ch "^"))
    (serialize_path path) = true.
Proof.
  induction path as [|segment path IH]; [done|].
  intros [(Hchars & _) Hrest]%Forall_cons.
  change (serialize_path (segment :: path))
    with ("/" +:+ segment +:+ serialize_path path).
  rewrite !all_chars_app, IH by done.
  assert (Hseg : all_chars (fun ch => negb (in_path_encode_set ch) && negb (Ascii.eqb ch "^"))
                   segment = true).
  { revert Hchars. apply all_chars_impl.
    intros ch. unfold path_char. intros [[H1 _]%andb_true_iff H2]%andb_true_iff.
    by rewrite H1, H2. }
  by rewrite Hseg.
Qed.

(** A path that the model printed is read back unchanged. *)
Lemma parse_path_serialized (path : list string) :
  path <> [] ->
  Forall clean_segment path ->
  parse_path (serialize_path path) = serialize_path path.
Proof.
  intros Hne Hclean. destruct path as [|segment path]; [done|].
  destruct (split_serialized segment path Hclean) as (body & Hserial & Hsplit).
  unfold parse_path.
  rewrite span_all.
  - rewrite Hserial. cbn. rewrite Hsplit.
    by rewrite path_state_clean.
  - pose proof (serialize_path_chars _ Hclean) as Hchars.
    revert Hchars. apply all_chars_impl. intros ch H.
    apply andb_true_iff in H as [H _]. revert H. each_char ch.
Qed.

(** *** Hosts *)

Lemma lower_idempotent (ch : ascii) : lower (lower ch) = lower ch.
Proof. each_char ch. Qed.

Lemma lower_dot (ch : ascii) : Ascii.eqb (lower ch) "." = Ascii.eqb ch ".".
Proof. each_char ch. Qed.

Lemma lower_label_char (ch : ascii) :
  is_alnum (lower ch) || Ascii.eqb (lower ch) "-" = is_alnum ch || Ascii.eqb ch "-".
Proof. each_char ch. Qed.

Lemma lower_alpha (ch : ascii) : is_alpha (lower ch) = is_alpha ch.
Proof. each_char ch. Qed.

Lemma host_char_facts (ch : ascii) :
  host_char ch = true ->
  is_slash ch = false /\ ends_authority ch = false /\ Ascii.eqb ch "@" = false
  /\ Ascii.eqb ch ":" = false /\ is_c0_or_space ch = false
  /\ is_tab_or_newline ch = false.
Proof. each_char ch. Qed.

Lemma map_lower_idempotent (s : string) :
  map_string lower (map_string lower s) = map_string lower s.
Proof.
  induction s as [|ch s IH]; [done|]. cbn. by rewrite lower_idempotent, IH.
Qed.

Lemma split_all_lower (s : string) :
  split_all (fun ch => Ascii.eqb ch ".") (map_string lower s)
  = map (map_string lower) (split_all (fun ch => Ascii.eqb ch ".") s).
Proof.
  induction s as [|ch s IH]; [done|]. cbn. rewrite lower_dot, IH.
  destruct (Ascii.eqb ch "."); [done|].
  pose proof (split_all_nonempty (fun ch => Ascii.eqb ch ".") s) as Hne.
  by destruct (split_all (fun ch => Ascii.eqb ch ".") s).
Qed.

Lemma plain_label_lower (label : string) :
  plain_label (map_string lower label) = plain_label label.
Proof.
  unfold plain_label. rewrite map_lower_idempotent.
  assert (Hall : all_chars (fun ch => is_alnum ch || Ascii.eqb ch "-") (map_string lower label)
                 = all_chars (fun ch => is_alnum ch || Ascii.eqb ch "-") label).
  { induction label as [|ch label IH]; [done|]. cbn. by rewrite lower_label_char, IH. }
  rewrite Hall. by destruct label.
Qed.

Lemma last_map {A B} (f : A -> B) (l : list A) (d : A) :
  List.last (map f l) (f d) = f (List.last l d).
Proof.
  induction l as [|x l IH]; [done|]. cbn. destruct l; [done|]. apply IH.
Qed.

Lemma plain_host_lower (host : string) :
  plain_host host = true -> plain_host (map_string lower host) = true.
Proof.
  unfold plain_host. rewrite split_all_lower.
  intros [Hlabels Hlast]%andb_true_iff.
  apply andb_true_iff. split.
  - rewrite forallb_forall in *. intros label [l [<- Hin]]%in_map_iff.
    rewrite plain_label_lower. by apply Hlabels.
  - change EmptyString with (map_string lower EmptyString). rewrite last_map.
    destruct (List.last _ _) as [|ch l]; [done|]. cbn in *. by rewrite lower_alpha.
Qed.

Lemma plain_label_chars (label : string) :
  plain_label label = true -> all_chars host_char label = true.
Proof.
  unfold plain_label. destruct label as [|c l]; [done|].
  intros [Hall _]%andb_true_iff. revert Hall. apply all_chars_impl.
  intros ch. unfold host_char. intros ->. done.
Qed.

Lemma split_all_chars (p : ascii -> bool) (sep : ascii -> bool) (s : string) :
  (forall ch, sep ch = true -> p ch = true) ->
  Forall (fun part => all_chars p part = true) (split_all sep s) ->
  all_chars p s = true.
Proof.
  intros Hsep. induction s as [|ch s IH]; [done|]. cbn.
  destruct (sep ch) eqn:Hch.
  - intros [_ Hrest]%Forall_cons. by rewrite (Hsep ch Hch), IH.
  - pose proof (split_all_nonempty sep s) as Hne.
    destruct (split_all sep s) as [|first others]; [done|].
    intros [Hfirst Hothers]%Forall_cons. cbn in Hfirst.
    apply andb_true_iff in Hfirst as [Hc Hfirst].
    rewrite Hc. apply IH. by apply Forall_cons.
Qed.

Lemma plain_host_chars (host : string) :
  plain_host host = true -> all_chars host_char host = true.
Proof.
  unfold plain_host. intros [Hlabels _]%andb_true_iff.
  apply (split_all_chars host_char (fun ch => Ascii.eqb ch ".")).
  - intros ch Hch. unfold host_char. rewrite Hch. by rewrite orb_true_r.
  - apply Forall_forall. intros label Hin. apply plain_label_chars.
    rewrite forallb_forall in Hlabels. apply Hlabels. by apply list_elem_of_In.
Qed.

(** *** Reading the input *)

Lemma drop_while_none (p : ascii -> bool) (s : string) :
  all_chars (fun ch => negb (p ch)) s = true -> drop_while p s = s.
Proof.
  destruct s as [|ch s]; [done|]. cbn.
  intros [Hch _]%andb_true_iff. apply negb_true_iff in Hch. by rewrite Hch.
Qed.

Lemma filter_string_all (p : ascii -> bool) (s : string) :
  all_chars p s = true -> filter_string p s = s.
Proof.
  induction s as [|ch s IH]; [done|]. cbn.
  intros [Hch Hs]%andb_true_iff. by rewrite Hch, IH.
Qed.

Lemma preprocess_fixed (s : string) :
  all_chars (fun ch => negb (is_c0_or_space ch)) s = true -> preprocess s = s.
Proof.
  intros Hs. unfold preprocess.
  rewrite (drop_while_none _ s) by done.
  rewrite drop_while_none by (by rewrite all_chars_rev).
  rewrite rev_involutive. apply filter_string_all.
  revert Hs. apply all_chars_impl. intros ch. each_char ch.
Qed.

Lemma after_last_at_none (s : string) :
  all_chars (fun ch => negb (Ascii.eqb ch "@")) s = true -> after_last_at s = None.
Proof.
  induction s as [|ch s IH]; [done|]. cbn.
  intros [Hch Hs]%andb_true_iff. apply negb_true_iff in Hch. by rewrite IH, Hch.
Qed.

Lemma split_first_none (sep : ascii) (s : string) :
  all_chars (fun ch => negb (Ascii.eqb ch sep)) s = true -> split_first sep s = (s, None).
Proof.
  induction s as [|ch s IH]; [done|]. cbn.
  intros [Hch Hs]%andb_true_iff. apply negb_true_iff in Hch. by rewrite Hch, IH.
Qed.

(** *** What the parser accepts *)

Lemma span_prefix_chars (p q : ascii -> bool) (s : string) :
  all_chars p s = true ->
  all_chars p (fst (Js.span q s)) = true /\ all_chars p (snd (Js.span q s)) = true.
Proof.
  intros Hs. destruct (span_split q s) as [Hsplit _].
  rewrite Hsplit, all_chars_app in Hs. by apply andb_true_iff in Hs.
Qed.

Lemma parse_path_shape (rest : string) :
  all_chars (fun ch => negb (Ascii.eqb ch "^")) rest = true ->
  exists path,
    path <> [] /\ Forall clean_segment path /\ parse_path rest = serialize_path path.
Proof.
  intros Hrest. unfold parse_path.
  set (path_input := fst (Js.span _ rest)).
  set (body := match path_input with
               | String ch s' => if is_slash ch then s' else path_input
               | EmptyString => EmptyString
               end).
  assert (Hinput : all_chars (fun ch => negb (Ascii.eqb ch "^")) path_input = true)
    by apply (span_prefix_chars _ _ rest Hrest).
  assert (Hbody : all_chars (fun ch => negb (Ascii.eqb ch "^")) body = true).
  { subst body. destruct path_input as [|ch s']; [done|].
    destruct (is_slash ch); [|done].
    cbn in Hinput. by apply andb_true_iff in Hinput as [_ ?]. }
  exists (path_state (split_all is_slash body) []). split_and!.
  - apply path_state_nonempty, split_all_nonempty.
  - apply path_state_app; [constructor|]. by apply split_all_segments.
  - done.
Qed.

Lemma parse_Parsed (url : string) (u : URL) :
  parse url = Parsed u ->
  exists scheme host path,
    (scheme = "http" \/ scheme = "https")
    /\ host <> "" /\ plain_host host = true
    /\ path <> [] /\ Forall clean_segment path
    /\ u = MkURL (scheme +:+ ":") (map_string lower host) (serialize_path path).
Proof.
  unfold parse.
  destruct (parse_scheme (preprocess url)) as [[scheme remaining]|]; [|done].
  destruct (String.eqb scheme "http" || String.eqb scheme "https") eqn:Hscheme; [|done].
  destruct (Js.span _ _) as [authority rest].
  destruct (split_first ":" _) as [host port].
  destruct host as [|ch host]; [done|].
  destruct (plain_host (String ch host)) eqn:Hhost; [|done]. simpl negb. cbv iota.
  destruct (valid_port _); [|done]. simpl negb. cbv iota.
  destruct (all_chars _ rest) eqn:Hrest; [|done]. simpl negb. cbv iota.
  intros [= <-].
  destruct (parse_path_shape rest Hrest) as (path & Hne & Hclean & Hpath).
  exists scheme, (String ch host), path. split_and!; try done.
  - apply orb_true_iff in Hscheme as [Hs|Hs]; apply String.eqb_eq in Hs; auto.
  - by rewrite Hpath.
Qed.

Lemma parse_scheme_http (scheme rest : string) :
  scheme = "http" \/ scheme = "https" ->
  parse_scheme (scheme +:+ ":" +:+ rest) = Some (scheme, rest)
  /\ String.eqb scheme "http" || String.eqb scheme "https" = true
  /\ all_chars (fun ch => negb (is_c0_or_space ch)) scheme = true.
Proof. by intros [-> | ->]. Qed.

(** What [cleanUrl] writes for an accepted address is accepted again, and
    as the same URL. *)
Lemma parse_serialized (scheme host : string) (path : list string) :
  scheme = "http" \/ scheme = "https" ->
  host <> "" -> plain_host host = true ->
  path <> [] -> Forall clean_segment path ->
  parse ((scheme +:+ ":") +:+ "//" +:+ map_string lower host +:+ serialize_path path)
  = Parsed (MkURL (scheme +:+ ":") (map_string lower host) (serialize_path path)).
Proof.
  intros Hscheme Hne Hhost Hpath Hclean.
  assert (Hidem : map_string lower (map_string lower host) = map_string lower host)
    by apply map_lower_idempotent.
  assert (Hlhost : plain_host (map_string lower host) = true) by by apply plain_host_lower.
  assert (Hlne : map_string lower host <> "") by by destruct host.
  remember (map_string lower host) as lhost eqn:Hl. clear Hl Hne Hhost host.
  assert (Hchars : all_chars host_char lhost = true) by by apply plain_host_chars.
  destruct path as [|segment path]; [done|].
  destruct (split_serialized segment path Hclean) as (body & Hser & _).
  pose proof (serialize_path_chars _ Hclean) as Hpchars.
  pose proof (parse_path_serialized (segment :: path) Hpath Hclean) as Hreparse.
  remember (serialize_path (segment :: path)) as pathname eqn:Hp. clear Hp.
  assert (Hcaret : all_chars (fun ch => negb (Ascii.eqb ch "^")) pathname = true).
  { revert Hpchars. apply all_chars_impl. intros c Hc.
    by apply andb_true_iff in Hc as [_ ?]. }
  destruct (parse_scheme_http scheme ("//" +:+ lhost +:+ pathname) Hscheme)
    as (Hps & Heqb & Hschars).
  unfold parse. rewrite app_assoc_string.
  rewrite preprocess_fixed.
  2:{ rewrite !all_chars_app, Hschars. cbn [andb].
      change (all_chars _ ":") with true. change (all_chars _ "//") with true. cbn [andb].
      apply andb_true_iff. split.
      - revert Hchars. apply all_chars_impl. intros ch Hch.
        by destruct (host_char_facts ch Hch) as (_ & _ & _ & _ & -> & _).
      - revert Hpchars. apply all_chars_impl. intros ch. each_char ch. }
  rewrite Hps, Heqb.
  assert (Hdrop : drop_while is_slash ("//" +:+ lhost +:+ pathname) = lhost +:+ pathname).
  { destruct lhost as [|ch tl]; [done|]. rewrite !app_cons, app_nil_l.
    cbn in Hchars. apply andb_true_iff in Hchars as [Hch _].
    destruct (host_char_facts ch Hch) as (Hslash & _). cbn. by rewrite Hslash. }
  rewrite Hdrop.
  assert (Hspan : Js.span (fun ch => negb (ends_authority ch)) (lhost +:+ pathname)
                  = (lhost, pathname)).
  { rewrite Hser. apply span_app; [|done].
    revert Hchars. apply all_chars_impl. intros ch Hch.
    by destruct (host_char_facts ch Hch) as (_ & -> & _). }
  rewrite Hspan.
  rewrite after_last_at_none.
  2:{ revert Hchars. apply all_chars_impl. intros ch Hch.
      by destruct (host_char_facts ch Hch) as (_ & _ & -> & _). }
  rewrite split_first_none.
  2:{ revert Hchars. apply all_chars_impl. intros ch Hch.
      by destruct (host_char_facts ch Hch) as (_ & _ & _ & -> & _). }
  rewrite Hlhost, Hcaret, Hidem, Hreparse.
  by destruct lhost.
Qed.

Lemma serialized_stripped (scheme host : string) (path : list string) :
  scheme = "http" \/ scheme = "https" ->
  plain_host host = true -> Forall clean_segment path ->
  no_query_or_fragment
    ((scheme +:+ ":") +:+ "//" +:+ map_string lower host +:+ serialize_path path) = true.
Proof.
  intros Hscheme Hhost Hclean. unfold no_query_or_fragment.
  rewrite !all_chars_app. apply andb_true_iff. split.
  { by destruct Hscheme as [-> | ->]. }
  apply andb_true_iff. split; [done|]. apply andb_true_iff. split.
  - apply plain_host_lower, plain_host_chars in Hhost. revert Hhost.
    apply all_chars_impl. intros ch. each_char ch.
  - pose proof (serialize_path_chars _ Hclean) as Hchars. revert Hchars.
    apply all_chars_impl. intros ch. each_char ch.
Qed.

End CleanUrlParser.

Section CleanUrlProperties.

(** *** The catch branch *)

Lemma before_chars (p : ascii -> bool) (sep : ascii) (s : string) :
  Whatwg.all_chars p s = true -> Whatwg.all_chars p (Js.before sep s) = true.
Proof.
  induction s as [|ch s IH]; [done|]. cbn.
  intros [Hch Hs]%andb_true_iff. destruct (Ascii.eqb ch sep); [done|].
  cbn. by rewrite Hch, IH.
Qed.

Lemma before_no_separator (sep : ascii) (s : string) :
  Whatwg.all_chars (fun ch => negb (Ascii.eqb ch sep)) (Js.before sep s) = true.
Proof.
  induction s as [|ch s IH]; [done|]. cbn.
  destruct (Ascii.eqb ch sep) eqn:Hch; [done|]. cbn. by rewrite Hch, IH.
Qed.

Lemma before_fixed (sep : ascii) (s : string) :
  Whatwg.all_chars (fun ch => negb (Ascii.eqb ch sep)) s = true -> Js.before sep s = s.
Proof.
  induction s as [|ch s IH]; [done|]. cbn.
  intros [Hch Hs]%andb_true_iff. apply negb_true_iff in Hch. by rewrite Hch, IH.
Qed.

Lemma all_chars_and (p q : ascii -> bool) (s : string) :
  Whatwg.all_chars (fun ch => p ch && q ch) s = Whatwg.all_chars p s && Whatwg.all_chars q s.
Proof.
  induction s as [|ch s IH]; [done|]. cbn. rewrite IH.
  destruct (p ch), (q ch), (Whatwg.all_chars p s), (Whatwg.all_chars q s); done.
Qed.

Lemma fallback_stripped (url : string) : no_query_or_fragment (fallback url) = true.
Proof.
  unfold no_query_or_fragment, fallback. rewrite all_chars_and.
  apply andb_true_iff. split.
  - apply before_chars, before_no_separator.
  - apply before_no_separator.
Qed.

Lemma fallback_fixed (s : string) : no_query_or_fragment s = true -> fallback s = s.
Proof.
  unfold no_query_or_fragment, fallback. rewrite all_chars_and.
  intros [Hq Hf]%andb_true_iff. by rewrite (before_fixed "?"), before_fixed.
Qed.

Lemma cleanUrl_rejected `{Platform} (url : string) :
  URL_new url = None -> Background.cleanUrl url = fallback url.
Proof. intros Hurl. unfold Background.cleanUrl. rewrite Hurl. by destruct url. Qed.

(** *** An accepted address *)

Lemma cleanUrl_accepted (url : string) (u : URL) :
  Whatwg.parse url = Whatwg.Parsed u ->
  Background.cleanUrl (H := reference_platform) url
  = protocol u +:+ "//" +:+ hostname u +:+ pathname u.
Proof.
  intros Hparse. unfold Background.cleanUrl. cbn [URL_new reference_platform].
  unfold Whatwg.URL_new. rewrite Hparse. destruct url; [done|done].
Qed.


(** C6.  [cleanUrl] turns [https://a.com/x.js?v=1#f] into
    [https://a.com/x.js].  For every address that the URL parser accepts,
    the result is the protocol, [//], the host name and the path of the
    parsed URL, it holds neither [?] nor [#], and cleaning it again gives
    it back.  For an address that the platform's [URL] constructor rejects
    the result is the text before the first [?] and [#], which holds
    neither; cleaning it again gives it back whenever the constructor
    rejects that text too.  [PopupStorage.cleanUrl] is the same function. *)
Theorem cleanUrl_strips_query_and_is_idempotent_when_accepted :
  Background.cleanUrl (H := reference_platform) "https://a.com/x.js?v=1#f"
  = "https://a.com/x.js"
  /\ (forall (url : string) (u : URL),
        Whatwg.parse url = Whatwg.Parsed u ->
        let cleaned := Background.cleanUrl (H := reference_platform) url in
        cleaned = protocol u +:+ "//" +:+ hostname u +:+ pathname u
        /\ no_query_or_fragment cleaned = true
        /\ Background.cleanUrl (H := reference_platform) cleaned = cleaned)
  /\ (forall (P : Platform) (url : string),
        URL_new url = None ->
        let cleaned := Background.cleanUrl url in
        cleaned = fallback url
        /\ no_query_or_fragment cleaned = true
        /\ (URL_new (fallback url) = None -> Background.cleanUrl cleaned = cleaned))
  /\ (forall (P : Platform) (url : string), Popup.cleanUrl url = Background.cleanUrl url).
Proof.
  split_and!.
  - by vm_compute.
  - intros url u Hparse cleaned. subst cleaned.
    rewrite (cleanUrl_accepted url u Hparse).
    destruct (parse_Parsed url u Hparse)
      as (scheme & host & path & Hscheme & Hne & Hhost & Hpath & Hclean & ->).
    cbn [protocol hostname pathname]. split_and!.
    + done.
    + by apply serialized_stripped.
    + pose proof (parse_serialized scheme host path Hscheme Hne Hhost Hpath Hclean) as Hre.
      by rewrite (cleanUrl_accepted _ _ Hre).
  - intros P url Hurl cleaned. subst cleaned.
    rewrite (cleanUrl_rejected url Hurl). split_and!.
    + done.
    + apply fallback_stripped.
    + intros Hagain. rewrite (cleanUrl_rejected _ Hagain).
      apply fallback_fixed, fallback_stripped.
  - done.
Qed.

End CleanUrlProperties.

Section CleanUrlRuns.
#[local] Existing Instance reference_platform.

(** The address [https://a.com:80 ?x] is rejected for its port; the catch
    branch returns [https://a.com:80 ] with the space, which the parser
    accepts once the space is trimmed: cleaning a second time gives
    [https://a.com/]. *)
Lemma cleanUrl_changes_a_fallback_result :
  Whatwg.parse "https://a.com:80 ?x" = Whatwg.Failure
  /\ Background.cleanUrl "https://a.com:80 ?x" = "https://a.com:80 "
  /\ Background.cleanUrl (Background.cleanUrl "https://a.com:80 ?x") = "https://a.com/"
  /\ Background.cleanUrl (Background.cleanUrl "https://a.com:80 ?x")
     <> Background.cleanUrl "https://a.com:80 ?x".
Proof. by vm_compute. Qed.

Lemma cleanUrl_strips_query_and_is_idempotent_when_accepted_witness :
  Whatwg.parse "HTTPS://User@Cdn.Example.com:8443/a/./b/../c d.js?x=1#top"
  = Whatwg.Parsed (MkURL "https:" "cdn.example.com" "/a/c%20d.js")
  /\ Background.cleanUrl "HTTPS://User@Cdn.Example.com:8443/a/./b/../c d.js?x=1#top"
     = "https://cdn.example.com/a/c%20d.js"
  /\ Background.cleanUrl "https://cdn.example.com/a/c%20d.js"
     = "https://cdn.example.com/a/c%20d.js".
Proof.
  assert (Hparse : Whatwg.parse "HTTPS://User@Cdn.Example.com:8443/a/./b/../c d.js?x=1#top"
                   = Whatwg.Parsed (MkURL "https:" "cdn.example.com" "/a/c%20d.js"))
    by (vm_compute; reflexivity).
  destruct cleanUrl_strips_query_and_is_idempotent_when_accepted as (_ & Haccepted & _).
  destruct (Haccepted _ _ Hparse) as (Hcleaned & _ & Hagain).
  split; [exact Hparse|]. split.
  - exact Hcleaned.
  - rewrite Hcleaned in Hagain. exact Hagain.
Defined.

End CleanUrlRuns.

(* ================================================================== *)
(** * Properties of the page-side hook *)
(* ================================================================== *)

Section HookProperties.
Import MainWorld Examples.
#[local] Open Scope hook_scope.

Lemma call_original_run (env : PageEnv) (type : string) (listener useCapture : value) :
  call_original env type listener useCapture
  = (originalAddEventListener env type listener useCapture,
     [CallOriginal type listener useCapture]).
Proof.
  unfold call_original, hbind, hemit, hret, hthrow.
  by destruct (originalAddEventListener env type listener useCapture).
Qed.

Lemma hbind_outcome {A B} (c : H A) (f : A -> H B) :
  (exists a e1, c = (Returned a, e1) /\ hbind c f = (fst (f a), e1 ++ snd (f a)))
  \/ (exists error e1, c = (Thrown error, e1) /\ hbind c f = (Thrown error, e1)).
Proof.
  destruct c as [[a|error] e1].
  - left. exists a, e1. split; [done|]. unfold hbind. by destruct (f a).
  - right. by exists error, e1.
Qed.

(** When the enrichment does not throw, the hook ends with the call of the
    native function on the caller's arguments and hands back what it
    returned or threw; when the enrichment throws, the native function is
    not reached. *)
Lemma hook_calls_original_or_throws (env : PageEnv) (type : string)
    (listener useCapture : value) :
  (exists before,
      addEventListener env type listener useCapture
      = (originalAddEventListener env type listener useCapture,
         before ++ [CallOriginal type listener useCapture]))
  \/ (exists error before,
        addEventListener env type listener useCapture = (Thrown error, before)
        /\ type = "message").
Proof.
  unfold addEventListener.
  destruct (String.eqb_spec type "message") as [->|Hne].
  2: { left. exists []. apply call_original_run. }
  destruct (isExtensionListener listener).
  { left. exists []. apply call_original_run. }
  match goal with
  | |- context [hbind ?c ?f] =>
      destruct (hbind_outcome c f) as [(pattern_before & e1 & _ & ->)|(error & e1 & _ & ->)]
  end.
  2: { right. by exists error, e1. }
  match goal with
  | |- context [hbind ?c ?f] =>
      destruct (hbind_outcome c f) as [([] & e2 & _ & ->)|(error & e2 & _ & ->)]
  end.
  - left. exists (e1 ++ e2). rewrite call_original_run. simpl. by rewrite app_assoc.
  - right. by exists error, (e1 ++ e2).
Qed.

(** C4. The hook does not reach the native function for every listener.
    For an event-listener object without a usable [toString] the call
    [listener.toString()] of the hook, which no [try] protects, throws
    into the page; so does, in strict mode, the labelling of a frozen bound
    function.  In both cases the native function is never called.  For a
    bound function that can be extended the hook writes a property on the
    page's function object before the native call.  In every other run the
    hook ends with the native call on the caller's arguments and hands back
    its outcome. *)
Theorem hook_throws_before_native_call :
  (forall (env : PageEnv) (useCapture : value),
      addEventListener env "message" bare_listener_object useCapture
      = (Thrown "TypeError", []))
  /\ (forall (env : PageEnv) (useCapture : value),
        addEventListener env "message" frozen_bound_handler useCapture
        = (Thrown "TypeError", []))
  /\ (exists before after,
        snd (addEventListener page "message" bound_handler VUndefined)
        = before ++ [WriteTrackerName "bound onMessage"] ++ after
             ++ [CallOriginal "message" bound_handler VUndefined])
  /\ (forall (env : PageEnv) (type : string) (listener useCapture : value),
        (exists before,
            addEventListener env type listener useCapture
            = (originalAddEventListener env type listener useCapture,
               before ++ [CallOriginal type listener useCapture]))
        \/ (exists error before,
              addEventListener env type listener useCapture = (Thrown error, before)
              /\ type = "message")).
Proof.
  split_and!.
  - intros env useCapture. reflexivity.
  - intros env useCapture. reflexivity.
  - eexists [], [_]. vm_compute. reflexivity.
  - apply hook_calls_original_or_throws.
Qed.

End HookProperties.

(* ================================================================== *)
(** * Properties of the popup's export and import *)
(* ================================================================== *)

Section PopupProperties.
Context `{Platform} `{Popup.Json}.
Import Popup.

Lemma import_with_export (key : string) (items : list json) (exportDate : string)
    (store : list json -> Storage -> Storage * list Effect)
    (describe : nat -> string) (st0 : Storage) :
  key <> "version" -> key <> "exportDate" ->
  round_trips (export_object key items exportDate) ->
  import_with key (JSON_stringify (export_object key items exportDate)) store describe st0
  = (fst (store items st0), snd (store items st0), CallbackOk (describe (length items))).
Proof.
  intros Hversion Hdate Hround. unfold import_with. rewrite Hround.
  assert (Hmember : array_member key (export_object key items exportDate)
                    = Some (Some items)).
  { unfold export_object, array_member. cbn [rev app MainWorld.lookup_inner].
    apply not_eq_sym, String.eqb_neq in Hversion.
    apply not_eq_sym, String.eqb_neq in Hdate.
    by rewrite Hversion, Hdate, String.eqb_refl. }
  rewrite Hmember. by destruct (store items st0).
Qed.

Lemma round_trip_restores (exportDate : string) (st st0 : Storage) :
  exports_round_trip exportDate st -> export_import_restores exportDate st st0.
Proof.
  intros (Hurls & Hlisteners & Hregex).
  unfold export_import_restores. split_and!.
  - eexists. split; [reflexivity|]. unfold importBlockedUrls.
    rewrite import_with_export by done. simpl. split_and!; try done. by eexists.
  - eexists. split; [reflexivity|]. unfold importBlockedListeners.
    rewrite import_with_export by done. simpl. split_and!; try done. by eexists.
  - eexists. split; [reflexivity|]. unfold importBlockedRegex.
    rewrite import_with_export by done. unfold saveRegexPatterns.
    destruct (compile_patterns (blockedRegex st)) as [compiled warnings]. simpl.
    split_and!; try done. by eexists.
Qed.

End PopupProperties.

(* ================================================================== *)
(** * Properties of the JSON text model *)
(* ================================================================== *)

Section JsonTextProperties.
Import Popup JsonText.

Lemma skip_ws_blank (ws : string) (ch : ascii) (s : string) :
  Whatwg.all_chars is_ws ws = true -> is_ws ch = false ->
  skip_ws (ws +:+ String ch s) = String ch s.
Proof.
  intros Hws Hch. induction ws as [|c ws IH].
  - rewrite app_nil_l. cbn. by rewrite Hch.
  - cbn in Hws. apply andb_true_iff in Hws as [Hc Hws].
    rewrite app_cons. cbn. rewrite Hc. by apply IH.
Qed.

Lemma blank_app (a b : string) :
  Whatwg.all_chars is_ws a = true -> Whatwg.all_chars is_ws b = true ->
  Whatwg.all_chars is_ws (a +:+ b) = true.
Proof.
  intros Ha Hb. induction a as [|c a IH]; [by rewrite app_nil_l|].
  cbn in Ha. apply andb_true_iff in Ha as [Hc Ha].
  rewrite app_cons. cbn. by rewrite Hc, IH.
Qed.

Lemma blank_spaces (n : nat) : Whatwg.all_chars is_ws (spaces n) = true.
Proof. induction n as [|n IH]; [done|]. cbn. by rewrite IH. Qed.

Lemma blank_line (n : nat) : Whatwg.all_chars is_ws (newline +:+ spaces n) = true.
Proof. apply blank_app; [done|apply blank_spaces]. Qed.

(** *** String literals *)

Lemma parse_string_escape_char (ch : ascii) (tail : string) :
  parse_string (escape_char ch +:+ tail) = cons_text ch (parse_string tail).
Proof. destruct ch as [[] [] [] [] [] [] [] []]; reflexivity. Qed.

Lemma parse_string_escape (s rest : string) :
  parse_string (escape s +:+ String quote_char rest) = Some (s, rest).
Proof.
  induction s as [|ch s IH]; [done|].
  cbn [escape]. rewrite app_assoc_string, parse_string_escape_char, IH. done.
Qed.

Lemma quote_cons (s rest : string) :
  quote s +:+ rest = String quote_char (escape s +:+ String quote_char rest).
Proof. unfold quote. by rewrite app_cons, app_assoc_string, app_cons, app_nil_l. Qed.

Lemma string_reads_back (s : string) : reads_back (JString s) 1.
Proof.
  intros fuel indent ws rest Hfuel Hws.
  destruct fuel as [|fuel]; [lia|].
  cbn [print]. rewrite quote_cons. cbn [parse_value].
  rewrite skip_ws_blank by done.
  change (Ascii.eqb quote_char quote_char) with true. cbv iota.
  by rewrite parse_string_escape.
Qed.

(** *** Arrays *)

(** A value starts with a character that closes neither an array nor an
    object. *)
Lemma parse_value_first (fuel : nat) (s : string) (r : json * string) :
  parse_value fuel s = Some r ->
  exists ch tail, skip_ws s = String ch tail
                  /\ Ascii.eqb ch "]" = false /\ Ascii.eqb ch "}" = false.
Proof.
  destruct fuel as [|fuel]; [done|]. cbn [parse_value].
  destruct (skip_ws s) as [|ch tail]; [done|].
  intros Hparse. exists ch, tail. split; [done|].
  destruct (Ascii.eqb ch "]") eqn:Hclose.
  { apply Ascii.eqb_eq in Hclose as ->. by vm_compute in Hparse. }
  destruct (Ascii.eqb ch "}") eqn:Hbrace; [|done].
  apply Ascii.eqb_eq in Hbrace as ->. by vm_compute in Hparse.
Qed.

Lemma parse_items_printed (k cost : nat) (items : list json) :
  items <> [] -> Forall (fun v => reads_back v cost) items ->
  forall (fuel : nat) (ws close_ws rest : string),
    cost + length items <= fuel ->
    Whatwg.all_chars is_ws ws = true -> Whatwg.all_chars is_ws close_ws = true ->
    parse_items fuel
      (ws +:+ join_lines k (map (print k) items) +:+ close_ws +:+ String "]" rest)
    = Some (items, rest).
Proof.
  induction items as [|v items IH]; [done|].
  intros _ [Hv Hitems]%Forall_cons fuel ws close_ws rest Hfuel Hws Hclose.
  destruct fuel as [|fuel]; [cbn in Hfuel; lia|]. cbn [parse_items].
  destruct items as [|v' items].
  - cbn [map join_lines]. rewrite Hv by (cbn in Hfuel; lia || done).
    rewrite skip_ws_blank by done. done.
  - change (join_lines k (map (print k) (v :: v' :: items)))
      with (print k v +:+ "," +:+ newline +:+ spaces k
            +:+ join_lines k (map (print k) (v' :: items))).
    rewrite !app_assoc_string.
    rewrite Hv by (cbn in Hfuel; lia || done).
    rewrite app_cons, app_nil_l. cbn [skip_ws]. change (is_ws ",") with false. cbv iota.
    change (Ascii.eqb "," "]") with false. change (Ascii.eqb "," ",") with true. cbv iota.
    rewrite <- (app_assoc_string newline (spaces k)).
    rewrite IH; try done.
    + cbn in *. lia.
    + apply blank_line.
Qed.

Lemma array_reads_back (cost : nat) (items : list json) :
  Forall (fun v => reads_back v cost) items ->
  reads_back (JArray items) (S (cost + length items)).
Proof.
  intros Hitems fuel indent ws rest Hfuel Hws.
  destruct fuel as [|fuel]; [lia|]. cbn [parse_value].
  destruct items as [|v items].
  - cbn [print]. rewrite (app_cons "[" "]"), (app_cons "]" ""), app_nil_l.
    rewrite skip_ws_blank by done. done.
  - change (print indent (JArray (v :: items)))
      with ("[" +:+ newline +:+ spaces (2 + indent)
            +:+ join_lines (2 + indent) (map (print (2 + indent)) (v :: items))
            +:+ newline +:+ spaces indent +:+ "]").
    rewrite !app_assoc_string, (app_cons "[" ""), app_nil_l.
    rewrite skip_ws_blank by done.
    change (Ascii.eqb "[" quote_char) with false.
    change (Ascii.eqb "[" "[") with true. cbv iota.
    rewrite <- (app_assoc_string newline (spaces (2 + indent))).
    rewrite <- (app_assoc_string newline (spaces indent)).
    rewrite (app_cons "]" ""), app_nil_l.
    assert (Hparse : parse_items fuel
              ((newline +:+ spaces (2 + indent))
               +:+ join_lines (2 + indent) (map (print (2 + indent)) (v :: items))
               +:+ (newline +:+ spaces indent) +:+ String "]" rest)
            = Some (v :: items, rest)).
    { apply (parse_items_printed _ cost); try done; try apply blank_line. lia. }
    rewrite Hparse.
    destruct fuel as [|fuel']; [done|]. cbn [parse_items] in Hparse.
    destruct (parse_value fuel' _) as [r|] eqn:Hfirst; [|done].
    destruct (parse_value_first _ _ _ Hfirst) as (ch & tail & -> & -> & _). done.
Qed.

(** *** Objects *)

Lemma parse_members_printed (k cost : nat) (members : list (string * json)) :
  members <> [] -> Forall (fun kv => reads_back (snd kv) cost) members ->
  forall (fuel : nat) (ws close_ws rest : string),
    cost + length members <= fuel ->
    Whatwg.all_chars is_ws ws = true -> Whatwg.all_chars is_ws close_ws = true ->
    parse_members fuel
      (ws +:+ join_lines k
                (map (fun kv => quote (fst kv) +:+ ": " +:+ print k (snd kv)) members)
       +:+ close_ws +:+ String "}" rest)
    = Some (members, rest).
Proof.
  induction members as [|[key v] members IH]; [done|].
  intros _ [Hv Hmembers]%Forall_cons fuel ws close_ws rest Hfuel Hws Hclose.
  cbn [snd] in Hv.
  destruct fuel as [|fuel]; [cbn in Hfuel; lia|]. cbn [parse_members].
  destruct members as [|kv members].
  - cbn [map join_lines fst snd]. rewrite !app_assoc_string, quote_cons.
    rewrite skip_ws_blank by done.
    change (Ascii.eqb quote_char quote_char) with true. cbv iota.
    rewrite parse_string_escape. rewrite (app_cons ":" " ").
    cbn [skip_ws]. change (is_ws ":") with false. cbv iota.
    change (Ascii.eqb ":" ":") with true. cbv iota.
    rewrite Hv by (cbn in Hfuel; lia || done).
    rewrite skip_ws_blank by done. done.
  - change (join_lines k (map (fun kv => quote (fst kv) +:+ ": " +:+ print k (snd kv))
                            ((key, v) :: kv :: members)))
      with ((quote key +:+ ": " +:+ print k v) +:+ "," +:+ newline +:+ spaces k
            +:+ join_lines k (map (fun kv => quote (fst kv) +:+ ": " +:+ print k (snd kv))
                                (kv :: members))).
    rewrite !app_assoc_string, quote_cons.
    rewrite skip_ws_blank by done.
    change (Ascii.eqb quote_char quote_char) with true. cbv iota.
    rewrite parse_string_escape. rewrite (app_cons ":" " ").
    cbn [skip_ws]. change (is_ws ":") with false. cbv iota.
    change (Ascii.eqb ":" ":") with true. cbv iota.
    rewrite Hv by (cbn in Hfuel; lia || done).
    rewrite app_cons, app_nil_l. cbn [skip_ws]. change (is_ws ",") with false. cbv iota.
    change (Ascii.eqb "," "}") with false. change (Ascii.eqb "," ",") with true. cbv iota.
    rewrite <- (app_assoc_string newline (spaces k)).
    rewrite IH; try done.
    + cbn in *. lia.
    + apply blank_line.
Qed.

Lemma object_reads_back (cost : nat) (members : list (string * json)) :
  Forall (fun kv => reads_back (snd kv) cost) members ->
  reads_back (JObject members) (S (cost + length members)).
Proof.
  intros Hmembers fuel indent ws rest Hfuel Hws.
  destruct fuel as [|fuel]; [lia|]. cbn [parse_value].
  destruct members as [|kv members].
  - cbn [print]. rewrite (app_cons "{" "}"), (app_cons "}" ""), app_nil_l.
    rewrite skip_ws_blank by done. done.
  - change (print indent (JObject (kv :: members)))
      with ("{" +:+ newline +:+ spaces (2 + indent)
            +:+ join_lines (2 + indent)
                  (map (fun kv => quote (fst kv) +:+ ": " +:+ print (2 + indent) (snd kv))
                     (kv :: members))
            +:+ newline +:+ spaces indent +:+ "}").
    rewrite !app_assoc_string, (app_cons "{" ""), app_nil_l.
    rewrite skip_ws_blank by done.
    change (Ascii.eqb "{" quote_char) with false.
    change (Ascii.eqb "{" "[") with false.
    change (Ascii.eqb "{" "{") with true. cbv iota.
    rewrite <- (app_assoc_string newline (spaces (2 + indent))).
    rewrite <- (app_assoc_string newline (spaces indent)).
    rewrite (app_cons "}" ""), app_nil_l.
    set (text := (newline +:+ spaces (2 + indent)) +:+ _).
    assert (Hparse : parse_members fuel text = Some (kv :: members, rest)).
    { subst text. apply (parse_members_printed _ cost); try done; try apply blank_line. lia. }
    assert (Hfirst : exists tail, skip_ws text = String quote_char tail).
    { subst text. destruct kv as [key v].
      destruct members as [|kv members]; cbn [map join_lines fst snd];
        rewrite !app_assoc_string, quote_cons;
        rewrite <- (app_assoc_string newline (spaces (2 + indent)));
        (rewrite skip_ws_blank; [by eexists|apply blank_line|done]). }
    rewrite Hparse. destruct Hfirst as [tail ->]. done.
Qed.

(** *** Documents *)

Lemma parse_printed (v : json) (cost : nat) :
  reads_back v cost -> cost <= S (String.length (stringify v)) ->
  parse (stringify v) = Some v.
Proof.
  intros Hv Hcost. unfold parse.
  pose proof (Hv (S (String.length (stringify v))) 0 "" "" Hcost eq_refl) as Hparse.
  rewrite app_nil_l, app_empty_r in Hparse. unfold stringify in *. by rewrite Hparse.
Qed.

(** *** The documents of an export *)

Lemma length_app_string (a b : string) :
  String.length (a +:+ b) = String.length a + String.length b.
Proof. induction a as [|ch a IH]; [done|]. rewrite app_cons. cbn. by rewrite IH. Qed.

Lemma join_lines_length (k : nat) (items : list string) :
  Forall (fun item => 1 <= String.length item) items ->
  length items <= String.length (join_lines k items).
Proof.
  induction items as [|item items IH]; [done|].
  intros [Hitem Hitems]%Forall_cons. destruct items as [|item' items].
  - cbn. lia.
  - change (join_lines k (item :: item' :: items))
      with (item +:+ "," +:+ newline +:+ spaces k +:+ join_lines k (item' :: items)).
    rewrite !length_app_string. specialize (IH Hitems). cbn in *. lia.
Qed.

Lemma strings_read_back (strs : list string) :
  Forall (fun v => reads_back v 1) (map JString strs).
Proof. apply Forall_forall. intros v [s [-> _]]%list_elem_of_fmap. apply string_reads_back. Qed.

Lemma printed_strings_length (k : nat) (strs : list string) :
  length strs <= String.length (print k (JArray (map JString strs))).
Proof.
  destruct strs as [|s strs]; [cbn; lia|].
  change (print k (JArray (map JString (s :: strs))))
    with ("[" +:+ newline +:+ spaces (2 + k)
          +:+ join_lines (2 + k) (map (print (2 + k)) (map JString (s :: strs)))
          +:+ newline +:+ spaces k +:+ "]").
  rewrite !length_app_string.
  pose proof (join_lines_length (2 + k) (map (print (2 + k)) (map JString (s :: strs)))) as Hlen.
  rewrite !length_map in Hlen.
  assert (Hitems : Forall (fun item => 1 <= String.length item)
                     (map (print (2 + k)) (map JString (s :: strs)))).
  { apply Forall_forall. intros item [v [-> [t [-> _]]%list_elem_of_fmap]]%list_elem_of_fmap.
    cbn. lia. }
  specialize (Hlen Hitems). lia.
Qed.

(** The text of an exported list of strings is parsed back to the
    exported object. *)
Lemma export_of_strings_parsed (key : string) (strs : list string) (exportDate : string) :
  parse (stringify (export_object key (map JString strs) exportDate))
  = Some (export_object key (map JString strs) exportDate).
Proof.
  apply (parse_printed _ (S (S (S (length strs)) + 3))).
  - unfold export_object. apply (object_reads_back (S (S (length strs)))).
    apply Forall_cons_2; [|apply Forall_cons_2; [|apply Forall_cons_2; [|apply Forall_nil_2]]];
      cbn [snd].
    + pose proof (array_reads_back 1 (map JString strs) (strings_read_back strs)) as Harray.
      rewrite length_map in Harray. exact Harray.
    + intros fuel indent ws rest Hfuel Hws. apply string_reads_back; [lia|done].
    + intros fuel indent ws rest Hfuel Hws. apply string_reads_back; [lia|done].
  - unfold stringify, export_object.
    change (print 0 (JObject [(key, JArray (map JString strs));
                               ("exportDate", JString exportDate);
                               ("version", JString "1.0")]))
      with ("{" +:+ newline +:+ spaces 2
            +:+ ((quote key +:+ ": " +:+ print 2 (JArray (map JString strs)))
                 +:+ "," +:+ newline +:+ spaces 2
                 +:+ (quote "exportDate" +:+ ": " +:+ quote exportDate)
                 +:+ "," +:+ newline +:+ spaces 2
                 +:+ (quote "version" +:+ ": " +:+ quote "1.0"))
            +:+ newline +:+ spaces 0 +:+ "}").
    rewrite !length_app_string.
    pose proof (printed_strings_length 2 strs) as Hlen.
    change (String.length "{") with 1. change (String.length newline) with 1.
    change (String.length (spaces 2)) with 2. change (String.length ",") with 1.
    lia.
Qed.

End JsonTextProperties.

Section PopupRoundTrip.
Import Popup.

(** C8.  For each of the three block lists: the text written by the
    export, read by the import of the same kind into any installation,
    gives that installation the exported list, element by element and in
    the same order, and reports success; the other two lists of the
    importing installation are left alone, and for the regex list the
    compiled patterns are those of the imported list.  This holds on every
    platform whose [JSON.parse] gives back the three exported objects from
    what [JSON.stringify] printed for them, and it holds on the JSON text
    model for every installation whose lists hold strings. *)
Theorem export_then_import_restores_list :
  (forall (P : Platform) (J : Json) (exportDate : string) (st st0 : Storage),
      exports_round_trip exportDate st -> export_import_restores exportDate st st0)
  /\ (forall (P : Platform) (exportDate : string) (st st0 : Storage),
        string_lists st ->
        @export_import_restores P JsonText.reference_json exportDate st st0).
Proof.
  split.
  - intros P J exportDate st st0. apply round_trip_restores.
  - intros P exportDate st st0 (urls & listeners & patterns & Hurls & Hlisteners & Hregex).
    apply round_trip_restores. unfold exports_round_trip, round_trips.
    rewrite Hurls, Hlisteners, Hregex.
    split_and!; apply export_of_strings_parsed.
Qed.

End PopupRoundTrip.

Section PopupRuns.
Import Popup Examples.
#[local] Existing Instance reference_platform.
#[local] Existing Instance JsonText.reference_json.

(** C8 on a concrete run: the three lists of one popup, exported and then
    imported into a fresh installation. *)
Lemma export_then_import_restores_list_witness :
  (exists text,
      downloaded (exportBlockedUrls "2024-05-01T10:00:00.000Z" popup_lists) = Some text
      /\ blockedUrls (fst (fst (importBlockedUrls text popup_empty)))
         = blockedUrls popup_lists)
  /\ (exists text,
        downloaded (exportBlockedRegex "2024-05-01T10:00:00.000Z" popup_lists) = Some text
        /\ compiledRegex (fst (fst (importBlockedRegex text popup_empty)))
           = compiledRegex popup_lists).
Proof.
  destruct export_then_import_restores_list as [Hany _].
  destruct (Hany reference_platform JsonText.reference_json "2024-05-01T10:00:00.000Z"
              popup_lists popup_empty) as (Hurls & _ & Hregex).
  - repeat split; vm_compute; reflexivity.
  - split.
    + destruct Hurls as (text & Htext & Hlist & _). by exists text.
    + destruct Hregex as (text & Htext & _ & Hcompiled & _). exists text.
      split; [done|]. rewrite Hcompiled. reflexivity.
Defined.

End PopupRuns.

(* ================================================================== *)
(** * The tracking store over sequences of events *)
(* ================================================================== *)

Section StoreProperties.
Context `{Platform}.
Import Background.
#[local] Open Scope js_scope.

Ltac run_handler :=
  unfold exec, result, effects, bind, ret, get, modify, emit, emit_all, when; simpl.

Lemma prepared_other (s : State) (tabId other : Z) :
  other <> tabId ->
  tab_listeners (prepared tabId s) !! other = tab_listeners s !! other
  /\ tab_listener_keys (prepared tabId s) !! other = tab_listener_keys s !! other.
Proof.
  intros Hne. unfold prepared.
  destruct (tab_listeners s !! tabId) eqn:Hl; simpl.
  - destruct (dedupeEnabled s); [|done].
    destruct (tab_listener_keys s !! tabId); [done|]. simpl.
    by rewrite lookup_insert_ne.
  - destruct (dedupeEnabled s); simpl.
    + rewrite lookup_insert_eq. simpl. by rewrite !lookup_insert_ne.
    + by rewrite !lookup_insert_ne.
Qed.

Lemma records_of_prepared (s : State) (tabId other : Z) :
  records_of (prepared tabId s) other = records_of s other.
Proof.
  unfold records_of. destruct (decide (other = tabId)) as [->|Hne].
  - by rewrite prepared_records.
  - by destruct (prepared_other s tabId other Hne) as [-> _].
Qed.

Lemma keys_seen_prepared (s : State) (tabId other : Z) :
  keys_seen (prepared tabId s) other = keys_seen s other.
Proof.
  destruct (decide (other = tabId)) as [->|Hne].
  - unfold keys_seen at 1. rewrite prepared_records.
    unfold prepared, keys_seen.
    destruct (tab_listeners s !! tabId) eqn:Hl; simpl.
    + destruct (dedupeEnabled s); [|done].
      destruct (tab_listener_keys s !! tabId) eqn:Hk; simpl; [by rewrite Hk|].
      by rewrite lookup_insert_eq.
    + destruct (dedupeEnabled s); simpl; rewrite ?lookup_insert_eq; simpl;
        by rewrite ?lookup_insert_eq.
  - unfold keys_seen. by destruct (prepared_other s tabId other Hne) as [-> ->].
Qed.

Lemma push_then_key_listeners (s : State) (tabId : Z) (r : Msg) :
  tab_listeners (exec (addListenerKey r tabId) (exec (pushListener r tabId) s))
  = alter (fun ls => ls ++ [r]) tabId (tab_listeners s).
Proof.
  unfold addListenerKey, pushListener. run_handler.
  destruct (dedupeEnabled s); simpl; [|done].
  by destruct (bool_decide (tab_listener_keys s !! tabId = None)).
Qed.

(** What [addListener] does to the records and keys of each tab while
    deduplication is on. *)
Lemma addListener_store (s : State) (tabId : Z) (r : Msg) :
  dedupeEnabled s = true ->
  let s' := exec (addListener tabId r) s in
  let added := result (addListener tabId r) s in
  dedupeEnabled s' = true
  /\ (added = true -> generateListenerKey r ∉ keys_seen s tabId)
  /\ (forall other : Z,
        records_of s' other
        = (if bool_decide (other = tabId) && added then records_of s other ++ [r]
           else records_of s other)
        /\ keys_seen s' other
           = (if bool_decide (other = tabId) && added
              then keys_seen s other ∪ {[generateListenerKey r]}
              else keys_seen s other)).
Proof.
  intros Hd s' added. subst s' added.
  destruct (isFromExtension (listener r) (stack r)) eqn:Hf.
  { destruct (addListener_filtered s tabId r) as [-> ->].
    - unfold passes_filter. by rewrite Hf.
    - split_and!; [done|done|]. intros other. by rewrite andb_false_r. }
  destruct (addListener_run s tabId r Hf) as [Hres Hexec].
  rewrite Hres, Hexec, Hd. cbn [andb].
  destruct (bool_decide_reflect (generateListenerKey r ∈ keys_seen s tabId)) as [Hin|Hnew];
    cbn [negb].
  - split_and!; [by rewrite prepared_dedupe|done|]. intros other.
    rewrite andb_false_r. by rewrite records_of_prepared, keys_seen_prepared.
  - split_and!.
    + by rewrite push_then_key_dedupe, prepared_dedupe.
    + done.
    + intros other. rewrite andb_true_r.
      pose proof (prepared_records s tabId) as Hl.
      pose proof (prepared_keys s tabId Hd) as Hk.
      pose proof (push_then_key_keys (prepared tabId s) tabId r _ Hk) as Hkeys.
      rewrite prepared_dedupe, Hd in Hkeys.
      pose proof (push_then_key_listeners (prepared tabId s) tabId r) as Hls.
      unfold records_of, keys_seen. rewrite Hkeys, Hls.
      destruct (bool_decide_reflect (other = tabId)) as [->|Hne].
      * rewrite lookup_alter, decide_True by done. rewrite Hl. simpl.
        by rewrite lookup_insert_eq.
      * rewrite lookup_alter, decide_False by done.
        rewrite lookup_insert_ne by done.
        destruct (prepared_other s tabId other Hne) as [-> ->]. done.
Qed.

Lemma store_consistent_step (s s' : State) :
  store_consistent s ->
  (forall other : Z,
      (records_of s' other = records_of s other /\ keys_seen s' other = keys_seen s other)
      \/ (records_of s' other = [] /\ keys_seen s' other = ∅)) ->
  store_consistent s'.
Proof.
  intros Hs Hstep tabId. destruct (Hstep tabId) as [[-> ->]|[-> ->]]; [apply Hs|].
  split; [done|constructor].
Qed.

Lemma addListener_consistent (s : State) (tabId : Z) (r : Msg) :
  dedupeEnabled s = true -> store_consistent s ->
  store_consistent (exec (addListener tabId r) s).
Proof.
  intros Hd Hs other.
  destruct (addListener_store s tabId r Hd) as (_ & Hnew & Hstore).
  destruct (Hstore other) as [-> ->].
  destruct (Hs other) as [Hkeys Hnodup].
  destruct (bool_decide_reflect (other = tabId)) as [->|Hne]; [|done].
  destruct (result (addListener tabId r) s); [|done]. cbn [andb].
  specialize (Hnew eq_refl). rewrite Hkeys in Hnew |- *.
  unfold keys_of in *. rewrite map_app. cbn [map]. split.
  - rewrite list_to_set_app_L. cbn. set_solver.
  - apply NoDup_app. split_and!; [done| |apply NoDup_singleton].
    intros k Hk ->%list_elem_of_singleton. apply Hnew. by apply elem_of_list_to_set.
Qed.

(** ** The state after each handler *)

(** The state after [runtime.onMessage] for a message from a tab that is
    not the settings update. *)
Lemma onMessage_state (s : State) (msg : Msg) (tab : Tab) :
  action msg <> Some "updateDedupeSetting" ->
  exec (onMessage msg (Some tab)) s
  = if Js.truthy (listener msg) then
      if bool_decide (listener msg = Some NATIVE_CODE) then s
      else
        let s1 := exec (addListener (tab_id tab) (with_parent_url (tab_url tab) msg)) s in
        let s2 := if pushState msg then set_tab_push <[tab_id tab := true]> s1 else s1 in
        if changePage msg then set_tab_lasturl (delete (tab_id tab)) s2 else s2
    else
      let s2 := if pushState msg then set_tab_push <[tab_id tab := true]> s else s in
      if changePage msg then set_tab_lasturl (delete (tab_id tab)) s2 else s2.
Proof.
  intros Haction. unfold onMessage.
  rewrite bool_decide_eq_false_2 by done.
  destruct (Js.truthy (listener msg)) eqn:Hcode; simpl.
  - destruct (bool_decide (listener msg = Some NATIVE_CODE)); [done|].
    rewrite Hcode.
    rewrite exec_bind. rewrite !exec_bind, !exec_when, exec_if.
    set (s1 := exec (addListener _ _) s) in *.
    destruct (pushState msg), (changePage msg), (Js.truthy (log msg));
      try rewrite !exec_bind; try rewrite exec_when;
      try destruct (result _ s); done.
  - rewrite Hcode. unfold notifyPopups. run_handler.
    by destruct (pushState msg), (changePage msg), (Js.truthy (log msg)).
Qed.

Lemma onUpdated_store (s : State) (tabId : Z) (status : option string) :
  let s' := exec (onUpdated tabId status) s in
  dedupeEnabled s' = dedupeEnabled s
  /\ forall other : Z,
       (records_of s' other = records_of s other /\ keys_seen s' other = keys_seen s other)
       \/ (records_of s' other = [] /\ keys_seen s' other = ∅).
Proof.
  unfold onUpdated, clearListeners, notifyPopups, records_of, keys_seen.
  destruct (bool_decide (status = Some "complete")).
  { run_handler.
    destruct (bool_decide (tabId = selectedId s)), (bool_decide (status = Some "loading"));
      simpl; split; try done; by left. }
  destruct (Js.truthy status); [|run_handler;
    destruct (bool_decide (status = Some "loading")); simpl; split; try done; by left].
  destruct (flag_set (tab_push s) tabId) eqn:Hpush.
  { run_handler. rewrite Hpush. simpl.
    destruct (bool_decide (status = Some "loading")); simpl; split; try done; by left. }
  destruct (flag_set (tab_lasturl s) tabId) eqn:Hlast.
  { run_handler. rewrite Hpush, Hlast. simpl.
    destruct (bool_decide (status = Some "loading")); simpl; split; try done; by left. }
  run_handler. rewrite Hpush, Hlast. simpl.
  assert (Hstore : forall other : Z,
             (default [] (<[tabId := []]> (tab_listeners s) !! other)
              = default [] (tab_listeners s !! other)
              /\ match <[tabId := []]> (tab_listeners s) !! other with
                 | Some _ => default ∅ (alter (fun _ => ∅) tabId (tab_listener_keys s) !! other)
                 | None => ∅
                 end
                 = match tab_listeners s !! other with
                   | Some _ => default ∅ (tab_listener_keys s !! other)
                   | None => ∅
                   end)
             \/ (default [] (<[tabId := []]> (tab_listeners s) !! other) = []
                 /\ match <[tabId := []]> (tab_listeners s) !! other with
                    | Some _ => default ∅ (alter (fun _ => ∅) tabId (tab_listener_keys s) !! other)
                    | None => ∅
                    end = ∅)).
  { intros other. destruct (decide (other = tabId)) as [->|Hne].
    - right. rewrite lookup_insert_eq, lookup_alter, decide_True by done.
      by destruct (tab_listener_keys s !! tabId).
    - left. rewrite lookup_insert_ne by done.
      by rewrite lookup_alter, decide_False by done. }
  destruct (tab_listeners s !! tabId) as [[|r rs]|]; simpl;
    destruct (bool_decide (status = Some "loading")); simpl; split; try done.
Qed.

Lemma store_unchanged_consistent (s s' : State) :
  tab_listeners s' = tab_listeners s -> tab_listener_keys s' = tab_listener_keys s ->
  store_consistent s -> store_consistent s'.
Proof.
  intros Hl Hk Hs tabId. unfold records_of, keys_seen. rewrite Hl, Hk. apply Hs.
Qed.

Lemma flags_consistent (s : State) (f g : gmap Z bool -> gmap Z bool) :
  store_consistent s -> store_consistent (set_tab_lasturl g (set_tab_push f s)).
Proof. by apply store_unchanged_consistent. Qed.

Lemma onMessage_consistent (s : State) (msg : Msg) (sender : option Tab) :
  (action msg = Some "updateDedupeSetting" -> enabled msg = true) ->
  dedupeEnabled s = true -> store_consistent s ->
  dedupeEnabled (exec (onMessage msg sender) s) = true
  /\ store_consistent (exec (onMessage msg sender) s).
Proof.
  intros Hkeep Hd Hs.
  destruct (decide (action msg = Some "updateDedupeSetting")) as [Hupdate|Hother].
  { unfold onMessage. rewrite bool_decide_eq_true_2 by done. run_handler.
    rewrite (Hkeep Hupdate). simpl. split; [done|].
    by apply (store_unchanged_consistent s). }
  destruct sender as [tab|].
  2:{ unfold onMessage. rewrite bool_decide_eq_false_2 by done. by run_handler. }
  rewrite onMessage_state by done.
  destruct (Js.truthy (listener msg)).
  - destruct (bool_decide (listener msg = Some NATIVE_CODE)); [done|].
    destruct (addListener_store s (tab_id tab) (with_parent_url (tab_url tab) msg) Hd)
      as (Hd' & _).
    pose proof (addListener_consistent s (tab_id tab) (with_parent_url (tab_url tab) msg)
                  Hd Hs) as Hs'.
    cbn zeta. destruct (pushState msg), (changePage msg); split; try done;
      by apply (store_unchanged_consistent (exec (addListener _ _) s)).
  - cbn zeta. destruct (pushState msg), (changePage msg); split; try done;
      by apply (store_unchanged_consistent s).
Qed.

(** One event that leaves deduplication on keeps the store consistent. *)
Lemma handle_consistent (e : Incoming) (s : State) :
  keeps_dedupe e -> dedupeEnabled s = true -> store_consistent s ->
  dedupeEnabled (exec (handle e) s) = true /\ store_consistent (exec (handle e) s).
Proof.
  intros Hkeep Hd Hs. destruct e as [msg sender|tabId status|tabId|tabId|changes|settings
                                     |env|env|env later port|env later port|port]; cbn [handle].
  - by apply onMessage_consistent.
  - destruct (onUpdated_store s tabId status) as [Hd' Hstore].
    split; [by rewrite Hd'|]. by apply (store_consistent_step s).
  - unfold onActivated, notifyPopups. run_handler. split; [done|].
    by apply (store_unchanged_consistent s).
  - split; [by unfold onRemoved; run_handler;
            destruct (bool_decide (currentTabId (cachedPopupData s) = Some tabId))|].
    apply (store_consistent_step s); [done|]. intros other.
    unfold onRemoved, records_of, keys_seen. run_handler.
    destruct (decide (other = tabId)) as [->|Hne].
    + right. destruct (bool_decide (currentTabId (cachedPopupData s) = Some tabId)); simpl;
        by rewrite lookup_delete_eq.
    + left. destruct (bool_decide (currentTabId (cachedPopupData s) = Some tabId)); simpl;
        by rewrite !lookup_delete_ne.
  - unfold onStorageChanged, compileRegexPatterns. run_handler.
    destruct (ch_blockedListeners changes), (ch_blockedUrls changes),
      (ch_blockedRegex changes); simpl;
      repeat match goal with
             | |- context [compile_patterns ?l] => destruct (compile_patterns l); simpl
             end; split; try done; by apply (store_unchanged_consistent s).
  - unfold loadSettings, compileRegexPatterns. run_handler.
    destruct (compile_patterns _); simpl. split.
    + cbn in Hkeep. by destruct (st_dedupeEnabled settings) as [[]|].
    + by apply (store_unchanged_consistent s).
  - unfold refreshCount. run_handler.
    destruct (0 <? selectedId s)%Z; [|done].
    destruct (tabs_get env (selectedId s)); simpl; [done|]. split; [done|].
    apply (store_consistent_step s); [done|]. intros other.
    unfold records_of, keys_seen. simpl.
    destruct (decide (other = selectedId s)) as [->|Hne].
    + right. by rewrite lookup_delete_eq.
    + left. by rewrite !lookup_delete_ne.
  - unfold updateCachedData. run_handler.
    destruct (negb (selectedId s =? 0)%Z && (0 <? selectedId s)%Z); simpl; split; try done;
      try by apply (store_unchanged_consistent s).
  - unfold onConnect, sendData, updateCachedData. run_handler.
    destruct (bool_decide _ && _); simpl; [split; try done;
      try by apply (store_unchanged_consistent s)|].
    destruct (negb (selectedId s =? 0)%Z && (0 <? selectedId s)%Z); simpl; split; try done;
      try by apply (store_unchanged_consistent s).
  - unfold onPortMessage, sendData, updateCachedData. run_handler.
    destruct (bool_decide _ && _); simpl; [split; try done|].
    destruct (negb (selectedId s =? 0)%Z && (0 <? selectedId s)%Z); simpl; split; try done;
      try by apply (store_unchanged_consistent s).
  - unfold onDisconnect. run_handler. split; [done|].
    by apply (store_unchanged_consistent s).
Qed.

Lemma run_events_consistent (events : list Incoming) (s : State) :
  Forall keeps_dedupe events -> dedupeEnabled s = true -> store_consistent s ->
  dedupeEnabled (run_events events s) = true /\ store_consistent (run_events events s).
Proof.
  revert s. induction events as [|e events IH]; intros s Hkeep Hd Hs; [done|].
  apply Forall_cons in Hkeep as [He Hevents]. cbn [run_events fold_left].
  destruct (handle_consistent e s He Hd Hs) as [Hd' Hs']. by apply IH.
Qed.

Lemma initial_consistent : store_consistent initial.
Proof. intros tabId. split; [done|constructor]. Qed.

(** ** The deduplication setting *)

Lemma onMessage_dedupe_setting (s : State) (msg : Msg) (sender : option Tab) :
  action msg = Some "updateDedupeSetting" ->
  let s' := exec (onMessage msg sender) s in
  dedupeEnabled s' = enabled msg
  /\ tab_listeners s' = tab_listeners s
  /\ tab_listener_keys s'
     = (if enabled msg then tab_listener_keys s else (fun _ => ∅) <$> tab_listener_keys s)
  /\ tab_push s' = tab_push s /\ tab_lasturl s' = tab_lasturl s
  /\ effects (onMessage msg sender) s
     = [StorageLocalSetDedupe (enabled msg)]
       ++ (if enabled msg then [] else [DebouncedSave])
       ++ [ConsoleLog "Dedupe setting updated"; CallUpdateCachedData; CallRefreshCount;
           SendResponse true].
Proof.
  intros Haction. unfold onMessage. rewrite bool_decide_eq_true_2 by done.
  run_handler. by destruct (enabled msg).
Qed.

Lemma keys_seen_emptied (s s' : State) (tabId : Z) :
  tab_listener_keys s' = (fun _ => ∅) <$> tab_listener_keys s ->
  keys_seen s' tabId = ∅.
Proof.
  intros Hk. unfold keys_seen. rewrite Hk, lookup_fmap.
  destruct (tab_listeners s' !! tabId); [|done].
  by destruct (tab_listener_keys s !! tabId).
Qed.

(** X2. Switching deduplication off empties the key set of every tab and
    keeps every record; switching it on again does not rebuild the key
    sets.  So after the setting has been off and on again, a record that
    passes the extension filter is appended to its tab even when the very
    same record is already stored there. *)
Theorem dedupe_off_and_on_forgets_the_keys :
  forall (s : State) (off on : Msg) (sender1 sender2 : option Tab) (tabId : Z) (r : Msg),
    action off = Some "updateDedupeSetting" -> enabled off = false ->
    action on = Some "updateDedupeSetting" -> enabled on = true ->
    passes_filter r ->
    let s1 := exec (onMessage off sender1) s in
    let s2 := exec (onMessage on sender2) s1 in
    (tab_listeners s1 = tab_listeners s
     /\ tab_listener_keys s1 = (fun _ => ∅) <$> tab_listener_keys s
     /\ dedupeEnabled s1 = false)
    /\ (tab_listeners s2 = tab_listeners s
        /\ tab_listener_keys s2 = (fun _ => ∅) <$> tab_listener_keys s
        /\ dedupeEnabled s2 = true)
    /\ result (addListener tabId r) s2 = true
    /\ records_of (exec (addListener tabId r) s2) tabId = records_of s tabId ++ [r].
Proof.
  intros s off on sender1 sender2 tabId r Hoff Hoffv Hon Honv Hpass s1 s2.
  destruct (onMessage_dedupe_setting s off sender1 Hoff) as (Hd1 & Hl1 & Hk1 & _).
  destruct (onMessage_dedupe_setting s1 on sender2 Hon) as (Hd2 & Hl2 & Hk2 & _).
  fold s1 in Hd1, Hl1, Hk1. fold s2 in Hd2, Hl2, Hk2.
  rewrite Hoffv in *. rewrite Honv in *. rewrite Hk1 in Hk2. rewrite Hl1 in Hl2.
  split_and!; try done.
  - destruct (addListener_run s2 tabId r Hpass) as [-> _].
    rewrite (keys_seen_emptied s s2) by done.
    rewrite bool_decide_eq_false_2 by set_solver. by rewrite andb_false_r.
  - destruct (addListener_store s2 tabId r Hd2) as (_ & _ & Hstore).
    destruct (Hstore tabId) as [-> _].
    rewrite bool_decide_eq_true_2 by done.
    destruct (addListener_run s2 tabId r Hpass) as [-> _].
    rewrite (keys_seen_emptied s s2) by done.
    rewrite bool_decide_eq_false_2 by set_solver. rewrite andb_false_r. cbn.
    unfold records_of. by rewrite Hl2.
Qed.

(** ** Clearing a tab *)

(** X3. [clearListeners] tells whether the tab held a record.  Afterwards
    the tab has an empty record list and no key, every other tab is as
    before, a save is scheduled, and clearing again answers [false] and
    changes nothing. *)
Theorem clearListeners_empties_one_tab (s : State) (tabId : Z) :
  let s' := exec (clearListeners tabId) s in
  result (clearListeners tabId) s = bool_decide (records_of s tabId <> [])
  /\ tab_listeners s' !! tabId = Some []
  /\ keys_seen s' tabId = ∅
  /\ (forall other : Z, other <> tabId ->
        tab_listeners s' !! other = tab_listeners s !! other
        /\ tab_listener_keys s' !! other = tab_listener_keys s !! other)
  /\ tab_push s' = tab_push s /\ tab_lasturl s' = tab_lasturl s
  /\ effects (clearListeners tabId) s = [DebouncedSave]
  /\ result (clearListeners tabId) s' = false
  /\ exec (clearListeners tabId) s' = s'.
Proof.
  unfold clearListeners, records_of, keys_seen. run_handler. split_and!; try done.
  - by destruct (tab_listeners s !! tabId) as [[|r rs]|].
  - apply lookup_insert_eq.
  - rewrite lookup_insert_eq, lookup_alter, decide_True by done.
    by destruct (tab_listener_keys s !! tabId).
  - intros other Hne. rewrite lookup_insert_ne by done.
    by rewrite lookup_alter, decide_False by done.
  - by rewrite lookup_insert_eq.
  - unfold set_tab_listener_keys, set_tab_listeners. simpl.
    rewrite insert_insert_eq. f_equal.
    apply map_eq. intros i. rewrite !lookup_alter.
    repeat case_decide; try done. by destruct (tab_listener_keys s !! tabId).
Qed.

(** ** The badge refresh *)

(** [addListener] only touches the record lists and the key sets. *)
Lemma addListener_rest (s : State) (tabId : Z) (r : Msg) :
  let s' := exec (addListener tabId r) s in
  tab_push s' = tab_push s /\ tab_lasturl s' = tab_lasturl s
  /\ selectedId s' = selectedId s /\ connectedPorts s' = connectedPorts s
  /\ blockedListeners s' = blockedListeners s /\ blockedUrls s' = blockedUrls s
  /\ blockedRegex s' = blockedRegex s /\ compiledRegex s' = compiledRegex s
  /\ cachedPopupData s' = cachedPopupData s.
Proof.
  destruct (isFromExtension (listener r) (stack r)) eqn:Hf.
  { destruct (addListener_filtered s tabId r) as [_ ->]; [|done].
    unfold passes_filter. by rewrite Hf. }
  destruct (addListener_run s tabId r Hf) as [_ Hexec]. cbn zeta. rewrite Hexec.
  assert (Hprep : tab_push (prepared tabId s) = tab_push s
                  /\ tab_lasturl (prepared tabId s) = tab_lasturl s
                  /\ selectedId (prepared tabId s) = selectedId s
                  /\ connectedPorts (prepared tabId s) = connectedPorts s
                  /\ blockedListeners (prepared tabId s) = blockedListeners s
                  /\ blockedUrls (prepared tabId s) = blockedUrls s
                  /\ blockedRegex (prepared tabId s) = blockedRegex s
                  /\ compiledRegex (prepared tabId s) = compiledRegex s
                  /\ cachedPopupData (prepared tabId s) = cachedPopupData s).
  { unfold prepared.
    destruct (tab_listeners s !! tabId); simpl; destruct (dedupeEnabled s); simpl;
      rewrite ?lookup_insert_eq; try destruct (tab_listener_keys s !! tabId); by simpl. }
  destruct (dedupeEnabled s && _); [exact Hprep|].
  unfold addListenerKey, pushListener. run_handler.
  destruct (dedupeEnabled (prepared tabId s)); simpl;
    [destruct (bool_decide (tab_listener_keys (prepared tabId s) !! tabId = None))|];
    simpl; exact Hprep.
Qed.

(** ** Navigation flags *)

Lemma onUpdated_loading_flag (s : State) (tabId : Z) (status : option string) :
  let s' := exec (onUpdated tabId status) s in
  (status = Some "loading" -> flag_set (tab_lasturl s') tabId = true)
  /\ (flag_set (tab_lasturl s) tabId = true -> flag_set (tab_lasturl s') tabId = true)
  /\ (forall other : Z, other <> tabId ->
        tab_lasturl s' !! other = tab_lasturl s !! other).
Proof.
  unfold onUpdated, clearListeners, notifyPopups, flag_set.
  destruct (bool_decide_reflect (status = Some "loading")) as [->|Hnl].
  - run_handler.
    destruct (match tab_push s !! tabId with Some b => b | None => false end); simpl;
      [|destruct (negb _); simpl;
        [destruct (match tab_listeners s !! tabId with
                   | Some ls => (0 <? length ls)%nat | None => false end); simpl|]];
      (split_and!; [intros _; by rewrite lookup_insert_eq
                   |intros _; by rewrite lookup_insert_eq
                   |intros other Hne; by rewrite lookup_insert_ne]).
  - destruct (bool_decide (status = Some "complete")).
    { run_handler. destruct (bool_decide (tabId = selectedId s)); simpl; by split_and!. }
    destruct (Js.truthy status); [|by run_handler; split_and!].
    run_handler.
    destruct (match tab_push s !! tabId with Some b => b | None => false end); simpl;
      [by split_and!|].
    destruct (negb _); simpl; [|by split_and!].
    destruct (match tab_listeners s !! tabId with
              | Some ls => (0 <? length ls)%nat | None => false end); simpl; by split_and!.
Qed.

Lemma onUpdated_kept_while_loading (s : State) (tabId : Z) (statuses : list (option string)) :
  flag_set (tab_lasturl s) tabId = true ->
  let s' := fold_left (fun s status => exec (onUpdated tabId status) s) statuses s in
  tab_listeners s' = tab_listeners s
  /\ tab_listener_keys s' = tab_listener_keys s
  /\ flag_set (tab_lasturl s') tabId = true.
Proof.
  revert s. induction statuses as [|status statuses IH]; intros s Hflag; [done|].
  cbn [fold_left].
  destruct (onUpdated_records_kept_unless_cleared s tabId status) as [Hl Hk]; [auto|].
  destruct (onUpdated_loading_flag s tabId status) as (_ & Hkeep & _).
  destruct (IH (exec (onUpdated tabId status) s) (Hkeep Hflag)) as (Hl' & Hk' & Hf').
  split_and!; [by rewrite Hl', Hl|by rewrite Hk', Hk|done].
Qed.

(** ** What a message can touch *)

Lemma addListener_other (s : State) (tabId other : Z) (r : Msg) :
  other <> tabId ->
  tab_listeners (exec (addListener tabId r) s) !! other = tab_listeners s !! other
  /\ tab_listener_keys (exec (addListener tabId r) s) !! other = tab_listener_keys s !! other.
Proof.
  intros Hne.
  destruct (isFromExtension (listener r) (stack r)) eqn:Hf.
  { destruct (addListener_filtered s tabId r) as [_ ->]; [|done].
    unfold passes_filter. by rewrite Hf. }
  destruct (addListener_run s tabId r Hf) as [_ ->].
  destruct (prepared_other s tabId other Hne) as [Hl Hk].
  destruct (dedupeEnabled s && _); [done|].
  rewrite push_then_key_listeners, lookup_alter, decide_False by done.
  split; [done|]. rewrite <- Hk.
  unfold addListenerKey, pushListener. run_handler.
  destruct (dedupeEnabled (prepared tabId s)); simpl; [|done].
  destruct (bool_decide (tab_listener_keys (prepared tabId s) !! tabId = None)); simpl;
    rewrite lookup_alter, decide_False by done; [|done].
  by rewrite lookup_insert_ne.
Qed.

(** What a message leaves alone. *)
Lemma onMessage_frame (s : State) (msg : Msg) :
  action msg <> Some "updateDedupeSetting" ->
  (forall (tab : Tab),
      let s' := exec (onMessage msg (Some tab)) s in
      (forall other : Z, other <> tab_id tab ->
          tab_listeners s' !! other = tab_listeners s !! other
          /\ tab_listener_keys s' !! other = tab_listener_keys s !! other
          /\ tab_push s' !! other = tab_push s !! other
          /\ tab_lasturl s' !! other = tab_lasturl s !! other)
      /\ dedupeEnabled s' = dedupeEnabled s
      /\ blockedListeners s' = blockedListeners s /\ blockedUrls s' = blockedUrls s
      /\ blockedRegex s' = blockedRegex s /\ compiledRegex s' = compiledRegex s
      /\ selectedId s' = selectedId s /\ connectedPorts s' = connectedPorts s
      /\ cachedPopupData s' = cachedPopupData s)
  /\ exec (onMessage msg None) s = s
  /\ effects (onMessage msg None) s = [SendResponse false].
Proof.
  intros Haction. split.
  2:{ unfold onMessage. rewrite bool_decide_eq_false_2 by done. by run_handler. }
  intros tab s'. subst s'. rewrite onMessage_state by done.
  pose proof (addListener_rest s (tab_id tab) (with_parent_url (tab_url tab) msg))
    as (Hp & Hu & Hsel & Hports & Hbl & Hbu & Hbr & Hcr & Hcache).
  assert (Hd : dedupeEnabled (exec (addListener (tab_id tab)
                                      (with_parent_url (tab_url tab) msg)) s)
               = dedupeEnabled s).
  { destruct (isFromExtension (listener (with_parent_url (tab_url tab) msg))
                (stack (with_parent_url (tab_url tab) msg))) eqn:Hf.
    - destruct (addListener_filtered s (tab_id tab) (with_parent_url (tab_url tab) msg))
        as [_ ->]; [|done]. unfold passes_filter. by rewrite Hf.
    - destruct (addListener_run s (tab_id tab) _ Hf) as [_ ->].
      destruct (dedupeEnabled s && _).
      + apply prepared_dedupe.
      + by rewrite push_then_key_dedupe, prepared_dedupe. }
  destruct (Js.truthy (listener msg)).
  - destruct (bool_decide (listener msg = Some NATIVE_CODE)); [by split_and!|].
    cbn zeta. split.
    + intros other Hne.
      destruct (addListener_other s (tab_id tab) other (with_parent_url (tab_url tab) msg)
                  Hne) as [Hl Hk].
      destruct (pushState msg), (changePage msg); cbn;
        rewrite ?lookup_insert_ne, ?lookup_delete_ne by done; rewrite Hl, Hk, Hp, Hu; done.
    + destruct (pushState msg), (changePage msg); cbn; by split_and!.
  - cbn zeta. split.
    + intros other Hne.
      destruct (pushState msg), (changePage msg); cbn;
        rewrite ?lookup_insert_ne, ?lookup_delete_ne by done; done.
    + destruct (pushState msg), (changePage msg); cbn; by split_and!.
Qed.

(** ** Effects of sequenced code *)


Lemma result_bind {A B} (c : M A) (f : A -> M B) (s : State) :
  result (bind c f) s = result (f (result c s)) (exec c s).
Proof.
  unfold exec, result, bind. destruct (c s) as [[a s1] e1]. simpl.
  by destruct (f a s1) as [[b s2] e2].
Qed.



Lemma posted_to_all (ports : list nat) (listeners : gmap Z (list Msg))
    (url : option string) (cached : bool) (timestamp : Z) :
  posted (map (fun port => PortPostMessage port listeners url cached timestamp) ports)
  = map (fun port => (port, listeners)) ports.
Proof. unfold posted. induction ports as [|p ps IH]; [done|]. cbn. by rewrite IH. Qed.

Lemma notifyPopups_run (s : State) :
  exec notifyPopups s = s
  /\ posted (effects notifyPopups s)
     = map (fun port => (port, cached_listeners s)) (connectedPorts s).
Proof.
  unfold notifyPopups. run_handler. split; [done|].
  change (posted (CallUpdateCachedData :: ?l)) with (posted l).
  apply posted_to_all.
Qed.


(** ** The popup cache and the ports *)

Lemma updateCachedData_run (env : Env) (s : State) :
  let s' := exec (updateCachedData env) s in
  ((0 < selectedId s)%Z ->
   cachedPopupData s'
   = MkPopupData TabListenersObject (Some (selectedId s))
       (Some (default "Unknown URL" (tabs_get env (selectedId s)))) (now env))
  /\ ((selectedId s <= 0)%Z -> s' = s)
  /\ tab_listeners s' = tab_listeners s /\ tab_listener_keys s' = tab_listener_keys s
  /\ tab_push s' = tab_push s /\ tab_lasturl s' = tab_lasturl s
  /\ selectedId s' = selectedId s /\ connectedPorts s' = connectedPorts s
  /\ posted (effects (updateCachedData env) s) = [].
Proof.
  unfold updateCachedData. run_handler.
  destruct (Z.ltb_spec 0 (selectedId s)) as [Hpos|Hneg].
  - assert (Hnz : (selectedId s =? 0)%Z = false) by (apply Z.eqb_neq; lia).
    rewrite Hnz. simpl. split_and!; try done; [|lia].
    intros _. by destruct (tabs_get env (selectedId s)).
  - rewrite andb_false_r. simpl. split_and!; try done. lia.
Qed.

Lemma sendData_run (env : Env) (later : Z) (port : nat) (s : State) :
  let s' := exec (sendData env later port) s in
  tab_listeners s' = tab_listeners s /\ tab_listener_keys s' = tab_listener_keys s
  /\ tab_push s' = tab_push s /\ tab_lasturl s' = tab_lasturl s
  /\ selectedId s' = selectedId s /\ connectedPorts s' = connectedPorts s
  /\ (cache_filled s -> cache_filled s')
  /\ (cache_sound s -> cache_sound s')
  /\ exists (cached : bool) (url : option string) (timestamp : Z),
       effects (sendData env later port) s
       = (if cached then [] else
            if (0 <? selectedId s)%Z then [ConsoleLog "Updated cached popup data"] else [])
         ++ [PortPostMessage port
               (if cached then cached_listeners s else tab_listeners s)
               url cached timestamp].
Proof.
  unfold sendData, updateCachedData, cache_filled, cache_sound. run_handler.
  destruct (bool_decide _ && _); simpl.
  { split_and!; try done. by exists true, (currentUrl (cachedPopupData s)),
                              (lastUpdate (cachedPopupData s)). }
  destruct (Z.ltb_spec 0 (selectedId s)) as [Hpos|Hneg].
  - assert (Hnz : (selectedId s =? 0)%Z = false) by (apply Z.eqb_neq; lia).
    rewrite Hnz. simpl. split_and!; try done. by eexists false, _, _.
  - rewrite andb_false_r. simpl. split_and!; try done. by eexists false, _, _.
Qed.







Lemma cache_filled_dec (s : State) : cache_filled s \/ ~ cache_filled s.
Proof. unfold cache_filled. destruct (pd_listeners (cachedPopupData s)); auto. Qed.





(** X1. While deduplication stays on, the key set of every tab holds
    exactly the identity keys of the tab's records, and no two records of
    a tab have the same key: this holds when the script starts and is kept
    by every event (messages, tab events, changes of the block lists,
    loaded settings, the delayed badge and cache refreshes, popup ports),
    each handled to its end, as long as none switches deduplication off. *)
Theorem no_two_records_of_a_tab_share_a_key :
  store_consistent initial
  /\ forall (events : list Incoming) (s : State),
       Forall keeps_dedupe events -> dedupeEnabled s = true -> store_consistent s ->
       dedupeEnabled (run_events events s) = true
       /\ store_consistent (run_events events s).
Proof. split; [apply initial_consistent|apply run_events_consistent]. Qed.

(** ** The extension filter *)

Lemma prefix_spec (p s : string) :
  String.prefix p s = true <-> exists r, s = p +:+ r.
Proof.
  revert s. induction p as [|a p IH]; intros s.
  - split; [intros _; by exists s|intros _; by destruct s].
  - destruct s as [|b s]; cbn.
    + split; [done|]. intros [r Hr]. by rewrite app_cons in Hr.
    + destruct (Ascii.ascii_dec a b) as [->|Hne].
      * rewrite IH. split; intros [r Hr]; exists r.
        -- by rewrite app_cons, Hr.
        -- rewrite app_cons in Hr. by injection Hr.
      * split; [done|]. intros [r Hr]. rewrite app_cons in Hr. by injection Hr.
Qed.

Lemma includes_spec (s sub : string) :
  Js.includes s sub = true <-> exists a b, s = a +:+ sub +:+ b.
Proof.
  induction s as [|ch s IH].
  - cbn [Js.includes]. rewrite orb_false_r, prefix_spec. split.
    + intros [r Hr]. by exists "", r.
    + intros (a & b & Hab). destruct a; [by exists b|by rewrite app_cons in Hab].
  - cbn [Js.includes]. rewrite orb_true_iff, prefix_spec, IH. split.
    + intros [[r Hr]|(a & b & Hab)].
      * by exists "", r.
      * exists (String ch a), b. by rewrite app_cons, Hab.
    + intros (a & b & Hab). destruct a as [|c a].
      * left. by exists b.
      * right. rewrite app_cons in Hab. injection Hab as -> ->. by exists a, b.
Qed.

(** X9. The extension filter of the background script is a plain,
    case-sensitive substring test: a record is filtered exactly when its
    code, a space and its stack line, put together, contain ["wappalyzer"]
    or ["domlogger"]; a record without a code is never filtered.  A
    filtered record is dropped by [addListener]: nothing is stored, the
    answer is [false] and the only effect is the console line. *)
Theorem filtered_records_mention_an_extension :
  (forall stack : option string, isFromExtension None stack = false)
  /\ (forall (code : string) (stack : option string),
        isFromExtension (Some code) stack = true
        <-> exists word a b,
              (word = "wappalyzer" \/ word = "domlogger")
              /\ code +:+ " " +:+ Js.or_else stack "" = a +:+ word +:+ b)
  /\ (forall (s : State) (tabId : Z) (r : Msg),
        isFromExtension (listener r) (stack r) = true ->
        exec (addListener tabId r) s = s
        /\ result (addListener tabId r) s = false
        /\ effects (addListener tabId r) s = [ConsoleLog "Ignoring extension listener"]).
Proof.
  split_and!.
  - done.
  - intros code stack. unfold isFromExtension, EXTENSION_BLACKLIST. cbn [existsb].
    rewrite orb_false_r, orb_true_iff, !includes_spec. split.
    + intros [(a & b & Hab)|(a & b & Hab)]; eauto 10.
    + intros (word & a & b & [-> | ->] & Hab); eauto.
  - intros s tabId r Hf. unfold addListener. by rewrite Hf.
Qed.

End StoreProperties.

Section PersistenceProperties.
Context `{Platform}.
Import Background.

Lemma saveState_saved_as (s : State) (rejected : bool) :
  exists snapshot,
    saveState true rejected s
    = StorageLocalSet snapshot
      :: (if rejected then [ConsoleError "Failed to save state to storage"] else [])
    /\ saved_as s snapshot.
Proof.
  eexists. split; [reflexivity|]. split; [done|]. eexists. split; [reflexivity|].
  intros tabId. rewrite lookup_fmap.
  destruct (tab_listener_keys s !! tabId) as [keys|]; constructor.
  by exists (elements keys).
Qed.

Lemma loadState_saved (s s0 : State) (snapshot : Snapshot) :
  saved_as s snapshot ->
  let s' := fst (fst (loadState false (Some snapshot) s0)) in
  tab_listeners s' = tab_listeners s
  /\ tab_listener_keys s' = tab_listener_keys s
  /\ tab_push s' = ∅ /\ tab_lasturl s' = ∅.
Proof.
  intros (Hl & table & Hk & Htable). unfold loadState. rewrite Hl, Hk. cbn.
  split_and!; try done.
  apply map_eq. intros tabId. rewrite lookup_fmap.
  specialize (Htable tabId).
  destruct Htable as [keys entry (arr & -> & Harr)|]; [|done]. cbn. f_equal.
  apply set_eq. intros k. rewrite elem_of_list_to_set, Harr. apply elem_of_elements.
Qed.

(** X10. What [saveState] writes, read back by [loadState] after a
    restart, restores the record list and the key set of every tab, in
    whatever order the keys were written, and leaves no push flag and no
    loading flag; the settings, block lists, selection, ports and cache of
    the restarted script are not touched, and a store that was consistent
    is consistent again.  Nothing is written before the state has been
    loaded; a second [loadState] does nothing; when reading fails the
    script goes on with the state it has. *)
Theorem saved_state_is_restored_without_navigation_flags :
  (forall (s : State) (rejected : bool),
      saveState false rejected s = []
      /\ exists snapshot,
           saveState true rejected s
           = StorageLocalSet snapshot
             :: (if rejected then [ConsoleError "Failed to save state to storage"] else [])
           /\ saved_as s snapshot)
  /\ (forall (s s0 : State) (snapshot : Snapshot),
        saved_as s snapshot ->
        let s' := fst (fst (loadState false (Some snapshot) s0)) in
        tab_listeners s' = tab_listeners s
        /\ tab_listener_keys s' = tab_listener_keys s
        /\ tab_push s' = ∅ /\ tab_lasturl s' = ∅
        /\ snd (fst (loadState false (Some snapshot) s0)) = true
        /\ dedupeEnabled s' = dedupeEnabled s0 /\ selectedId s' = selectedId s0
        /\ connectedPorts s' = connectedPorts s0
        /\ blockedListeners s' = blockedListeners s0 /\ blockedUrls s' = blockedUrls s0
        /\ blockedRegex s' = blockedRegex s0 /\ compiledRegex s' = compiledRegex s0
        /\ cachedPopupData s' = cachedPopupData s0
        /\ (store_consistent s -> store_consistent s'))
  /\ (forall (result : option Snapshot) (s0 : State), loadState true result s0 = (s0, true, []))
  /\ (forall s0 : State,
        loadState false None s0
        = (s0, true, [ConsoleError "Failed to load state from storage"]))
  /\ (forall s0 : State,
        let s' := fst (fst (loadState false (Some (MkSnapshot None None)) s0)) in
        tab_listeners s' = ∅ /\ tab_listener_keys s' = ∅).
Proof.
  split_and!.
  - intros s rejected. split; [done|apply saveState_saved_as].
  - intros s s0 snapshot Hsaved s'.
    destruct (loadState_saved s s0 snapshot Hsaved) as (Hl & Hk & Hp & Hu).
    fold s' in Hl, Hk, Hp, Hu.
    assert (Hrest : snd (fst (loadState false (Some snapshot) s0)) = true
                    /\ dedupeEnabled s' = dedupeEnabled s0 /\ selectedId s' = selectedId s0
                    /\ connectedPorts s' = connectedPorts s0
                    /\ blockedListeners s' = blockedListeners s0
                    /\ blockedUrls s' = blockedUrls s0
                    /\ blockedRegex s' = blockedRegex s0
                    /\ compiledRegex s' = compiledRegex s0
                    /\ cachedPopupData s' = cachedPopupData s0) by done.
    destruct Hrest as (? & ? & ? & ? & ? & ? & ? & ? & ?).
    split_and!; try done.
    intros Hs tabId. unfold records_of, keys_seen. rewrite Hl, Hk. apply Hs.
  - done.
  - done.
  - done.
Qed.

End PersistenceProperties.

Section SourceUrlProperties.
Import Background.

Lemma first_some_elem {A B} (f : A -> option B) (l : list A) (y : B) :
  Js.first_some f l = Some y -> exists x, x ∈ l /\ f x = Some y.
Proof.
  induction l as [|x l IH]; [done|]. cbn.
  destruct (f x) as [y'|] eqn:Hx.
  - intros [= ->]. exists x. split; [apply list_elem_of_here|done].
  - intros (x' & Hin & Hx')%IH. exists x'. split; [by apply list_elem_of_further|done].
Qed.

Lemma clean_candidate_nonempty `{Platform} (url cleaned : string) :
  clean_candidate url = Some cleaned ->
  cleaned <> "" /\ cleaned = cleanUrl (Js.strip_line (Js.strip_line_col url)).
Proof.
  unfold clean_candidate.
  destruct (cleanUrl (Js.strip_line (Js.strip_line_col url))) as [|ch u]; [done|].
  by intros [= <-].
Qed.

Lemma extractJsUrlFromStack_candidate `{Platform}
    (stack : option string) (fullstack : option (list string)) (url : string) :
  extractJsUrlFromStack stack fullstack = Some url ->
  exists candidate, clean_candidate candidate = Some url.
Proof.
  unfold extractJsUrlFromStack. intros (line & _ & Hline)%first_some_elem.
  unfold extractJsUrlFromLine in Hline.
  destruct (Js.first_some _ (Js.match_paren_urls line)) as [u|] eqn:Hparen.
  - injection Hline as ->. apply first_some_elem in Hparen as (m & _ & Hm). eauto.
  - apply first_some_elem in Hline as (m & _ & Hm). eauto.
Qed.

(** On the modelled platform a cleaned address has no query string and no
    fragment. *)
Lemma cleanUrl_stripped (url : string) :
  no_query_or_fragment (cleanUrl (H := reference_platform) url) = true.
Proof.
  destruct (Whatwg.parse url) as [u| |] eqn:Hparse.
  - rewrite (cleanUrl_accepted url u Hparse).
    destruct (parse_Parsed url u Hparse)
      as (scheme & host & path & Hscheme & _ & Hhost & _ & Hclean & ->).
    by apply serialized_stripped.
  - rewrite (cleanUrl_rejected (H := reference_platform) url); [apply fallback_stripped|].
    cbn. unfold Whatwg.URL_new. by rewrite Hparse.
  - rewrite (cleanUrl_rejected (H := reference_platform) url); [apply fallback_stripped|].
    cbn. unfold Whatwg.URL_new. by rewrite Hparse.
Qed.

(** X8. The source URL of a record is looked for in the full stack
    whenever the record has one: an empty full stack hides the stack line,
    and a record with neither, or with an empty stack line, has no source
    URL.  A source URL that is found is never the empty text, and on the
    modelled platform it never holds a query string or a fragment. *)
Theorem source_url_edge_cases :
  (forall (P : Platform) (stack : option string),
      extractJsUrlFromStack stack (Some []) = None)
  /\ (forall (P : Platform),
        extractJsUrlFromStack None None = None
        /\ extractJsUrlFromStack (Some "") None = None)
  /\ (forall (P : Platform) (stack : option string) (fullstack : list string),
        extractJsUrlFromStack stack (Some fullstack)
        = extractJsUrlFromStack None (Some fullstack))
  /\ (forall (P : Platform) (stack : option string) (fullstack : option (list string)),
        extractJsUrlFromStack stack fullstack <> Some "")
  /\ (forall (stack : option string) (fullstack : option (list string)) (url : string),
        extractJsUrlFromStack (H := reference_platform) stack fullstack = Some url ->
        no_query_or_fragment url = true).
Proof.
  split_and!; try done.
  - intros P stack fullstack (candidate & Hc)%extractJsUrlFromStack_candidate.
    by apply clean_candidate_nonempty in Hc as [Hne _].
  - intros stack fullstack url (candidate & Hc)%extractJsUrlFromStack_candidate.
    apply (clean_candidate_nonempty (H := reference_platform)) in Hc as [_ ->].
    apply cleanUrl_stripped.
Qed.

End SourceUrlProperties.

Section RegexTextProperties.
Import Popup.

Lemma drop_spaces_clean (s : string) :
  match MainWorld.drop_spaces s with
  | String ch _ => Js.is_space ch = false
  | EmptyString => True
  end.
Proof.
  induction s as [|ch s IH]; [done|]. cbn.
  by destruct (Js.is_space ch) eqn:Hch.
Qed.

Lemma drop_spaces_fixed (s : string) :
  match s with String ch _ => Js.is_space ch = false | EmptyString => True end ->
  MainWorld.drop_spaces s = s.
Proof. destruct s as [|ch s]; [done|]. cbn. by intros ->. Qed.

Lemma drop_spaces_split (s : string) :
  exists spaces, s = spaces +:+ MainWorld.drop_spaces s
                 /\ Whatwg.all_chars Js.is_space spaces = true.
Proof.
  induction s as [|ch s (spaces & Hs & Hall)]; [by exists ""|]. cbn.
  destruct (Js.is_space ch) eqn:Hch.
  - exists (String ch spaces). rewrite app_cons, <- Hs. split; [done|]. cbn. by rewrite Hch.
  - by exists "".
Qed.

Lemma rev_empty (s : string) : String.rev s = "" -> s = "".
Proof. intros Hr. by rewrite <- (rev_involutive s), Hr. Qed.

(** [trim] gives a text that has no space at either end. *)
Lemma trim_trimmed (s : string) : MainWorld.trim (MainWorld.trim s) = MainWorld.trim s.
Proof.
  unfold MainWorld.trim.
  set (t := MainWorld.drop_spaces s).
  set (u := MainWorld.drop_spaces (String.rev t)).
  assert (Ht : match t with String ch _ => Js.is_space ch = false | "" => True end)
    by apply drop_spaces_clean.
  assert (Hu : match u with String ch _ => Js.is_space ch = false | "" => True end)
    by apply drop_spaces_clean.
  destruct (drop_spaces_split (String.rev t)) as (spaces & Hsplit & _). fold u in Hsplit.
  assert (Hprefix : t = String.rev u +:+ String.rev spaces).
  { by rewrite <- (rev_involutive t), Hsplit, rev_append. }
  assert (Hclean : MainWorld.drop_spaces (String.rev u) = String.rev u).
  { apply drop_spaces_fixed. destruct (String.rev u) as [|ch tail] eqn:Hrev; [done|].
    rewrite Hprefix, app_cons in Ht. exact Ht. }
  rewrite Hclean, rev_involutive. by rewrite (drop_spaces_fixed u Hu).
Qed.

Lemma drop_spaces_chars (p : ascii -> bool) (s : string) :
  Whatwg.all_chars p s = true -> Whatwg.all_chars p (MainWorld.drop_spaces s) = true.
Proof.
  induction s as [|ch s IH]; [done|]. cbn. intros [Hch Hs]%andb_true_iff.
  destruct (Js.is_space ch); [by apply IH|]. cbn. by rewrite Hch, Hs.
Qed.

Lemma trim_chars (p : ascii -> bool) (s : string) :
  Whatwg.all_chars p s = true -> Whatwg.all_chars p (MainWorld.trim s) = true.
Proof.
  intros Hs. unfold MainWorld.trim.
  rewrite all_chars_rev. apply drop_spaces_chars. rewrite all_chars_rev.
  by apply drop_spaces_chars.
Qed.

Lemma split_on_chars (sep : ascii) (s : string) :
  Forall (fun part => Whatwg.all_chars (fun ch => negb (Ascii.eqb ch sep)) part = true)
    (MainWorld.split_on sep s).
Proof.
  induction s as [|ch s IH]; [by repeat constructor|]. cbn.
  destruct (Ascii.eqb ch sep) eqn:Hch; [by constructor|].
  destruct (MainWorld.split_on sep s) as [|part parts]; [by repeat constructor; cbn; rewrite Hch|].
  apply Forall_cons in IH as [Hpart Hparts]. constructor; [|done]. cbn. by rewrite Hch, Hpart.
Qed.

Lemma split_on_regexText (patterns : list string) :
  patterns <> [] ->
  Forall (fun p => Whatwg.all_chars (fun ch => negb (Ascii.eqb ch "010")) p = true) patterns ->
  MainWorld.split_on "010" (regexText patterns) = patterns.
Proof.
  assert (Hone : forall p,
             Whatwg.all_chars (fun ch => negb (Ascii.eqb ch "010")) p = true ->
             forall rest, MainWorld.split_on "010" (p +:+ String "010" rest)
                          = p :: MainWorld.split_on "010" rest).
  { induction p as [|ch p IHp]; intros Hp rest; [by rewrite app_nil_l|].
    cbn in Hp. apply andb_true_iff in Hp as [Hch Hp]. apply negb_true_iff in Hch.
    rewrite app_cons. cbn. rewrite Hch. by rewrite IHp. }
  assert (Hlast : forall p,
             Whatwg.all_chars (fun ch => negb (Ascii.eqb ch "010")) p = true ->
             MainWorld.split_on "010" p = [p]).
  { induction p as [|ch p IHp]; intros Hp; [done|].
    cbn in Hp. apply andb_true_iff in Hp as [Hch Hp]. apply negb_true_iff in Hch.
    cbn. rewrite Hch. by rewrite IHp. }
  induction patterns as [|p patterns IH]; [done|].
  intros _ [Hp Hpatterns]%Forall_cons. destruct patterns as [|q patterns].
  - cbn. by apply Hlast.
  - change (regexText (p :: q :: patterns)) with (p +:+ String "010" (regexText (q :: patterns))).
    rewrite Hone by done. by rewrite IH.
Qed.

Lemma parseRegexText_lines (text : string) : Forall pattern_line (parseRegexText text).
Proof.
  unfold parseRegexText. apply Forall_forall. intros line [Hlen Hin]%list_elem_of_filter.
  apply list_elem_of_fmap in Hin as (part & -> & Hpart).
  split_and!.
  - intros Hempty. rewrite Hempty in Hlen. cbn in Hlen. lia.
  - apply trim_trimmed.
  - apply trim_chars.
    pose proof (split_on_chars "010" text) as Hparts.
    rewrite Forall_forall in Hparts. by apply Hparts.
Qed.

Lemma parseRegexText_regexText (patterns : list string) :
  Forall pattern_line patterns -> parseRegexText (regexText patterns) = patterns.
Proof.
  intros Hlines. destruct patterns as [|p patterns]; [done|].
  unfold parseRegexText. rewrite split_on_regexText; [|done|].
  2:{ eapply Forall_impl; [exact Hlines|]. by intros q (_ & _ & Hq). }
  assert (Htrim : map MainWorld.trim (p :: patterns) = p :: patterns).
  { induction Hlines as [|q qs (_ & Hq & _) _ IH]; [done|]. cbn. by rewrite Hq, IH. }
  rewrite Htrim. clear Htrim.
  induction Hlines as [|q qs (Hq & _) _ IH]; [done|].
  rewrite filter_cons_True; [by rewrite IH|]. destruct q; [done|]. cbn. lia.
Qed.

(** X12. [parseRegexText] reads one pattern per line: every pattern it
    returns is not empty, has no white space at either end and holds no
    line break.  For a list of such lines, the text the regex editor shows
    for the list is read back as the same list; so opening the editor on
    saved patterns and saving without a change keeps them. *)
Theorem regex_editor_text_round_trip :
  (forall text : string, Forall pattern_line (parseRegexText text))
  /\ (forall patterns : list string,
        Forall pattern_line patterns -> parseRegexText (regexText patterns) = patterns)
  /\ (forall text : string,
        parseRegexText (regexText (parseRegexText text)) = parseRegexText text).
Proof.
  split_and!.
  - apply parseRegexText_lines.
  - apply parseRegexText_regexText.
  - intros text. apply parseRegexText_regexText, parseRegexText_lines.
Qed.

End RegexTextProperties.

Section PopupBlockProperties.
Context `{Platform}.
Import Popup.

Lemma includes_strings (list : list string) (s : string) :
  includes (map JString list) s = Js.array_includes list s.
Proof.
  unfold includes, Js.array_includes. induction list as [|x list IH]; [done|].
  cbn. rewrite IH. f_equal. apply String.eqb_sym.
Qed.

Lemma find_synced (compiled : list (string * RegExp)) (code : string) :
  List.find (fun c => RegExp_test (snd c) code)
    (map (fun c => (JString (fst c), snd c)) compiled)
  = (fun c => (JString (fst c), snd c))
      <$> List.find (fun c => RegExp_test (snd c) code) compiled.
Proof.
  induction compiled as [|[p r] compiled IH]; [done|]. cbn.
  destruct (RegExp_test r code); [done|exact IH].
Qed.

Lemma find_existsb {A} (f : A -> bool) (l : list A) :
  existsb f l = match List.find f l with Some _ => true | None => false end.
Proof. induction l as [|x l IH]; [done|]. cbn. by destruct (f x). Qed.

(** X14. When the popup holds the block lists of the background script
    and the same compiled patterns, none of them the empty pattern, the
    two agree on every record: the popup gives a reason for blocking the
    record exactly when the background script counts it as blocked.  The
    reason is the code exactly when the code is listed; a source URL given
    as the reason is the source URL of the record and is listed. *)
Theorem popup_and_background_agree_on_blocked
    (s : Background.State) (st : Storage) (r : Background.Msg) :
  in_sync s st ->
  Forall (fun compiled => fst compiled <> "") (Background.compiledRegex s) ->
  (Background.isListenerBlocked s r = true <-> isListenerBlocked st r <> None)
  /\ (forall code, isListenerBlocked st r = Some (ByListener code) <->
                   Background.listener r = Some code
                   /\ code ∈ Background.blockedListeners s)
  /\ (forall url, isListenerBlocked st r = Some (ByUrl url) ->
                  Background.extractJsUrlFromStack (Background.stack r) (Background.fullstack r)
                  = Some url
                  /\ url ∈ Background.blockedUrls s).
Proof.
  intros (Hl & Hu & Hc) Hpatterns.
  unfold isListenerBlocked, Background.isListenerBlocked, isListenerMatchedByRegex,
    Background.isListenerMatchedByRegex.
  rewrite Hl, Hu, Hc.
  change (extractJsUrlFromStack (Background.stack r) (Background.fullstack r))
    with (Background.extractJsUrlFromStack (Background.stack r) (Background.fullstack r)).
  set (jsUrl := Background.extractJsUrlFromStack _ _).
  assert (Hregex : forall code,
             match fst <$> List.find (fun c => RegExp_test (snd c) code)
                             (map (fun c => (JString (fst c), snd c))
                                (Background.compiledRegex s)) with
             | Some matchedPattern =>
                 if truthy matchedPattern then Some (ByRegex matchedPattern) else None
             | None => None
             end <> None
             <-> existsb (fun c => RegExp_test (snd c) code) (Background.compiledRegex s)
                 = true).
  { intros code. rewrite find_synced, find_existsb.
    destruct (List.find _ (Background.compiledRegex s)) as [[p re]|] eqn:Hfind; cbn; [|done].
    apply find_some in Hfind as [Hin _].
    rewrite Forall_forall in Hpatterns.
    specialize (Hpatterns (p, re) (proj2 (list_elem_of_In _ _) Hin)). cbn in Hpatterns.
    destruct p; [done|]. cbn. done. }
  split_and!.
  - destruct (Background.listener r) as [code|] eqn:Hcode.
    + rewrite includes_strings.
      destruct (Js.array_includes (Background.blockedListeners s) code); [done|].
      destruct jsUrl as [u|].
      * rewrite includes_strings.
        destruct (Js.array_includes (Background.blockedUrls s) u); [done|].
        destruct code as [|ch code]; [done|]. rewrite Hregex.
        by destruct (existsb _ _).
      * destruct code as [|ch code]; [done|]. rewrite Hregex.
        by destruct (existsb _ _).
    + destruct jsUrl as [u|]; [|done].
      rewrite includes_strings.
      by destruct (Js.array_includes (Background.blockedUrls s) u).
  - intros code. rewrite <- array_includes_elem_of.
    destruct (Background.listener r) as [code'|] eqn:Hcode.
    + rewrite includes_strings.
      destruct (Js.array_includes (Background.blockedListeners s) code') eqn:Hin.
      * split; [intros [= ->]; done|intros [[= ->] _]; done].
      * split.
        -- destruct jsUrl as [u|]; [destruct (includes _ u); [done|]|];
             destruct code' as [|ch code']; try done;
             by destruct (fst <$> List.find _ _) as [m|]; [destruct (truthy m)|].
        -- intros [[= ->] Hin']. congruence.
    + split; [|by intros [? _]].
      destruct jsUrl as [u|]; [by destruct (includes _ u)|done].
  - intros url. rewrite <- array_includes_elem_of.
    destruct (Background.listener r) as [code'|] eqn:Hcode.
    + rewrite includes_strings.
      destruct (Js.array_includes (Background.blockedListeners s) code'); [done|].
      destruct jsUrl as [u|].
      * rewrite includes_strings.
        destruct (Js.array_includes (Background.blockedUrls s) u) eqn:Hin;
          [by intros [= ->]|].
        destruct code' as [|ch code']; try done;
          by destruct (fst <$> List.find _ _) as [m|]; [destruct (truthy m)|].
      * destruct code' as [|ch code']; try done;
          by destruct (fst <$> List.find _ _) as [m|]; [destruct (truthy m)|].
    + destruct jsUrl as [u|]; [|done]. rewrite includes_strings.
      by destruct (Js.array_includes (Background.blockedUrls s) u) eqn:Hin; [intros [= ->]|].
Qed.

(** ** Blocking and unblocking a record *)

Lemma includes_app (list : list json) (v : json) (s : string) :
  includes (list ++ [v]) s = includes list s || is_string s v.
Proof. unfold includes. rewrite existsb_app. cbn. by rewrite orb_false_r. Qed.

Lemma is_string_refl (s : string) : is_string s (JString s) = true.
Proof. cbn. apply String.eqb_refl. Qed.

Lemma filter_not_included (list : list json) (s : string) :
  includes list s = false ->
  List.filter (fun v => negb (is_string s v)) list = list.
Proof.
  unfold includes. induction list as [|v list IH]; [done|]. cbn.
  intros [Hv Hlist]%orb_false_iff. rewrite Hv. cbn. by rewrite IH.
Qed.

Lemma filter_appended (list : list json) (s : string) :
  includes list s = false ->
  List.filter (fun v => negb (is_string s v)) (list ++ [JString s]) = list.
Proof.
  intros Hout. rewrite List.filter_app, filter_not_included by done.
  cbn. rewrite String.eqb_refl. cbn. apply app_nil_r.
Qed.

Lemma filter_excludes (list : list json) (s : string) :
  includes (List.filter (fun v => negb (is_string s v)) list) s = false.
Proof.
  unfold includes. induction list as [|v list IH]; [done|]. cbn.
  destruct (is_string s v) eqn:Hv; cbn; [done|]. by rewrite Hv, IH.
Qed.

(** X13. Blocking a record by its code lists the code, and the record is
    then reported as blocked for that code; unblocking with the reported
    reason takes the code off the list again and gives back the lists as
    they were.  The same holds for blocking by source URL whenever cleaning
    that URL gives it back: [addToBlocklist] lists the cleaned URL and
    [removeFromBlocklist] removes the cleaned URL.  Every edit, adding or
    removing, of whatever type, writes both lists to the storage and
    leaves the patterns alone; an edit of a type other than ["listener"]
    and ["url"] changes no list; a code or URL that is already listed is
    not listed twice, and after a removal the value is no longer
    listed. *)
Theorem block_then_unblock_restores_the_lists :
  (forall (st : Storage) (r : Background.Msg) (code : string),
      isListenerBlocked st r = None ->
      Background.listener r = Some code ->
      let st1 := fst (addToBlocklist "listener" code st) in
      isListenerBlocked st1 r = Some (ByListener code)
      /\ blockedListeners st1 = blockedListeners st ++ [JString code]
      /\ fst (removeFromBlocklist "listener" code st1) = st)
  /\ (forall (st : Storage) (r : Background.Msg) (url : string),
        isListenerBlocked st r = None ->
        extractJsUrlFromStack (Background.stack r) (Background.fullstack r) = Some url ->
        cleanUrl url = url ->
        let st1 := fst (addToBlocklist "url" url st) in
        isListenerBlocked st1 r = Some (ByUrl url)
        /\ blockedUrls st1 = blockedUrls st ++ [JString url]
        /\ fst (removeFromBlocklist "url" url st1) = st)
  /\ (forall (st : Storage) (type value : string),
        let st1 := fst (addToBlocklist type value st) in
        snd (addToBlocklist type value st)
        = [StorageSetBlocklists (blockedListeners st1) (blockedUrls st1)]
        /\ (includes (blockedListeners st) value = true -> type = "listener" -> st1 = st)
        /\ (includes (blockedUrls st) (cleanUrl value) = true -> type = "url" -> st1 = st)
        /\ (type = "url" -> includes (blockedUrls st) value = false ->
            includes (blockedUrls st) (cleanUrl value) = false -> cleanUrl value <> "" ->
            blockedUrls st1 = blockedUrls st ++ [JString (cleanUrl value)]
            /\ blockedListeners st1 = blockedListeners st)
        /\ (type <> "listener" -> type <> "url" -> st1 = st)
        /\ blockedRegex st1 = blockedRegex st /\ compiledRegex st1 = compiledRegex st)
  /\ (forall (st : Storage) (type value : string),
        let st2 := fst (removeFromBlocklist type value st) in
        snd (removeFromBlocklist type value st)
        = [StorageSetBlocklists (blockedListeners st2) (blockedUrls st2)]
        /\ (type = "listener" -> blockedUrls st2 = blockedUrls st)
        /\ (type = "url" -> blockedListeners st2 = blockedListeners st)
        /\ (type <> "listener" -> type <> "url" -> st2 = st)
        /\ blockedRegex st2 = blockedRegex st /\ compiledRegex st2 = compiledRegex st)
  /\ (forall (st : Storage) (value : string),
        includes (blockedListeners (fst (removeFromBlocklist "listener" value st))) value
        = false
        /\ includes (blockedUrls (fst (removeFromBlocklist "url" value st))) (cleanUrl value)
           = false).
Proof.
  split_and!.
  - intros st r code Hfree Hcode st1.
    assert (Hout : includes (blockedListeners st) code = false).
    { unfold isListenerBlocked in Hfree. rewrite Hcode in Hfree.
      by destruct (includes (blockedListeners st) code). }
    assert (Hst1 : st1 = MkStorage (blockedListeners st ++ [JString code]) (blockedUrls st)
                           (blockedRegex st) (compiledRegex st)).
    { subst st1. unfold addToBlocklist. cbn [fst]. rewrite Hout. done. }
    rewrite Hst1. split_and!.
    + unfold isListenerBlocked. cbn [blockedListeners].
      rewrite Hcode, includes_app, is_string_refl.
      by rewrite orb_true_r.
    + done.
    + unfold removeFromBlocklist. cbn [fst]. 
      change (String.eqb "listener" "listener") with true. cbn iota.
      cbn [blockedListeners blockedUrls blockedRegex compiledRegex].
      rewrite filter_appended by done. by destruct st.
  - intros st r url Hfree Hurl Hclean st1.
    assert (Hne : url <> "").
    { change (extractJsUrlFromStack (Background.stack r) (Background.fullstack r))
        with (Background.extractJsUrlFromStack (Background.stack r) (Background.fullstack r))
        in Hurl.
      apply extractJsUrlFromStack_candidate in Hurl as (candidate & Hcandidate).
      by apply clean_candidate_nonempty in Hcandidate as [? _]. }
    assert (Hfree' : match Background.listener r with
                     | Some code => includes (blockedListeners st) code = false
                     | None => True
                     end /\ includes (blockedUrls st) url = false).
    { unfold isListenerBlocked in Hfree. rewrite Hurl in Hfree.
      destruct (Background.listener r) as [code|];
        [destruct (includes (blockedListeners st) code); [done|]|];
        by destruct (includes (blockedUrls st) url). }
    destruct Hfree' as [Hcode Hout].
    assert (Hnonempty : String.eqb url "" = false) by by apply String.eqb_neq.
    assert (Hst1 : st1 = MkStorage (blockedListeners st) (blockedUrls st ++ [JString url])
                           (blockedRegex st) (compiledRegex st)).
    { subst st1. unfold addToBlocklist. cbn [fst].
      change (String.eqb "url" "listener") with false.
      change (String.eqb "url" "url") with true. cbn [andb].
      cbv zeta. rewrite Hclean, Hout, Hnonempty. done. }
    rewrite Hst1. split_and!.
    + unfold isListenerBlocked. cbn [blockedListeners blockedUrls].
      rewrite Hurl, includes_app, is_string_refl, orb_true_r.
      destruct (Background.listener r) as [code|]; [by rewrite Hcode|done].
    + done.
    + unfold removeFromBlocklist. cbn [fst].
      change (String.eqb "url" "listener") with false.
      change (String.eqb "url" "url") with true. cbv zeta. cbn iota.
      cbn [blockedListeners blockedUrls blockedRegex compiledRegex].
      rewrite Hclean, filter_appended by done. by destruct st.
  - intros st type value st1. subst st1. unfold addToBlocklist. cbn [fst snd]. split_and!.
    + done.
    + intros Hin ->. rewrite Hin. cbn [negb]. rewrite andb_false_r.
      change (String.eqb "listener" "url") with false. done.
    + intros Hin ->. change (String.eqb "url" "listener") with false.
      change (String.eqb "url" "url") with true. cbn [andb]. cbv zeta.
      rewrite Hin. cbn [negb]. rewrite andb_false_r. by destruct (negb _).
    + intros -> Hvalue Hcleaned Hne. change (String.eqb "url" "listener") with false.
      change (String.eqb "url" "url") with true. cbn [andb]. cbv zeta.
      apply String.eqb_neq in Hne. by rewrite Hvalue, Hcleaned, Hne.
    + intros Hlistener%String.eqb_neq Hurl%String.eqb_neq. by rewrite Hlistener, Hurl.
    + by repeat match goal with |- context [if ?b then _ else _] => destruct b end.
    + by repeat match goal with |- context [if ?b then _ else _] => destruct b end.
  - intros st type value st2. subst st2. unfold removeFromBlocklist. cbn [fst snd].
    split_and!.
    + done.
    + by intros ->.
    + by intros ->.
    + intros Hlistener%String.eqb_neq Hurl%String.eqb_neq. by rewrite Hlistener, Hurl.
    + by repeat match goal with |- context [if ?b then _ else _] => destruct b end.
    + by repeat match goal with |- context [if ?b then _ else _] => destruct b end.
  - intros st value. unfold removeFromBlocklist. cbn [fst].
    change (String.eqb "listener" "listener") with true.
    change (String.eqb "url" "listener") with false.
    change (String.eqb "url" "url") with true. cbv zeta. cbn iota.
    cbn [blockedListeners blockedUrls]. split; apply filter_excludes.
Qed.

End PopupBlockProperties.

Section HookStackProperties.
Import MainWorld.
#[local] Open Scope hook_scope.

(** The filter of [l] keeps a line exactly when the line before it matched
    and was not itself kept; so its first line is the line that follows
    the first matching line. *)
Lemma lines_after_match_head (stack : list string) (line : string) :
  head (lines_after_match false stack) = Some line
  <-> exists pre m post,
        stack = pre ++ m :: line :: post
        /\ Forall (fun e => matches_init_on e = false) pre
        /\ matches_init_on m = true.
Proof.
  induction stack as [|e rest IH]; cbn [lines_after_match].
  { split; [done|]. intros (pre & m & post & Heq & _). by destruct pre. }
  destruct (matches_init_on e) eqn:He.
  - destruct rest as [|next rest]; cbn [lines_after_match head].
    + split; [done|]. intros (pre & m & post & Heq & Hpre & Hm).
      destruct pre as [|? [|? ?]]; discriminate.
    + split.
      * intros [= ->]. by exists [], e, rest.
      * intros (pre & m & post & Heq & Hpre & Hm).
        destruct pre as [|e' pre]; cbn in Heq; [congruence|].
        injection Heq as <- _. apply Forall_cons in Hpre as [He' _]. congruence.
  - rewrite IH. split.
    + intros (pre & m & post & -> & Hpre & Hm).
      exists (e :: pre), m, post. split_and!; [done| |done]. by apply Forall_cons_2.
    + intros (pre & m & post & Heq & Hpre & Hm).
      destruct pre as [|e' pre]; cbn in Heq.
      * injection Heq as <- _. congruence.
      * injection Heq as <- ->. apply Forall_cons in Hpre as [_ Hpre].
        by exists pre, m, post.
Qed.

Lemma l_events (env : PageEnv) (listener : value) (pattern_before : bool)
    (additional_offset : nat) (e : Event) :
  e ∈ snd (l env listener pattern_before additional_offset) ->
  let lines := map trim (split_on "010" (error_stack env)) in
  snd (l env listener pattern_before additional_offset) = [e]
  /\ isFromExtension listener (join_spaces lines) = false
  /\ exists text,
       e = PostListener (window_label env) (hops env) (document_domain env)
             (if pattern_before then head (lines_after_match false lines)
              else lines !! (3 + additional_offset)%nat)
             lines text
       /\ cloneable text = true
       /\ ((truthy (get_prop listener "__postmessagetrackername__") = true
            /\ text = get_prop listener "__postmessagetrackername__")
           \/ (truthy (get_prop listener "__postmessagetrackername__") = false
               /\ exists s, call_toString listener = (Returned s, []) /\ text = VStr s)).
Proof.
  cbn zeta. unfold l. cbn zeta.
  set (lines := map trim (split_on "010" (error_stack env))).
  set (stack_line := if pattern_before then _ else _).
  destruct (isFromExtension listener (join_spaces lines)); [by intros ?%elem_of_nil|].
  unfold post_listener.
  destruct listener as [| |b|n|s|callable source ts name extensible props];
    try by intros ?%elem_of_nil.
  - cbn. intros ->%list_elem_of_singleton. split_and!; [done..|].
    exists (VStr (if b then "true" else "false")). split_and!; [done..|].
    right. split; [done|]. by eexists.
  - cbn. intros ->%list_elem_of_singleton. split_and!; [done..|].
    exists (VStr (pretty n)). split_and!; [done..|]. right. split; [done|]. by eexists.
  - cbn. intros ->%list_elem_of_singleton. split_and!; [done..|].
    exists (VStr s). split_and!; [done..|]. right. split; [done|]. by eexists.
  - destruct (truthy (get_prop (VObject callable source ts name extensible props)
                        "__postmessagetrackername__")) eqn:Hname.
    + unfold hbind, hret, hemit, hthrow.
      destruct (cloneable (get_prop _ _)) eqn:Hclone; [|by intros ?%elem_of_nil].
      cbn [snd app]. intros ->%list_elem_of_singleton. split_and!; [done..|].
      eexists. split_and!; [done|exact Hclone|by left].
    + destruct ts as [s|]; cbn; [|by intros ?%elem_of_nil].
      intros ->%list_elem_of_singleton. split_and!; [done..|].
      exists (VStr s). split_and!; [done..|]. right. split; [done|]. by eexists.
Qed.

(** X15. What [l] reports.  It posts at most one record, and none for a
    listener it takes for an extension's.  The record carries every line
    of the stack, trimmed, as its full stack.  For a listener dispatched by
    jQuery its stack line is the line that directly follows the first line
    matching [init.on] or [init. ... on\]], and is missing when no line
    matches or only the last one does; for any other listener it is the
    line at index three plus the number of wrapper layers, and is missing
    when the stack is shorter.  The code it carries is the label written
    on the listener, if there is one, and else the text [toString]
    gives. *)
Theorem the_hook_reports_the_line_after_the_jquery_frame
    (env : PageEnv) (listener : value) (pattern_before : bool) (layers : nat) :
  let lines := map trim (split_on "010" (error_stack env)) in
  let events := snd (l env listener pattern_before layers) in
  (isFromExtension listener (join_spaces lines) = true ->
   l env listener pattern_before layers = (Returned tt, []))
  /\ (length events <= 1)%nat
  /\ forall window hops domain stack fullstack text,
       PostListener window hops domain stack fullstack text ∈ events ->
       fullstack = lines
       /\ window = window_label env /\ hops = MainWorld.hops env
       /\ domain = document_domain env
       /\ (pattern_before = false -> stack = lines !! (3 + layers)%nat)
       /\ (pattern_before = true ->
           forall line,
             stack = Some line
             <-> exists pre m post,
                   lines = pre ++ m :: line :: post
                   /\ Forall (fun e => matches_init_on e = false) pre
                   /\ matches_init_on m = true)
       /\ ((truthy (get_prop listener "__postmessagetrackername__") = true
            /\ text = get_prop listener "__postmessagetrackername__")
           \/ (truthy (get_prop listener "__postmessagetrackername__") = false
               /\ exists s, text = VStr s /\ call_toString listener = (Returned s, []))).
Proof.
  cbn zeta. split_and!.
  - intros Hext. unfold l. cbn zeta. by rewrite Hext.
  - destruct (snd (l env listener pattern_before layers)) as [|e rest] eqn:Hevents;
      [cbn; lia|].
    assert (Hin : e ∈ snd (l env listener pattern_before layers))
      by (rewrite Hevents; apply list_elem_of_here).
    apply l_events in Hin as (Hone & _). rewrite Hone in Hevents.
    injection Hevents as <-. cbn. lia.
  - intros window hops domain stack fullstack text Hin.
    apply l_events in Hin as (_ & _ & text' & Heq & _ & Htext).
    injection Heq as -> -> -> -> -> ->. split_and!; try done.
    + by intros ->.
    + intros -> line. apply lines_after_match_head.
    + destruct Htext as [[Hlabel ->]|(Hfalse & s & Hs & ->)]; [by left|].
      right. split; [done|]. by exists s.
Qed.

End HookStackProperties.

(* ================================================================== *)
(** * The source URL of the identity key *)
(* ================================================================== *)

Section IdentityKeyProperties.
Context `{Platform}.
Import Background.

(** ** The two expressions, anchored *)

Lemma strip_prefix_Some (p s r : string) :
  Js.strip_prefix p s = Some r <-> s = p +:+ r.
Proof.
  revert s. induction p as [|a p IH]; intros s.
  - cbn. split; [by intros [= ->]|by intros ->].
  - destruct s as [|b s]; cbn; [done|].
    destruct (Ascii.eqb_spec a b) as [->|Hne].
    + rewrite IH. split; [by intros ->|by intros [= ->]].
    + split; [done|]. intros [= Hab _]. by destruct Hne.
Qed.

Lemma http_scheme_Some (s scheme r : string) :
  Js.http_scheme s = Some (scheme, r) <-> url_scheme scheme /\ s = scheme +:+ r.
Proof.
  unfold Js.http_scheme, url_scheme. split.
  - destruct (Js.strip_prefix "http" s) as [r1|] eqn:H1; [|done].
    apply strip_prefix_Some in H1 as ->.
    destruct (Js.strip_prefix "s://" r1) as [r2|] eqn:H2.
    + apply strip_prefix_Some in H2 as ->. intros [= <- <-]. split; [by right|done].
    + destruct (Js.strip_prefix "://" r1) as [r3|] eqn:H3; [|done].
      apply strip_prefix_Some in H3 as ->. intros [= <- <-]. split; [by left|done].
  - intros [[-> | ->] ->]; reflexivity.
Qed.

Lemma span_stops (p : ascii -> bool) (s a : string) (c : ascii) (b : string) :
  Js.span p s = (a, String c b) -> p c = false.
Proof.
  revert a. induction s as [|ch s IH]; intros a; cbn; [done|].
  destruct (p ch) eqn:Hp.
  - destruct (Js.span p s) as [a' b'] eqn:Hs. intros [= <- ->]. by eapply IH.
  - by intros [= <- <- <-].
Qed.

Lemma span_run (p : ascii -> bool) (body rest : string) :
  Whatwg.all_chars p body = true ->
  match rest with String c _ => p c = false | EmptyString => True end ->
  Js.span p (body +:+ rest) = (body, rest).
Proof.
  intros Hbody Hrest. induction body as [|ch body IH].
  - rewrite app_nil_l. destruct rest as [|c rest]; [done|]. cbn. by rewrite Hrest.
  - cbn in Hbody. apply andb_true_iff in Hbody as [Hch Hbody].
    rewrite app_cons. cbn. by rewrite Hch, IH.
Qed.

Lemma paren_url_at_spec (s m : string) :
  Js.paren_url_at s = Some m <-> parenthesized_url_at s m.
Proof.
  unfold Js.paren_url_at, parenthesized_url_at. split.
  - destruct (Js.strip_prefix "(" s) as [r|] eqn:Hopen; [|done].
    apply strip_prefix_Some in Hopen as ->.
    destruct (Js.http_scheme r) as [[scheme r']|] eqn:Hscheme; [|done].
    apply http_scheme_Some in Hscheme as [Hscheme ->].
    destruct (span_split (fun c => negb (Ascii.eqb c ")")) r') as [Hsplit Hbody].
    destruct (Js.span _ r') as [[|c body] [|close rest]] eqn:Hspan; try done.
    apply span_stops in Hspan as Hclose. apply negb_false_iff, Ascii.eqb_eq in Hclose as ->.
    intros [= <-]. exists scheme, (String c body), rest. cbn [fst snd] in *.
    split_and!; [done..|]. rewrite Hsplit at 1.
    by rewrite !app_assoc_string, !app_cons, !app_nil_l.
  - intros (scheme & body & rest & Hscheme & Hne & Hbody & -> & ->).
    assert (Hopen : Js.strip_prefix "(" (("(" +:+ scheme +:+ body +:+ ")") +:+ rest)
                    = Some (scheme +:+ (body +:+ String ")" rest))).
    { apply strip_prefix_Some.
      by rewrite !app_assoc_string, !app_cons, !app_nil_l. }
    rewrite Hopen.
    assert (Hs : Js.http_scheme (scheme +:+ (body +:+ String ")" rest))
                 = Some (scheme, body +:+ String ")" rest))
      by (by apply http_scheme_Some).
    rewrite Hs, (span_run _ body (String ")" rest)) by done.
    by destruct body.
Qed.

Lemma bare_url_at_spec (s m : string) :
  Js.bare_url_at s = Some m <-> bare_url_at s m.
Proof.
  unfold Js.bare_url_at, bare_url_at. split.
  - destruct (Js.http_scheme s) as [[scheme r]|] eqn:Hscheme; [|done].
    apply http_scheme_Some in Hscheme as [Hscheme ->].
    destruct (span_split (fun c => negb (Js.is_space c) && negb (Ascii.eqb c ")")) r)
      as [Hsplit Hbody].
    destruct (Js.span _ r) as [[|c body] rest] eqn:Hspan; [done|].
    intros [= <-]. exists scheme, (String c body), rest. cbn [fst snd] in *.
    split_and!; [done..| |].
    + rewrite Hsplit at 1. by rewrite app_assoc_string.
    + destruct rest as [|stop rest]; [done|]. by apply span_stops in Hspan.
  - intros (scheme & body & rest & Hscheme & Hne & Hbody & -> & -> & Hrest).
    assert (Hs : Js.http_scheme ((scheme +:+ body) +:+ rest) = Some (scheme, body +:+ rest)).
    { apply http_scheme_Some. by rewrite app_assoc_string. }
    rewrite Hs. unfold url_char in *. rewrite (span_run _ body rest) by done.
    by destruct body.
Qed.

(** ** The first match of a line *)

Section FirstMatch.
Variable try_at : string -> option string.
Hypothesis try_at_prefix :
  forall s m, try_at s = Some m -> m <> "" /\ exists rest, s = m +:+ rest.

Lemma try_at_empty : try_at "" = None.
Proof.
  destruct (try_at "") as [m|] eqn:Hm; [|done].
  apply try_at_prefix in Hm as [Hne [rest Hrest]]. by destruct m.
Qed.

Lemma match_all_head (s : string) :
  match head (Js.match_all try_at 0 s) with
  | Some m => first_in (fun s m => try_at s = Some m) s m
  | None => none_in (fun s m => try_at s = Some m) s
  end.
Proof.
  induction s as [|c s IH].
  - cbn. intros a b m Hab. destruct a, b; try done. by rewrite try_at_empty.
  - cbn [Js.match_all]. destruct (try_at (String c s)) as [m|] eqn:Hm.
    + cbn [head]. destruct (try_at_prefix _ _ Hm) as [_ [post Hpost]].
      exists "", post. rewrite app_nil_l. split_and!; [done|by rewrite <- Hpost|].
      intros a b m' Hab Hb. by destruct a, b.
    + destruct (head (Js.match_all try_at 0 s)) as [m|] eqn:Hhead.
      * destruct IH as (pre & post & -> & Hat & Hleft).
        exists (String c pre), post. split_and!; [done..|].
        intros a b m' Hab Hb. destruct a as [|c' a].
        -- rewrite app_nil_l in Hab. subst b. rewrite app_cons. by rewrite Hm.
        -- rewrite app_cons in Hab. injection Hab as <- ->. by apply (Hleft a b m').
      * intros a b m' Hab. destruct a as [|c' a].
        -- rewrite app_nil_l in Hab. subst b. by rewrite Hm.
        -- rewrite app_cons in Hab. injection Hab as <- ->. by apply (IH a b m').
Qed.

Lemma first_in_unique (s m1 m2 : string) :
  first_in (fun s m => try_at s = Some m) s m1 ->
  first_in (fun s m => try_at s = Some m) s m2 ->
  m1 = m2.
Proof.
  intros (pre1 & post1 & H1 & Hat1 & Hleft1) (pre2 & post2 & H2 & Hat2 & Hleft2).
  assert (Hsame : forall pre1 pre2 r1 r2 : string,
             pre1 +:+ r1 = pre2 +:+ r2 ->
             try_at r1 <> None -> try_at r2 <> None ->
             (forall a b, pre1 = a +:+ b -> b <> "" -> try_at (b +:+ r1) = None) ->
             (forall a b, pre2 = a +:+ b -> b <> "" -> try_at (b +:+ r2) = None) ->
             r1 = r2).
  { clear. induction pre1 as [|c pre1 IH]; intros pre2 r1 r2 Heq Hr1 Hr2 Hl1 Hl2.
    - rewrite app_nil_l in Heq. subst r1. destruct pre2 as [|c pre2]; [done|].
      destruct Hr1. by apply (Hl2 "" (String c pre2)).
    - destruct pre2 as [|c2 pre2].
      + rewrite app_nil_l in Heq. subst r2. destruct Hr2.
        by apply (Hl1 "" (String c pre1)).
      + rewrite !app_cons in Heq. injection Heq as <- Heq.
        apply (IH pre2); [done..| |].
        * intros a b -> Hb. by apply (Hl1 (String c a) b).
        * intros a b -> Hb. by apply (Hl2 (String c a) b). }
  assert (Hr : m1 +:+ post1 = m2 +:+ post2).
  { apply (Hsame pre1 pre2).
    - by rewrite <- H1, <- H2.
    - by rewrite Hat1.
    - by rewrite Hat2.
    - intros a b Hab Hb. destruct (try_at (b +:+ m1 +:+ post1)) as [m'|] eqn:Hm'; [|done].
      by destruct (Hleft1 a b m' Hab Hb).
    - intros a b Hab Hb. destruct (try_at (b +:+ m2 +:+ post2)) as [m'|] eqn:Hm'; [|done].
      by destruct (Hleft2 a b m' Hab Hb). }
  rewrite Hr in Hat1. congruence.
Qed.

Lemma first_in_head (s m : string) :
  first_in (fun s m => try_at s = Some m) s m -> head (Js.match_all try_at 0 s) = Some m.
Proof.
  intros Hfirst. pose proof (match_all_head s) as Hhead.
  destruct (head (Js.match_all try_at 0 s)) as [m'|].
  - f_equal. by apply (first_in_unique s).
  - destruct Hfirst as (pre & post & -> & Hat & _). by destruct (Hhead pre (m +:+ post) m).
Qed.

Lemma none_in_head (s : string) :
  none_in (fun s m => try_at s = Some m) s -> head (Js.match_all try_at 0 s) = None.
Proof.
  intros Hnone. pose proof (match_all_head s) as Hhead.
  destruct (head (Js.match_all try_at 0 s)) as [m|]; [|done].
  destruct Hhead as (pre & post & -> & Hat & _). by destruct (Hnone pre (m +:+ post) m).
Qed.

End FirstMatch.

Lemma first_in_iff (P Q : string -> string -> Prop) (line m : string) :
  (forall s m, P s m <-> Q s m) -> first_in P line m <-> first_in Q line m.
Proof.
  intros HPQ. unfold first_in.
  split; intros (pre & post & Hline & Hat & Hleft); exists pre, post;
    (split_and!; [done|by apply HPQ|]); intros a b m' Hab Hb Hm';
    apply (Hleft a b m' Hab Hb); by apply HPQ.
Qed.

Lemma none_in_iff (P Q : string -> string -> Prop) (line : string) :
  (forall s m, P s m <-> Q s m) -> none_in P line <-> none_in Q line.
Proof.
  intros HPQ. unfold none_in.
  split; intros Hnone a b m Hab Hm; apply (Hnone a b m Hab); by apply HPQ.
Qed.

Lemma paren_url_at_prefix (s m : string) :
  Js.paren_url_at s = Some m -> m <> "" /\ exists rest, s = m +:+ rest.
Proof.
  intros (scheme & body & rest & _ & _ & _ & -> & ->)%paren_url_at_spec.
  split; [done|by exists rest].
Qed.

Lemma bare_url_at_prefix (s m : string) :
  Js.bare_url_at s = Some m -> m <> "" /\ exists rest, s = m +:+ rest.
Proof.
  intros (scheme & body & rest & [-> | ->] & _ & _ & -> & -> & _)%bare_url_at_spec;
    (split; [done|by exists rest]).
Qed.

(** The first match of each expression is the first URL of its kind. *)
Lemma match_paren_urls_head (line : string) :
  match head (Js.match_paren_urls line) with
  | Some m => first_in parenthesized_url_at line m
  | None => none_in parenthesized_url_at line
  end.
Proof.
  pose proof (match_all_head Js.paren_url_at paren_url_at_prefix line) as Hhead.
  unfold Js.match_paren_urls.
  destruct (head (Js.match_all Js.paren_url_at 0 line)) as [m|].
  - by apply (first_in_iff _ _ line m paren_url_at_spec).
  - by apply (none_in_iff _ _ line paren_url_at_spec).
Qed.

Lemma match_bare_urls_head (line : string) :
  match head (Js.match_bare_urls line) with
  | Some m => first_in bare_url_at line m
  | None => none_in bare_url_at line
  end.
Proof.
  pose proof (match_all_head Js.bare_url_at bare_url_at_prefix line) as Hhead.
  unfold Js.match_bare_urls.
  destruct (head (Js.match_all Js.bare_url_at 0 line)) as [m|].
  - by apply (first_in_iff _ _ line m bare_url_at_spec).
  - by apply (none_in_iff _ _ line bare_url_at_spec).
Qed.

Lemma first_paren_url_head (line m : string) :
  first_in parenthesized_url_at line m -> head (Js.match_paren_urls line) = Some m.
Proof.
  intros Hfirst. apply (first_in_head _ paren_url_at_prefix).
  by apply (first_in_iff _ _ line m paren_url_at_spec).
Qed.

Lemma first_bare_url_head (line m : string) :
  first_in bare_url_at line m -> head (Js.match_bare_urls line) = Some m.
Proof.
  intros Hfirst. apply (first_in_head _ bare_url_at_prefix).
  by apply (first_in_iff _ _ line m bare_url_at_spec).
Qed.

Lemma no_paren_url_head (line : string) :
  none_in parenthesized_url_at line -> Js.match_paren_urls line = [].
Proof.
  intros Hnone.
  assert (Hhead : head (Js.match_paren_urls line) = None).
  { apply (none_in_head _ paren_url_at_prefix).
    by apply (none_in_iff _ _ line paren_url_at_spec). }
  by destruct (Js.match_paren_urls line).
Qed.

Lemma no_bare_url_head (line : string) :
  none_in bare_url_at line -> Js.match_bare_urls line = [].
Proof.
  intros Hnone.
  assert (Hhead : head (Js.match_bare_urls line) = None).
  { apply (none_in_head _ bare_url_at_prefix).
    by apply (none_in_iff _ _ line bare_url_at_spec). }
  by destruct (Js.match_bare_urls line).
Qed.

(** ** Candidates are never cleaned to the empty text *)

Lemma app_empty (a b : string) : a +:+ b = "" -> a = "" /\ b = "".
Proof. destruct a; [by rewrite app_nil_l|by rewrite app_cons]. Qed.

Lemma app_inv_tail_string (a b c : string) : a +:+ c = b +:+ c -> a = b.
Proof.
  intros Heq.
  assert (Hrev : String.rev c +:+ String.rev a = String.rev c +:+ String.rev b)
    by (by rewrite <- !rev_append, Heq).
  assert (Hcancel : forall p x y : string, p +:+ x = p +:+ y -> x = y).
  { induction p as [|ch p IH]; intros x y; [by rewrite !app_nil_l|].
    rewrite !app_cons. intros [= Hxy]. by apply IH. }
  apply Hcancel in Hrev. by rewrite <- (rev_involutive a), Hrev, rev_involutive.
Qed.

Lemma slice_parenthesized (u : string) : Js.slice_1_m1 ("(" +:+ u +:+ ")") = u.
Proof.
  unfold Js.slice_1_m1. rewrite app_cons, app_nil_l.
  assert (Hlen : (String.length (String "(" (u +:+ ")")) - 2 = String.length u)%nat).
  { assert (Happ : String.length (u +:+ ")") = S (String.length u)).
    { induction u as [|ch u IH]; [done|]. rewrite app_cons. cbn [String.length]. by rewrite IH. }
    cbn [String.length]. rewrite Happ. lia. }
  rewrite Hlen. clear Hlen. change (String.substring 1 (String.length u) (String "(" (u +:+ ")")))
    with (String.substring 0 (String.length u) (u +:+ ")")).
  induction u as [|ch u IH]; [reflexivity|].
  rewrite app_cons. cbn [String.length String.substring]. by rewrite IH.
Qed.

(** Removing a trailing number keeps the first character of a text that
    does not start with a colon. *)
Lemma drop_rev_number_head (s r : string) (c : ascii) (t : string) :
  Js.drop_rev_number (String.rev s) = Some r ->
  s = String c t -> c <> ":"%char ->
  exists t', String.rev r = String c t'.
Proof.
  intros (digits & Hrev & _ & _)%drop_rev_number_Some -> Hc.
  assert (Hs : String c t = String.rev r +:+ ":" +:+ String.rev digits).
  { rewrite <- (rev_involutive (String c t)), Hrev, !rev_append.
    by rewrite app_assoc_string. }
  destruct (String.rev r) as [|c' t'].
  - rewrite app_nil_l, app_cons in Hs. by injection Hs as -> _.
  - rewrite app_cons in Hs. injection Hs as -> _. by exists t'.
Qed.

Lemma strip_line_head (c : ascii) (t : string) :
  c <> ":"%char -> exists t', Js.strip_line (String c t) = String c t'.
Proof.
  intros Hc. unfold Js.strip_line.
  destruct (Js.drop_rev_number (String.rev (String c t))) as [r|] eqn:Hdrop; [|by exists t].
  by apply (drop_rev_number_head _ _ c t Hdrop).
Qed.

Lemma strip_line_col_head (c : ascii) (t : string) :
  c <> ":"%char -> exists t', Js.strip_line_col (String c t) = String c t'.
Proof.
  intros Hc. unfold Js.strip_line_col.
  destruct (Js.drop_rev_number (String.rev (String c t))) as [r1|] eqn:Hdrop1; [|by exists t].
  destruct (Js.drop_rev_number r1) as [r2|] eqn:Hdrop2; [|by exists t].
  destruct (drop_rev_number_head _ _ c t Hdrop1 eq_refl Hc) as [t1 Ht1].
  rewrite <- (rev_involutive r1) in Hdrop2.
  by apply (drop_rev_number_head _ _ c t1 Hdrop2).
Qed.

Lemma clean_candidate_of_url (scheme body : string) :
  url_scheme scheme ->
  clean_candidate (scheme +:+ body)
  = Some (cleanUrl (Js.strip_line (Js.strip_line_col (scheme +:+ body)))).
Proof.
  intros Hscheme.
  assert (Hhead : exists t, scheme +:+ body = String "h" t)
    by (destruct Hscheme as [-> | ->]; rewrite app_cons; by eexists).
  destruct Hhead as [t ->].
  destruct (strip_line_col_head "h" t) as [t1 Ht1]; [done|].
  destruct (strip_line_head "h" t1) as [t2 Ht2]; [done|].
  unfold clean_candidate. rewrite Ht1, Ht2.
  assert (Hne : cleanUrl (String "h" t2) <> "").
  { unfold cleanUrl. destruct (URL_new (String "h" t2)) as [urlObj|].
    - intros [_ [Hslashes _]%app_empty]%app_empty. done.
    - cbn. done. }
  by destruct (cleanUrl (String "h" t2)).
Qed.

(** ** The URL of a line and of a stack *)

Lemma first_paren_url_shape (line m : string) :
  first_in parenthesized_url_at line m ->
  exists scheme body, url_scheme scheme /\ m = "(" +:+ (scheme +:+ body) +:+ ")".
Proof.
  intros (pre & post & _ & (scheme & body & rest & Hscheme & _ & _ & -> & _) & _).
  exists scheme, body. split; [done|]. by rewrite !app_assoc_string.
Qed.

Lemma first_bare_url_shape (line m : string) :
  first_in bare_url_at line m ->
  exists scheme body, url_scheme scheme /\ m = scheme +:+ body.
Proof.
  intros (pre & post & _ & (scheme & body & rest & Hscheme & _ & _ & -> & _) & _).
  by exists scheme, body.
Qed.

Lemma extractJsUrlFromLine_url (line url : string) :
  url_of_line line url ->
  extractJsUrlFromLine line = Some (cleanUrl (Js.strip_line (Js.strip_line_col url))).
Proof.
  unfold extractJsUrlFromLine. intros [Hparen|[Hnone Hbare]].
  - destruct (first_paren_url_shape _ _ Hparen) as (scheme & body & Hscheme & Hshape).
    rewrite !app_cons, !app_nil_l in Hshape. injection Hshape as Hshape.
    apply app_inv_tail_string in Hshape as ->.
    apply first_paren_url_head in Hparen.
    destruct (Js.match_paren_urls line) as [|m rest]; [done|]. injection Hparen as ->.
    cbn [Js.first_some]. by rewrite slice_parenthesized, clean_candidate_of_url.
  - rewrite (no_paren_url_head _ Hnone). cbn [Js.first_some].
    destruct (first_bare_url_shape _ _ Hbare) as (scheme & body & Hscheme & ->).
    apply first_bare_url_head in Hbare.
    destruct (Js.match_bare_urls line) as [|m rest]; [done|]. injection Hbare as ->.
    cbn [Js.first_some]. by rewrite clean_candidate_of_url.
Qed.

Lemma extractJsUrlFromLine_none (line : string) :
  no_url_in line -> extractJsUrlFromLine line = None.
Proof.
  intros [Hparen Hbare]. unfold extractJsUrlFromLine.
  by rewrite (no_paren_url_head _ Hparen), (no_bare_url_head _ Hbare).
Qed.

Lemma line_has_url_or_not (line : string) :
  (exists url, url_of_line line url) \/ no_url_in line.
Proof.
  pose proof (match_paren_urls_head line) as Hparen.
  pose proof (match_bare_urls_head line) as Hbare.
  destruct (head (Js.match_paren_urls line)) as [m|].
  - left. destruct (first_paren_url_shape _ _ Hparen) as (scheme & body & _ & ->).
    exists (scheme +:+ body). by left.
  - destruct (head (Js.match_bare_urls line)) as [m|].
    + left. exists m. by right.
    + by right.
Qed.

Lemma extractJsUrlFromStack_found (stack : option string) (fullstack : option (list string))
    (url : string) :
  first_url_found (stackLines stack fullstack) url ->
  extractJsUrlFromStack stack fullstack
  = Some (cleanUrl (Js.strip_line (Js.strip_line_col url))).
Proof.
  unfold extractJsUrlFromStack. intros (before & line & after & -> & Hbefore & Hline).
  induction Hbefore as [|l before Hl _ IH]; cbn.
  - by rewrite (extractJsUrlFromLine_url _ _ Hline).
  - by rewrite (extractJsUrlFromLine_none _ Hl).
Qed.

Lemma extractJsUrlFromStack_none (stack : option string) (fullstack : option (list string)) :
  Forall no_url_in (stackLines stack fullstack) ->
  extractJsUrlFromStack stack fullstack = None.
Proof.
  unfold extractJsUrlFromStack. induction 1 as [|l lines Hl _ IH]; cbn; [done|].
  by rewrite (extractJsUrlFromLine_none _ Hl).
Qed.

Lemma stack_has_url_or_not (lines : list string) :
  (exists url, first_url_found lines url) \/ Forall no_url_in lines.
Proof.
  induction lines as [|line lines IH]; [right; apply Forall_nil_2|].
  destruct (line_has_url_or_not line) as [[url Hurl]|Hnone].
  - left. exists url, [], line, lines. split_and!; [done|apply Forall_nil_2|done].
  - destruct IH as [(url & before & l & after & -> & Hbefore & Hl)|Hrest].
    + left. exists url, (line :: before), l, after.
      split_and!; [done|by apply Forall_cons_2|done].
    + right. by apply Forall_cons_2.
Qed.

Lemma before_split (sep : ascii) (s : string) :
  Js.before sep s = s \/ exists rest, s = Js.before sep s +:+ String sep rest.
Proof.
  induction s as [|ch s IH]; [by left|]. cbn.
  destruct (Ascii.eqb_spec ch sep) as [->|Hne].
  - right. by exists s.
  - destruct IH as [->|[rest Hrest]]; [by left|].
    right. exists rest. by rewrite app_cons, <- Hrest.
Qed.

(** C2. The identity key of a record is its cleaned source URL followed
    by hops, domain and code, each after a ["|"] and empty when missing.
    The source URL is looked for line by line, in the full stack of the
    record or, when it has none, in its stack line: it is the URL of the
    first line that holds one, and in that line the first parenthesized
    URL, without its parentheses, or, when the line has none, the first
    bare URL.  A trailing [:line:column] or [:line] is removed from it, and
    it is cleaned by [cleanUrl]: to the protocol, two slashes, the host
    name and the path of the parsed URL, which leaves out its port and its
    credentials along with its query string and its fragment, or, when it
    does not parse, to the text before its first [?] and, of that, the
    text before its first [#].  A record
    without a URL has the key of an empty source URL.  Two registrations of
    the scenario derive the same key, so that with deduplication a tab
    without records holds one record after both; on the modelled platform
    the key is built from [https://cdn.example.com/a.js]. *)
Theorem identity_key_is_url_hops_domain_code :
  (forall (r : Msg) (url : string),
      first_url_found (stackLines (stack r) (fullstack r)) url ->
      generateListenerKey r
      = cleanUrl (Js.strip_line (Js.strip_line_col url)) +:+ key_tail r)
  /\ (forall r : Msg,
        Forall no_url_in (stackLines (stack r) (fullstack r)) ->
        generateListenerKey r = key_tail r)
  /\ (forall lines : list string,
        (exists url, first_url_found lines url) \/ Forall no_url_in lines)
  /\ (forall (stack : option string) (lines : list string) (c : ascii) (line : string),
        stackLines stack (Some lines) = lines
        /\ stackLines (Some (String c line)) None = [String c line]
        /\ stackLines (Some "") None = []
        /\ stackLines None None = [])
  /\ (forall (url : string) (c : ascii) (rest : string),
        url = String c rest ->
        cleanUrl url
        = match URL_new url with
          | Some urlObj => protocol urlObj +:+ "//" +:+ hostname urlObj +:+ pathname urlObj
          | None => Js.before "#" (Js.before "?" url)
          end)
  /\ (forall (sep : ascii) (s : string),
        Whatwg.all_chars (fun ch => negb (Ascii.eqb ch sep)) (Js.before sep s) = true
        /\ (Js.before sep s = s \/ exists rest, s = Js.before sep s +:+ String sep rest))
  /\ (forall u line column : string,
        ~ ends_with_number u ->
        line <> "" -> Whatwg.all_chars Js.is_digit line = true ->
        column <> "" -> Whatwg.all_chars Js.is_digit column = true ->
        Js.strip_line (Js.strip_line_col (u +:+ ":" +:+ line +:+ ":" +:+ column)) = u
        /\ Js.strip_line (Js.strip_line_col (u +:+ ":" +:+ line)) = u
        /\ Js.strip_line (Js.strip_line_col u) = u)
  /\ (forall (s : State) (tabId : Z) (r1 r2 : Msg),
        scenario_registration r1 -> scenario_registration r2 ->
        dedupeEnabled s = true ->
        tab_listeners s !! tabId = None ->
        generateListenerKey r1 = generateListenerKey r2
        /\ length (records_of (exec (addListener tabId r2) (exec (addListener tabId r1) s))
                     tabId) = 1%nat)
  /\ (forall r : Msg,
        scenario_registration r ->
        @generateListenerKey reference_platform r
        = "https://cdn.example.com/a.js|top|example.com|function(e){console.log(e)}").
Proof.
  split_and!.
  - intros r url Hurl. unfold generateListenerKey, key_tail.
    rewrite (extractJsUrlFromStack_found _ _ _ Hurl).
    by destruct (cleanUrl (Js.strip_line (Js.strip_line_col url))).
  - intros r Hnone. unfold generateListenerKey, key_tail.
    by rewrite (extractJsUrlFromStack_none _ _ Hnone).
  - apply stack_has_url_or_not.
  - done.
  - by intros url c rest ->.
  - intros sep s. split; [apply before_no_separator|apply before_split].
  - apply location_suffix_removed.
  - intros s tabId r1 r2 Hr1 Hr2 Hd Hfresh.
    destruct (scenario_same_identity r1 r2 Hr1 Hr2) as (Hsame & Hpass1 & Hpass2).
    split; [by apply same_identity_same_key|].
    destruct (addListener_twice s tabId r1 r2 Hsame Hpass1) as (Hon & _ & _).
    destruct (Hon Hd) as (_ & -> & Hnew & _).
    destruct Hnew as (_ & Hl & _).
    + unfold keys_seen. rewrite Hfresh. apply not_elem_of_empty.
    + unfold records_of at 1. rewrite Hl. unfold records_of. by rewrite Hfresh.
  - intros r (Hl & Hs & Hf & Hh & Hd).
    unfold generateListenerKey, extractJsUrlFromStack.
    rewrite Hl, Hs, Hh, Hd. by destruct Hf as [-> | ->].
Qed.

End IdentityKeyProperties.

(* ================================================================== *)
(** * The deferred helpers between their awaits *)
(* ================================================================== *)

Section HelperProperties.
Context `{Platform}.
Import Background.
#[local] Open Scope js_scope.

Ltac run_handler :=
  unfold exec, result, effects, bind, ret, get, modify, emit, emit_all, when; simpl.


Lemma updateCachedData_steps (env : Env) (s : State) :
  updateCachedData_uninterrupted env s = updateCachedData env s.
Proof.
  unfold updateCachedData_uninterrupted, updateCachedData, updateCachedData_begin,
    updateCachedData_resume.
  run_handler. destruct (negb (selectedId s =? 0)%Z && (0 <? selectedId s)%Z); [|done].
  simpl. by destruct (tabs_get env (selectedId s)).
Qed.



(** The loading mark of a tab after an event. *)
Lemma flag_set_delete (m : gmap Z bool) (tabId other : Z) :
  flag_set (delete tabId m) other = if bool_decide (other = tabId) then false else flag_set m other.
Proof.
  unfold flag_set. case_bool_decide as Heq.
  - subst. by rewrite lookup_delete_eq.
  - by rewrite lookup_delete_ne.
Qed.

Lemma handle_loading_mark (e : Incoming) (s : State) (tabId : Z) :
  flag_set (tab_lasturl s) tabId = true ->
  flag_set (tab_lasturl (exec (handle e) s)) tabId = false
  <-> removes_loading_mark e s tabId.
Proof.
  intros Hmark.
  assert (Hkept : forall s', tab_lasturl s' = tab_lasturl s ->
                             flag_set (tab_lasturl s') tabId = false <-> False).
  { intros s' ->. by rewrite Hmark. }
  destruct e as [msg sender|updated status|activated|removed|changes|settings
                 |env|env|env later port|env later port|port]; cbn [handle removes_loading_mark].
  - destruct (decide (action msg = Some "updateDedupeSetting")) as [Hupdate|Hother].
    { destruct (onMessage_dedupe_setting s msg sender Hupdate) as (_ & _ & _ & _ & Hl & _).
      rewrite (Hkept _ Hl). destruct sender; [|done]. split; [done|]. by intros (_ & _ & ? & _). }
    destruct sender as [tab|].
    2:{ destruct (onMessage_frame s msg Hother) as (_ & -> & _). by rewrite Hmark. }
    rewrite onMessage_state by done.
    pose proof (addListener_rest s (tab_id tab) (with_parent_url (tab_url tab) msg))
      as (_ & Hu & _).
    destruct (Js.truthy (listener msg)) eqn:Hcode.
    + destruct (bool_decide_reflect (listener msg = Some NATIVE_CODE)) as [Hnative|Hnative].
      { rewrite Hmark. split; [done|]. by intros (_ & _ & _ & ?). }
      cbn zeta. destruct (changePage msg) eqn:Hpage.
      * destruct (pushState msg); cbn; rewrite flag_set_delete, Hu;
          case_bool_decide as Heq; rewrite ?Hmark; split; try done;
          try (by intros (? & _)); by intros _; split_and!.
      * destruct (pushState msg); cbn; rewrite Hu, Hmark; split; try done;
          by intros (_ & ? & _).
    + assert (Hnative : listener msg <> Some NATIVE_CODE).
      { intros Heq. by rewrite Heq in Hcode. }
      cbn zeta. destruct (changePage msg) eqn:Hpage.
      * destruct (pushState msg); cbn; rewrite flag_set_delete;
          case_bool_decide as Heq; rewrite ?Hmark; split; try done;
          try (by intros (? & _)); by intros _; split_and!.
      * destruct (pushState msg); cbn; rewrite Hmark; split; try done;
          by intros (_ & ? & _).
  - destruct (decide (updated = tabId)) as [->|Hne].
    + destruct (onUpdated_loading_flag s tabId status) as (_ & Hstays & _).
      by rewrite (Hstays Hmark).
    + destruct (onUpdated_loading_flag s updated status) as (_ & _ & Hother).
      unfold flag_set in *. rewrite (Hother tabId) by done. by rewrite Hmark.
  - apply Hkept. unfold onActivated, notifyPopups. by run_handler.
  - unfold onRemoved. run_handler.
    destruct (bool_decide (currentTabId (cachedPopupData s) = Some removed)); simpl;
      rewrite flag_set_delete; case_bool_decide as Heq; rewrite ?Hmark;
      split; try done; congruence.
  - apply Hkept. unfold onStorageChanged, compileRegexPatterns. run_handler.
    destruct (ch_blockedListeners changes), (ch_blockedUrls changes),
      (ch_blockedRegex changes); simpl;
      repeat match goal with
             | |- context [compile_patterns ?l] => destruct (compile_patterns l); simpl
             end; done.
  - apply Hkept. unfold loadSettings, compileRegexPatterns. run_handler.
    by destruct (compile_patterns _).
  - unfold refreshCount. run_handler.
    destruct (Z.ltb_spec 0 (selectedId s)) as [Hpos|Hneg].
    + destruct (tabs_get env (selectedId s)) as [url|] eqn:Hget; simpl.
      * rewrite Hmark. split; [done|]. intros (<- & _ & Hnone). congruence.
      * rewrite flag_set_delete. case_bool_decide as Heq; rewrite ?Hmark.
        -- subst. by split.
        -- split; [done|]. intros (<- & _). done.
    + simpl. rewrite Hmark. split; [done|]. intros (<- & ? & _). lia.
  - apply Hkept. by destruct (updateCachedData_run env s) as (_ & _ & _ & _ & _ & Hl & _).
  - apply Hkept. unfold onConnect. rewrite exec_bind.
    by destruct (sendData_run env later port (exec (modify (set_connectedPorts (fun ports => ports ++ [port]))) s))
      as (_ & _ & _ & -> & _).
  - apply Hkept. by destruct (sendData_run env later port s) as (_ & _ & _ & Hl & _).
  - apply Hkept. unfold onDisconnect. by run_handler.
Qed.

(** What one step of a helper leaves alone. *)
Lemma run_step_frame (step : HelperStep) (s : State) :
  let s' := exec (run_step step) s in
  selectedId s' = selectedId s /\ connectedPorts s' = connectedPorts s
  /\ dedupeEnabled s' = dedupeEnabled s
  /\ blockedListeners s' = blockedListeners s /\ blockedUrls s' = blockedUrls s
  /\ blockedRegex s' = blockedRegex s /\ compiledRegex s' = compiledRegex s
  /\ tab_push s' = tab_push s
  /\ (~ writes_cache step -> cachedPopupData s' = cachedPopupData s)
  /\ (~ is_cleanup step ->
      tab_listeners s' = tab_listeners s /\ tab_listener_keys s' = tab_listener_keys s
      /\ tab_lasturl s' = tab_lasturl s)
  /\ (is_cleanup step ->
      tab_listeners s' = delete (selectedId s) (tab_listeners s)
      /\ tab_listener_keys s' = delete (selectedId s) (tab_listener_keys s)
      /\ tab_lasturl s' = delete (selectedId s) (tab_lasturl s)).
Proof.
  destruct step as [|awaited resolved|now|url|env data]; cbn [run_step].
  - unfold refreshCount_begin. run_handler.
    destruct (0 <? selectedId s)%Z; simpl; by split_and!.
  - unfold refreshCount_resume, refreshCount_catch. run_handler.
    destruct resolved; [destruct awaited|]; simpl; by split_and!.
  - unfold updateCachedData_begin. run_handler.
    destruct (negb (selectedId s =? 0)%Z && (0 <? selectedId s)%Z); simpl;
      split_and!; try done; by intros [].
  - unfold updateCachedData_resume. run_handler. split_and!; try done; by intros [].
  - unfold logListener. run_handler.
    destruct (sync_log_url env) as [[|c u]|]; simpl; by split_and!.
Qed.

Lemma run_steps_frame (steps : list HelperStep) (s : State) :
  let s' := run_steps steps s in
  selectedId s' = selectedId s /\ connectedPorts s' = connectedPorts s
  /\ dedupeEnabled s' = dedupeEnabled s
  /\ blockedListeners s' = blockedListeners s /\ blockedUrls s' = blockedUrls s
  /\ blockedRegex s' = blockedRegex s /\ compiledRegex s' = compiledRegex s
  /\ tab_push s' = tab_push s
  /\ (Forall (fun step => ~ writes_cache step) steps ->
      cachedPopupData s' = cachedPopupData s)
  /\ (Forall (fun step => ~ is_cleanup step) steps ->
      tab_listeners s' = tab_listeners s /\ tab_listener_keys s' = tab_listener_keys s
      /\ tab_lasturl s' = tab_lasturl s)
  /\ (forall other : Z, other <> selectedId s ->
        tab_listeners s' !! other = tab_listeners s !! other
        /\ tab_listener_keys s' !! other = tab_listener_keys s !! other
        /\ tab_lasturl s' !! other = tab_lasturl s !! other).
Proof.
  unfold run_steps. revert s.
  induction steps as [|step steps IH]; intros s; cbn [fold_left]; [by split_and!|].
  destruct (run_step_frame step s)
    as (Hsel & Hports & Hd & Hbl & Hbu & Hbr & Hcr & Hpush & Hcache & Hkeep & Hclean).
  destruct (IH (exec (run_step step) s))
    as (Hsel' & Hports' & Hd' & Hbl' & Hbu' & Hbr' & Hcr' & Hpush' & Hcache' & Hkeep' & Hother').
  cbn zeta in *. split_and!; try congruence.
  - intros [Hstep Hsteps]%Forall_cons. rewrite (Hcache' Hsteps). by apply Hcache.
  - intros [Hstep Hsteps]%Forall_cons.
    destruct (Hkeep' Hsteps) as (-> & -> & ->). by apply Hkeep.
  - intros other Hne. rewrite Hsel in Hother'.
    destruct (Hother' other Hne) as (-> & -> & ->).
    assert (Hcases : is_cleanup step \/ ~ is_cleanup step).
    { destruct step as [|awaited [|]| | |]; cbn; tauto. }
    destruct Hcases as [Hyes|Hno].
    + destruct (Hclean Hyes) as (-> & -> & ->). by rewrite !lookup_delete_ne.
    + by destruct (Hkeep Hno) as (-> & -> & ->).
Qed.



Lemma occur_loading_mark (o : Occurrence) (s : State) (tabId : Z) :
  flag_set (tab_lasturl s) tabId = true ->
  flag_set (tab_lasturl (exec (occur o) s)) tabId = false
  <-> takes_mark_off o s tabId.
Proof.
  intros Hmark. destruct o as [e|step|tabs]; cbn [occur takes_mark_off].
  - by apply handle_loading_mark.
  - destruct (run_step_frame step s) as (_ & _ & _ & _ & _ & _ & _ & _ & _ & Hkeep & Hclean).
    assert (Hcases : is_cleanup step \/ ~ is_cleanup step).
    { destruct step as [|awaited [|]| | |]; cbn; tauto. }
    destruct Hcases as [Hyes|Hno].
    + destruct (Hclean Hyes) as (_ & _ & ->). rewrite flag_set_delete.
      case_bool_decide as Heq; rewrite ?Hmark; split; try done; by intros [_ ?].
    + destruct (Hkeep Hno) as (_ & _ & ->). rewrite Hmark. split; [done|]. by intros [? _].
  - unfold initializeServiceWorker_resume. destruct tabs; run_handler; by rewrite Hmark.
Qed.


(** X7. A tab whose status became ["loading"] is marked as loading, and
    while it is marked no status transition of the tab, whatever its
    status and however many follow, clears its records or its keys.  Of
    the events the script handles once its state is loaded, exactly three
    take the mark off: a message of the tab that carries [changePage] and
    is neither the settings update nor a native-code message, the removal
    of the tab, and a run of [refreshCount] that finds the tab selected
    and gone; of the steps of the helpers exactly the clean-up of
    [refreshCount] takes it off, for the tab selected at that moment; the
    start-up routine does not.  After a [changePage] message the next
    transition with a status other than ["complete"], the push flag not
    being set, empties the tab. *)
Theorem records_survive_while_the_tab_is_loading :
  (forall (s : State) (tabId : Z),
      flag_set (tab_lasturl (exec (onUpdated tabId (Some "loading")) s)) tabId = true)
  /\ (forall (s : State) (tabId : Z) (statuses : list (option string)),
        flag_set (tab_lasturl s) tabId = true ->
        let s' := fold_left (fun s status => exec (onUpdated tabId status) s) statuses s in
        tab_listeners s' = tab_listeners s
        /\ tab_listener_keys s' = tab_listener_keys s
        /\ flag_set (tab_lasturl s') tabId = true)
  /\ (forall (s : State) (msg : Msg) (tab : Tab) (status : option string),
        action msg <> Some "updateDedupeSetting" ->
        listener msg <> Some NATIVE_CODE ->
        changePage msg = true -> pushState msg = false ->
        flag_set (tab_push s) (tab_id tab) = false ->
        non_complete status ->
        let s1 := exec (onMessage msg (Some tab)) s in
        let s2 := exec (onUpdated (tab_id tab) status) s1 in
        flag_set (tab_lasturl s1) (tab_id tab) = false
        /\ records_of s2 (tab_id tab) = [] /\ keys_seen s2 (tab_id tab) = ∅)
  /\ (forall (o : Occurrence) (s : State) (tabId : Z),
        flag_set (tab_lasturl s) tabId = true ->
        flag_set (tab_lasturl (exec (occur o) s)) tabId = false
        <-> takes_mark_off o s tabId).
Proof.
  split_and!.
  - intros s tabId.
    destruct (onUpdated_loading_flag s tabId (Some "loading")) as (Hl & _). by apply Hl.
  - apply onUpdated_kept_while_loading.
  - intros s msg tab status Haction Hnative Hchange Hpush Hflag Hnc s1 s2.
    assert (Hs1 : tab_lasturl s1 !! tab_id tab = None /\ tab_push s1 = tab_push s).
    { unfold s1. rewrite onMessage_state by done. rewrite Hchange, Hpush.
      destruct (Js.truthy (listener msg)).
      - rewrite bool_decide_eq_false_2 by done. cbn. rewrite lookup_delete_eq. split; [done|].
        by destruct (addListener_rest s (tab_id tab) (with_parent_url (tab_url tab) msg))
          as (-> & _).
      - cbn. by rewrite lookup_delete_eq. }
    destruct Hs1 as [Hlast Hpush1].
    assert (Hlast' : flag_set (tab_lasturl s1) (tab_id tab) = false)
      by (unfold flag_set; by rewrite Hlast).
    split; [done|].
    destruct (onUpdated_clears s1 (tab_id tab) status Hnc) as [Hl Hk];
      [by rewrite Hpush1|done|].
    fold s2 in Hl, Hk. unfold records_of, keys_seen. rewrite Hl, Hk.
    rewrite lookup_insert_eq, lookup_alter, decide_True by done.
    split; [done|]. by destruct (tab_listener_keys s1 !! tab_id tab).
  - apply occur_loading_mark.
Qed.

(** X11. A message that is not the settings update and comes from a tab
    is handled by changing entries of that tab only: its handler changes
    nothing that belongs to another tab (records, keys, push flag, loading
    flag) and does not write the popup cache.  The helpers it starts go on
    later, step by step: whatever steps of [refreshCount],
    [updateCachedData] and [logListener] follow, and however their calls
    are answered, the records, keys and loading flag of every tab other
    than the sender's and the selected one are as before the message, as
    are the push flags of every tab other than the sender's, the settings,
    the block lists, the selection and the connected ports.  The entries
    of the selected tab are only touched by a clean-up of [refreshCount],
    and the cache only by a step of [updateCachedData], whose steps, run
    without anything in between, are [updateCachedData].  Without a sender
    tab the message changes nothing, starts no helper and is answered
    with a failure. *)
Theorem a_message_and_its_helpers_spare_the_other_tabs (s : State) (msg : Msg) :
  action msg <> Some "updateDedupeSetting" ->
  (forall (tab : Tab) (steps : list HelperStep),
      let s1 := exec (onMessage msg (Some tab)) s in
      let s2 := run_steps steps s1 in
      ((forall other : Z, other <> tab_id tab ->
          tab_listeners s1 !! other = tab_listeners s !! other
          /\ tab_listener_keys s1 !! other = tab_listener_keys s !! other
          /\ tab_push s1 !! other = tab_push s !! other
          /\ tab_lasturl s1 !! other = tab_lasturl s !! other)
       /\ cachedPopupData s1 = cachedPopupData s)
      /\ (forall other : Z, other <> tab_id tab -> other <> selectedId s ->
            tab_listeners s2 !! other = tab_listeners s !! other
            /\ tab_listener_keys s2 !! other = tab_listener_keys s !! other
            /\ tab_lasturl s2 !! other = tab_lasturl s !! other)
      /\ (forall other : Z, other <> tab_id tab ->
            tab_push s2 !! other = tab_push s !! other)
      /\ (Forall (fun step => ~ is_cleanup step) steps ->
          forall other : Z, other <> tab_id tab ->
            tab_listeners s2 !! other = tab_listeners s !! other
            /\ tab_listener_keys s2 !! other = tab_listener_keys s !! other
            /\ tab_lasturl s2 !! other = tab_lasturl s !! other)
      /\ (Forall (fun step => ~ writes_cache step) steps ->
          cachedPopupData s2 = cachedPopupData s)
      /\ dedupeEnabled s2 = dedupeEnabled s
      /\ blockedListeners s2 = blockedListeners s /\ blockedUrls s2 = blockedUrls s
      /\ blockedRegex s2 = blockedRegex s /\ compiledRegex s2 = compiledRegex s
      /\ selectedId s2 = selectedId s /\ connectedPorts s2 = connectedPorts s)
  /\ exec (onMessage msg None) s = s
  /\ effects (onMessage msg None) s = [SendResponse false]
  /\ (forall (env : Env) (s' : State),
        updateCachedData_uninterrupted env s' = updateCachedData env s').
Proof.
  intros Haction. destruct (onMessage_frame s msg Haction) as (Htab & Hnone & Heffects).
  split_and!; [|done|done|apply updateCachedData_steps].
  intros tab steps s1 s2.
  destruct (Htab tab) as (Hother & Hd & Hbl & Hbu & Hbr & Hcr & Hsel & Hports & Hcache).
  fold s1 in Hother, Hd, Hbl, Hbu, Hbr, Hcr, Hsel, Hports, Hcache.
  destruct (run_steps_frame steps s1)
    as (Hsel2 & Hports2 & Hd2 & Hbl2 & Hbu2 & Hbr2 & Hcr2 & Hpush2 & Hcache2 & Hkeep2 & Hother2).
  fold s2 in Hsel2, Hports2, Hd2, Hbl2, Hbu2, Hbr2, Hcr2, Hpush2, Hcache2, Hkeep2, Hother2.
  split_and!; try congruence.
  - done.
  - intros other Hne Hnsel. rewrite <- Hsel in Hnsel.
    destruct (Hother2 other Hnsel) as (-> & -> & ->).
    by destruct (Hother other Hne) as (-> & -> & _ & ->).
  - intros other Hne. rewrite Hpush2. by destruct (Hother other Hne) as (_ & _ & -> & _).
  - intros Hsteps other Hne. destruct (Hkeep2 Hsteps) as (-> & -> & ->).
    by destruct (Hother other Hne) as (-> & -> & _ & ->).
  - intros Hsteps. by rewrite (Hcache2 Hsteps).
Qed.

End HelperProperties.

(* ================================================================== *)
(** * The further properties on concrete runs *)
(* ================================================================== *)

Section StoreRuns.
Import Background Examples Scenarios.
#[local] Existing Instance reference_platform.

(** X1 on a concrete run: the scenario registration delivered twice to
    tab 7, followed by a navigation of that tab. *)
Lemma no_two_records_of_a_tab_share_a_key_witness :
  store_consistent
    (run_events [Message scenario_record (Some tab7);
                 Message scenario_record (Some tab7);
                 Updated 7 (Some "loading")] start)
  /\ dedupeEnabled
       (run_events [Message scenario_record (Some tab7);
                    Message scenario_record (Some tab7);
                    Updated 7 (Some "loading")] start) = true.
Proof.
  destruct (@no_two_records_of_a_tab_share_a_key reference_platform) as [Hinitial Hkept].
  destruct (Hkept [Message scenario_record (Some tab7);
                   Message scenario_record (Some tab7);
                   Updated 7 (Some "loading")] start) as [Hdedupe Hconsistent].
  - repeat apply Forall_cons_2; [done..|apply Forall_nil_2].
  - reflexivity.
  - exact Hinitial.
  - by split.
Defined.

(** X2 on a concrete run: deduplication switched off and on again around
    the second delivery of the scenario registration. *)
Lemma dedupe_off_and_on_forgets_the_keys_witness :
  records_of
    (exec (addListener 7 scenario_record)
       (exec (onMessage dedupe_on None) (exec (onMessage dedupe_off None) one_record))) 7%Z
  = records_of one_record 7%Z ++ [scenario_record].
Proof.
  destruct (dedupe_off_and_on_forgets_the_keys one_record dedupe_off dedupe_on None None
              7%Z scenario_record) as (_ & _ & _ & Hrecords);
    [reflexivity..|exact Hrecords].
Defined.




(** X7 on concrete runs: tab 7 keeps its record through further status
    transitions once it is marked as loading, and is emptied by the first
    transition after the page has announced that it unloads. *)
Lemma records_survive_while_the_tab_is_loading_witness :
  tab_listeners
    (fold_left (fun s status => exec (onUpdated 7 status) s)
       [Some "complete"; Some "loading"; None]
       (exec (onUpdated 7 (Some "loading")) one_record))
  = tab_listeners (exec (onUpdated 7 (Some "loading")) one_record)
  /\ records_of
       (exec (onUpdated 7 (Some "loading")) (exec (onMessage page_change (Some tab7)) one_record))
       7%Z = [].
Proof.
  destruct (@records_survive_while_the_tab_is_loading reference_platform)
    as (Hmarked & Hkept & Hcleared & _).
  split.
  - destruct (Hkept (exec (onUpdated 7 (Some "loading")) one_record) 7%Z
                [Some "complete"; Some "loading"; None]) as [Hlisteners _];
      [apply Hmarked|exact Hlisteners].
  - destruct (Hcleared one_record page_change tab7 (Some "loading")) as (_ & Hrecords & _);
      [done|done|reflexivity|reflexivity|reflexivity|by split|exact Hrecords].
Defined.

(** X8 on a concrete run: the source URL of the scenario registration. *)
Lemma source_url_edge_cases_witness :
  extractJsUrlFromStack (stack scenario_record) (fullstack scenario_record)
  = Some "https://cdn.example.com/a.js"
  /\ no_query_or_fragment "https://cdn.example.com/a.js" = true.
Proof.
  assert (Hurl : extractJsUrlFromStack (stack scenario_record) (fullstack scenario_record)
                 = Some "https://cdn.example.com/a.js") by (vm_compute; reflexivity).
  destruct source_url_edge_cases as (_ & _ & _ & _ & Hstripped).
  split; [exact Hurl|]. exact (Hstripped _ _ _ Hurl).
Defined.

(** X9 on a concrete run: a record whose stack line names Wappalyzer is
    dropped. *)
Lemma filtered_records_mention_an_extension_witness :
  exec (addListener 7 filtered_record) one_record = one_record
  /\ result (addListener 7 filtered_record) one_record = false.
Proof.
  destruct (@filtered_records_mention_an_extension reference_platform) as (_ & _ & Hdropped).
  destruct (Hdropped one_record 7%Z filtered_record) as (Hstate & Hresult & _);
    [vm_compute; reflexivity|by split].
Defined.

(** X10 on a concrete run: the store with one record, saved and read back
    by a restarted script. *)
Lemma saved_state_is_restored_without_navigation_flags_witness :
  exists snapshot,
    saveState true false one_record = [StorageLocalSet snapshot]
    /\ tab_listeners (fst (fst (loadState false (Some snapshot) start)))
       = tab_listeners one_record
    /\ tab_listener_keys (fst (fst (loadState false (Some snapshot) start)))
       = tab_listener_keys one_record.
Proof.
  destruct (@saved_state_is_restored_without_navigation_flags reference_platform)
    as (Hsave & Hload & _).
  destruct (Hsave one_record false) as (_ & snapshot & Hwritten & Hsaved).
  exists snapshot. split; [exact Hwritten|].
  destruct (Hload one_record start snapshot Hsaved) as (Hlisteners & Hkeys & _).
  by split.
Defined.

(** X11 on a concrete run: a registration from tab 8, followed by steps
    of the helpers it starts, leaves tab 7 as it is. *)
Lemma a_message_and_its_helpers_spare_the_other_tabs_witness :
  tab_listeners
    (run_steps [RefreshCountBegins; UpdateCachedDataBegins 5;
                RefreshCountResumes (AwaitsTabsGet 8 1) false;
                UpdateCachedDataResumes None]
       (exec (onMessage unfiltered_record (Some (MkTab 8 None))) one_record)) !! 7%Z
  = tab_listeners one_record !! 7%Z
  /\ tab_listener_keys
       (run_steps [RefreshCountBegins; UpdateCachedDataBegins 5;
                   RefreshCountResumes (AwaitsTabsGet 8 1) false;
                   UpdateCachedDataResumes None]
          (exec (onMessage unfiltered_record (Some (MkTab 8 None))) one_record)) !! 7%Z
     = tab_listener_keys one_record !! 7%Z.
Proof.
  destruct (a_message_and_its_helpers_spare_the_other_tabs one_record unfiltered_record)
    as [Htab _]; [discriminate|].
  destruct (Htab (MkTab 8 None)
              [RefreshCountBegins; UpdateCachedDataBegins 5;
               RefreshCountResumes (AwaitsTabsGet 8 1) false;
               UpdateCachedDataResumes None])
    as (_ & Hother & _).
  destruct (Hother 7%Z) as (Hlisteners & Hkeys & _); [discriminate|discriminate|by split].
Defined.

End StoreRuns.

Section PopupBlockRuns.
Import Popup Examples Scenarios.
#[local] Existing Instance reference_platform.

(** X12 on a concrete run: two patterns shown by the editor and saved
    again. *)
Lemma regex_editor_text_round_trip_witness :
  parseRegexText (regexText ["eval"; "^on message$"]) = ["eval"; "^on message$"].
Proof.
  destruct regex_editor_text_round_trip as (_ & Hback & _).
  apply Hback. repeat apply Forall_cons_2; [..|apply Forall_nil_2];
    (split_and!; [discriminate|reflexivity|reflexivity]).
Defined.

(** X13 on concrete runs: the scenario registration blocked and unblocked
    in a popup with empty lists, by its code and by its source URL. *)
Lemma block_then_unblock_restores_the_lists_witness :
  (isListenerBlocked
     (fst (addToBlocklist "listener" "function(e){console.log(e)}" popup_empty)) scenario_record
   = Some (ByListener "function(e){console.log(e)}")
   /\ fst (removeFromBlocklist "listener" "function(e){console.log(e)}"
             (fst (addToBlocklist "listener" "function(e){console.log(e)}" popup_empty)))
      = popup_empty)
  /\ (isListenerBlocked
        (fst (addToBlocklist "url" "https://cdn.example.com/a.js" popup_empty)) scenario_record
      = Some (ByUrl "https://cdn.example.com/a.js")
      /\ fst (removeFromBlocklist "url" "https://cdn.example.com/a.js"
                (fst (addToBlocklist "url" "https://cdn.example.com/a.js" popup_empty)))
         = popup_empty).
Proof.
  destruct (@block_then_unblock_restores_the_lists reference_platform)
    as (Hcode & Hurl & _).
  split.
  - destruct (Hcode popup_empty scenario_record "function(e){console.log(e)}")
      as (Hblocked & _ & Hback); [vm_compute; reflexivity|reflexivity|by split].
  - destruct (Hurl popup_empty scenario_record "https://cdn.example.com/a.js")
      as (Hblocked & _ & Hback);
      [vm_compute; reflexivity|vm_compute; reflexivity|vm_compute; reflexivity|by split].
Defined.

(** X14 on a concrete run: a record whose code spells a blocked pattern
    in capitals is blocked for both scripts. *)
Lemma popup_and_background_agree_on_blocked_witness :
  Background.isListenerBlocked lists_loaded eval_record = true
  <-> isListenerBlocked popup_lists eval_record <> None.
Proof.
  destruct (popup_and_background_agree_on_blocked lists_loaded popup_lists eval_record)
    as [Hagree _].
  - split_and!; vm_compute; reflexivity.
  - vm_compute. repeat apply Forall_cons_2; [discriminate|apply Forall_nil_2].
  - exact Hagree.
Defined.

(** The hypothesis of X13 on the source URL is needed: the stack line
    [(https://a.com:80 ?x)] has the source URL [https://a.com:80 ] with
    the space, for which [addToBlocklist] lists [https://a.com/]; the
    record is not blocked afterwards. *)
Lemma blocking_by_url_can_miss_the_record :
  extractJsUrlFromStack (Some "(https://a.com:80 ?x)") None = Some "https://a.com:80 "
  /\ blockedUrls (fst (addToBlocklist "url" "https://a.com:80 " popup_empty))
     = [JString "https://a.com/"]
  /\ isListenerBlocked (fst (addToBlocklist "url" "https://a.com:80 " popup_empty))
       (record "function(e){go(e)}" "(https://a.com:80 ?x)" ["(https://a.com:80 ?x)"]
          "top" "a.com")
     = None.
Proof. by vm_compute. Qed.

End PopupBlockRuns.

Section HookStackRuns.
Import MainWorld Examples Scenarios.

(** X15 on a concrete run: for a listener registered through jQuery the
    record names the caller of [init.on]. *)
Lemma the_hook_reports_the_line_after_the_jquery_frame_witness :
  exists stack fullstack text,
    snd (l jquery_page jquery_handler true 0)
    = [PostListener "top" "top" "shop.example" stack fullstack text]
    /\ stack = Some "setup@https://shop.example/app.js:7:3".
Proof.
  assert (Hrun : exists stack fullstack text,
             snd (l jquery_page jquery_handler true 0)
             = [PostListener "top" "top" "shop.example" stack fullstack text]).
  { eexists _, _, _. vm_compute. reflexivity. }
  destruct Hrun as (stack & fullstack & text & Hrun).
  exists stack, fullstack, text. split; [exact Hrun|].
  destruct (the_hook_reports_the_line_after_the_jquery_frame jquery_page jquery_handler true 0)
    as (_ & _ & Hrecord).
  destruct (Hrecord "top" "top" "shop.example" stack fullstack text)
    as (_ & _ & _ & _ & _ & Hline & _).
  { rewrite Hrun. apply list_elem_of_here. }
  apply (Hline eq_refl).
  exists ["Error"; "l@moz-extension://x/main.js:160:19";
          "addEventListener@moz-extension://x/main.js:411:17";
          "add@https://code.example/jquery.js:2:1"],
         "jQuery.fn.init.on@https://code.example/jquery.js:5:1", [].
  split_and!.
  - vm_compute. reflexivity.
  - repeat apply Forall_cons_2; [reflexivity..|apply Forall_nil_2].
  - reflexivity.
Defined.

End HookStackRuns.

Section IdentityKeyRuns.
Import Background Examples Scenarios.
#[local] Existing Instance reference_platform.

Lemma first_url_of_one_line (url : string) :
  parenthesized_url_at ("(" +:+ url +:+ ")") ("(" +:+ url +:+ ")") ->
  first_url_found ["(" +:+ url +:+ ")"] url.
Proof.
  intros Hat. exists [], ("(" +:+ url +:+ ")"), []. split_and!; [done|apply Forall_nil_2|].
  left. exists "", "". split_and!.
  - by rewrite app_nil_l, app_empty_r.
  - by rewrite app_empty_r.
  - intros a b m' Hab Hb. by destruct a, b.
Qed.

(** The key leaves out the port of the source URL.  The first URL of the
    record is [https://cdn.example.com:8443/a.js?x=1:10:5]; without line,
    column, query string and fragment it is
    [https://cdn.example.com:8443/a.js], but the URL is parsed and the key
    is built from its protocol, host name and path,
    [https://cdn.example.com/a.js].  So the same code registered by the
    scripts of two ports is stored once. *)
Lemma port_is_dropped_from_the_identity_key :
  Whatwg.parse "https://cdn.example.com:8443/a.js?x=1"
  = Whatwg.Parsed (MkURL "https:" "cdn.example.com" "/a.js")
  /\ stated_key port_record
       "https://cdn.example.com:8443/a.js|top|example.com|function(e){console.log(e)}"
  /\ generateListenerKey port_record
     = "https://cdn.example.com/a.js|top|example.com|function(e){console.log(e)}"
  /\ generateListenerKey port_record
     <> "https://cdn.example.com:8443/a.js|top|example.com|function(e){console.log(e)}"
  /\ stated_key other_port_record
       "https://cdn.example.com:9443/a.js|top|example.com|function(e){console.log(e)}"
  /\ records_of (exec (addListener 7 other_port_record)
                   (exec (addListener 7 port_record) start)) 7%Z
     = [port_record].
Proof.
  split_and!.
  - by vm_compute.
  - exists "https://cdn.example.com:8443/a.js?x=1:10:5". split; [|by vm_compute].
    apply (first_url_of_one_line "https://cdn.example.com:8443/a.js?x=1:10:5").
    exists "https://", "cdn.example.com:8443/a.js?x=1:10:5", "".
    split_and!; [by right|done|reflexivity..].
  - by vm_compute.
  - by vm_compute.
  - exists "https://cdn.example.com:9443/a.js?x=1:10:5". split; [|by vm_compute].
    apply (first_url_of_one_line "https://cdn.example.com:9443/a.js?x=1:10:5").
    exists "https://", "cdn.example.com:9443/a.js?x=1:10:5", "".
    split_and!; [by right|done|reflexivity..].
  - by vm_compute.
Qed.

(** C2 on a concrete run: the URL found in the scenario registration and
    its key, and the registration delivered twice to tab 7 of a fresh
    store. *)
Lemma identity_key_is_url_hops_domain_code_witness :
  first_url_found (stackLines (stack scenario_record) (fullstack scenario_record))
    "https://cdn.example.com/a.js?x=1:10:5"
  /\ generateListenerKey scenario_record
     = "https://cdn.example.com/a.js|top|example.com|function(e){console.log(e)}"
  /\ length (records_of (exec (addListener 7 scenario_record)
                           (exec (addListener 7 scenario_record) start)) 7%Z) = 1%nat.
Proof.
  assert (Hscenario : scenario_registration scenario_record).
  { unfold scenario_registration. split_and!; try reflexivity. right. reflexivity. }
  assert (Hfound : first_url_found
                     (stackLines (stack scenario_record) (fullstack scenario_record))
                     "https://cdn.example.com/a.js?x=1:10:5").
  { apply (first_url_of_one_line "https://cdn.example.com/a.js?x=1:10:5").
    exists "https://", "cdn.example.com/a.js?x=1:10:5", "".
    split_and!; [by right|done|reflexivity..]. }
  destruct (@identity_key_is_url_hops_domain_code reference_platform)
    as (Hkey & _ & _ & _ & _ & _ & _ & Htwice & _).
  split_and!.
  - exact Hfound.
  - rewrite (Hkey scenario_record _ Hfound). vm_compute. reflexivity.
  - destruct (Htwice start 7%Z scenario_record scenario_record Hscenario Hscenario)
      as (_ & Hlen); [reflexivity|reflexivity|exact Hlen].
Defined.

End IdentityKeyRuns.
